(** * FikaTutor internal tool: token budgeting, schema validation, batching

    A shallow embedding of [json_converter.py], of [file_parser.py] and
    of the settings and the upload loop of [app.py], with the properties
    of the specification stated over it, followed by further properties
    of the code.

    Python values are rendered as follows.
    - [int] is [Z]; [//] is [Z.div] (floor division).
    - [str] is [string]; only [len], slicing and concatenation of the
      document text are used, so the character repertoire is immaterial.
    - [float] is binary64, as [spec_float] with [prec = 53], [emax = 1024].
    - A raised exception is a value of [exn]; a function that can raise
      returns [flow], the logger is an explicit list of records. *)

From Stdlib Require Import ZArith Lia Ascii List.
From Stdlib Require Import Floats.SpecFloat.
From stdpp Require Import base option list gmap strings.

Local Open Scope Z_scope.

(** ** Python primitives *)

Module Py.

(** Exceptions carry their class name and the text of [str(e)]. *)
Record exn := Exn { exn_class : string; exn_str : string }.

(** The outcome of running a block: it falls through ([Next]), executes
    [return r], or raises. *)
Inductive flow (R : Type) : Type :=
| Next
| Return (r : R)
| Raise (e : exn).
Arguments Next {R}.
Arguments Return {R} r.
Arguments Raise {R} e.

(** A called function has either returned a value or raised. *)
Inductive exc (A : Type) : Type :=
| Ok (a : A)
| Err (e : exn).
Arguments Ok {A} a.
Arguments Err {A} e.

Definition bind_exc {A R} (c : exc A) (k : A -> flow R) : flow R :=
  match c with
  | Ok a => k a
  | Err e => Raise e
  end.

Definition seq_flow {R} (c1 c2 : flow R) : flow R :=
  match c1 with
  | Next => c2
  | _ => c1
  end.

(** [for i, x in enumerate(xs): body], starting the count at [i]. *)
Fixpoint for_enumerate {A R} (body : nat -> A -> flow R) (i : nat)
    (xs : list A) : flow R :=
  match xs with
  | [] => Next
  | x :: xs' => seq_flow (body i x) (for_enumerate body (S i) xs')
  end.

Definition for_each {A R} (body : A -> flow R) (xs : list A) : flow R :=
  for_enumerate (fun _ x => body x) 0%nat xs.

(** [len(s)] *)
Definition len (s : string) : Z := Z.of_nat (String.length s).

(** [s[:stop]]: a negative [stop] counts from the end, and both ends are
    clamped to the string. *)
Definition slice_to (s : string) (stop : Z) : string :=
  let stop' := if stop <? 0 then Z.max 0 (len s + stop) else Z.min stop (len s) in
  String.substring 0 (Z.to_nat stop') s.

(** Decimal rendering of an integer inside an f-string. *)
Fixpoint digits_fuel (fuel : nat) (n : N) (acc : string) : string :=
  match fuel with
  | O => acc
  | S fuel' =>
      let d := ascii_of_N (48 + n mod 10)%N in
      let acc' := String d acc in
      if (n <? 10)%N then acc' else digits_fuel fuel' (n / 10)%N acc'
  end.

Definition str_of_N (n : N) : string :=
  digits_fuel (S (N.to_nat (N.log2 n))) n "".

Definition str_of_Z (z : Z) : string :=
  match z with
  | Zneg p => "-" +:+ str_of_N (Npos p)
  | _ => str_of_N (Z.to_N z)
  end.

Definition str_of_nat (n : nat) : string := str_of_N (N.of_nat n).

Definition newline : string := String "010"%char "".

(** Whitespace as [str.isspace] sees it on the Latin-1 range. *)
Definition isspace (c : ascii) : bool :=
  let n := N_of_ascii c in
  ((9 <=? n) && (n <=? 13) || (28 <=? n) && (n <=? 32)
   || (n =? 133) || (n =? 160))%N.

Fixpoint lstrip (s : string) : string :=
  match s with
  | String c s' => if isspace c then lstrip s' else s
  | EmptyString => s
  end.

(** [s.strip()] *)
Definition strip (s : string) : string :=
  String.rev (lstrip (String.rev (lstrip s))).

End Py.
Import Py.

Notation "'let!' x ':=' c 'in' k" := (bind_exc c (fun x => k))
  (at level 10, x name, c at level 100, k at level 200).
Notation "c1 ';;' c2" := (seq_flow c1 c2)
  (at level 100, c2 at level 200, right associativity).

Global Instance exc_ret : MRet exc := fun _ a => Ok a.
Global Instance exc_fmap : FMap exc := fun _ _ f c =>
  match c with
  | Ok a => Ok (f a)
  | Err e => Err e
  end.
Global Instance exc_bind : MBind exc := fun _ _ k c =>
  match c with
  | Ok a => k a
  | Err e => Err e
  end.

(** ** Binary64 arithmetic, as far as the converter uses it *)

Module Float64.

Definition prec : Z := 53.
Definition emax : Z := 1024.

(** [float(n)] for an [int]: the nearest double, ties to even; an [int]
    beyond the range of doubles raises. *)
Definition of_int (n : Z) : exc spec_float :=
  match binary_normalize prec emax n 0 false with
  | S754_infinity _ =>
      Err (Exn "OverflowError" "int too large to convert to float")
  | x => Ok x
  end.

Definition mul : spec_float -> spec_float -> spec_float := SFmul prec emax.

(** [int(x)]: truncation toward zero. *)
Definition to_int (x : spec_float) : exc Z :=
  match x with
  | S754_zero _ => Ok 0
  | S754_finite s m e =>
      let v := if 0 <=? e then Zpos m * 2 ^ e else Zpos m / 2 ^ (- e) in
      Ok (if s then - v else v)
  | S754_infinity _ =>
      Err (Exn "OverflowError" "cannot convert float infinity to integer")
  | S754_nan =>
      Err (Exn "ValueError" "cannot convert float NaN to integer")
  end.

(** [int * float]: the integer is converted first. *)
Definition int_mul (n : Z) (x : spec_float) : exc spec_float :=
  y ← of_int n; mret (mul y x).

(** The literal [0.05], i.e. 0x3FA999999999999A. *)
Definition lit_0_05 : spec_float :=
  S754_finite false 7205759403792794 (-57).

(** The double [1.0]. *)
Definition one : spec_float := S754_finite false 4503599627370496 (-52).

End Float64.

(** ** The logger *)

Inductive log_level := INFO | WARNING | ERROR.

Record log_record := LogRecord { level : log_level; message : string }.

(** ** [JSONConverter]: token estimate and truncation *)

Section TokenBudget.

(** [template.format(filename=filename, text_content=text_content)], a
    built-in of the language: it yields the rendered string or raises. *)
Variable str_format : string -> string -> string -> exc string.

Definition _estimate_tokens (text : string) : Z := len text / 4.

Definition TRUNCATION_NOTICE : string :=
  newline +:+ newline +:+
  "[Content truncated due to token limits. Consider processing in smaller chunks for very large documents.]".

(** [int(max_context_tokens * fraction)]; the source has the literal
    [0.05] for [fraction]. *)
Definition safety_margin_with (fraction : spec_float)
    (max_context_tokens : Z) : exc Z :=
  x ← Float64.int_mul max_context_tokens fraction; Float64.to_int x.

Definition safety_margin : Z -> exc Z :=
  safety_margin_with Float64.lit_0_05.

(** Lines 100-107 of [_truncate_to_token_limit]: the tokens left for the
    document text. *)
Definition available_tokens_with (fraction : spec_float)
    (system_prompt user_prompt_template filename : string)
    (max_context_tokens max_output_tokens : Z) : exc Z :=
  let system_tokens := _estimate_tokens system_prompt in
  user_wrapper ← str_format user_prompt_template filename "";
  let user_wrapper_tokens := _estimate_tokens user_wrapper in
  let reserved_tokens := system_tokens + user_wrapper_tokens + max_output_tokens in
  safety_margin ← safety_margin_with fraction max_context_tokens;
  mret (max_context_tokens - reserved_tokens - safety_margin).

Definition available_tokens :
    string -> string -> string -> Z -> Z -> exc Z :=
  available_tokens_with Float64.lit_0_05.

Definition truncation_warning (text : string) (text_tokens available_tokens : Z)
    (truncated : string) : log_record :=
  LogRecord WARNING
    ("Text too long (" +:+ str_of_Z text_tokens +:+
     " estimated tokens, limit: " +:+ str_of_Z available_tokens +:+
     " tokens). Truncating from " +:+ str_of_Z (len text) +:+ " to " +:+
     str_of_Z (len truncated) +:+ " characters.").

(** Lines 110-125: the text that is sent, and what is logged. *)
Definition truncate_to_fit (text : string) (available_tokens : Z)
    : string * list log_record :=
  let text_tokens := _estimate_tokens text in
  if text_tokens <=? available_tokens then (text, [])
  else
    let max_chars := available_tokens * 4 in
    let truncated := slice_to text max_chars in
    (truncated +:+ TRUNCATION_NOTICE,
     [truncation_warning text text_tokens available_tokens truncated]).

Definition _truncate_to_token_limit
    (text system_prompt user_prompt_template filename : string)
    (max_context_tokens max_output_tokens : Z)
    : exc (string * list log_record) :=
  available ← available_tokens system_prompt user_prompt_template filename
                max_context_tokens max_output_tokens;
  mret (truncate_to_fit text available).

(** The caller's view of a truncation: the warning was logged. *)
Definition was_truncated (r : string * list log_record) : bool :=
  match r.2 with
  | [] => false
  | _ :: _ => true
  end.

End TokenBudget.

(** ** JSON values, as [json.loads] builds them *)

#[warnings="-register-all"]
Inductive json : Type :=
| JNull
| JBool (b : bool)
| JInt (n : Z)
| JFloat (x : spec_float)
| JString (s : string)
| JArray (items : list json)
| JObject (members : gmap string json).

Definition isinstance_dict (v : json) : bool :=
  match v with
  | JObject _ => true
  | _ => false
  end.

Definition isinstance_list (v : json) : bool :=
  match v with
  | JArray _ => true
  | _ => false
  end.

Definition type_name (v : json) : string :=
  match v with
  | JNull => "NoneType"
  | JBool _ => "bool"
  | JInt _ => "int"
  | JFloat _ => "float"
  | JString _ => "str"
  | JArray _ => "list"
  | JObject _ => "dict"
  end.

Definition is_substring (needle hay : string) : bool :=
  match String.index 0 needle hay with
  | Some _ => true
  | None => false
  end.

(** [key in v] for a string [key]: key membership on a dict, element
    membership on a list, substring test on a string, [TypeError] on the
    rest. *)
Definition contains (key : string) (v : json) : exc bool :=
  match v with
  | JObject members => Ok (bool_decide (is_Some (members !! key)))
  | JArray items =>
      Ok (existsb (fun x => match x with
                            | JString s => bool_decide (s = key)
                            | _ => false
                            end) items)
  | JString s => Ok (is_substring key s)
  | _ =>
      Err (Exn "TypeError"
             ("argument of type '" +:+ type_name v +:+ "' is not iterable"))
  end.

(** [v[key]] for a string [key]. *)
Definition getitem (v : json) (key : string) : exc json :=
  match v with
  | JObject members =>
      match members !! key with
      | Some x => Ok x
      | None => Err (Exn "KeyError" ("'" +:+ key +:+ "'"))
      end
  | JArray _ =>
      Err (Exn "TypeError" "list indices must be integers or slices, not str")
  | JString _ =>
      Err (Exn "TypeError" "string indices must be integers, not 'str'")
  | _ =>
      Err (Exn "TypeError"
             ("'" +:+ type_name v +:+ "' object is not subscriptable"))
  end.

(** The items a [for] loop over [v] visits. The validator only ever loops
    over lists; a dict is listed in key order here. *)
Definition iter_items (v : json) : exc (list json) :=
  match v with
  | JArray items => Ok items
  | JString s =>
      Ok ((fun c => JString (String c "")) <$> String.list_ascii_of_string s)
  | JObject members => Ok ((fun kv => JString kv.1) <$> map_to_list members)
  | _ =>
      Err (Exn "TypeError" ("'" +:+ type_name v +:+ "' object is not iterable"))
  end.

(** ** [validate_json_structure] *)

Definition VERDICT : Type := option string.

Definition chapter_label (i : nat) : string := "Chapter " +:+ str_of_nat i.

Definition topic_label (i j : nat) : string :=
  "Chapter " +:+ str_of_nat i +:+ ", Topic " +:+ str_of_nat j.

Definition required_fields : list string := ["title"; "description"; "chapters"].

Definition required_topic_fields : list string :=
  ["topic_id"; "title"; "content"; "examples"; "real_world_applications";
   "keywords"].

Definition array_fields : list string :=
  ["examples"; "real_world_applications"; "keywords"].

(** Lines 50-62: the body of the loop over topics. *)
Definition validate_topic (i j : nat) (topic : json) : flow VERDICT :=
  (if negb (isinstance_dict topic)
   then Return (Some (topic_label i j +:+ " must be an object"))
   else Next) ;;
  for_each (fun field =>
    let! present := contains field topic in
    if negb present
    then Return (Some (topic_label i j +:+ " missing '" +:+ field +:+ "'"))
    else Next) required_topic_fields ;;
  for_each (fun array_field =>
    let! value := getitem topic array_field in
    if negb (isinstance_list value)
    then Return (Some (topic_label i j +:+ " '" +:+ array_field +:+
                       "' must be an array"))
    else Next) array_fields.

(** Lines 36-62: the body of the loop over chapters. *)
Definition validate_chapter (i : nat) (chapter : json) : flow VERDICT :=
  (if negb (isinstance_dict chapter)
   then Return (Some (chapter_label i +:+ " must be an object"))
   else Next) ;;
  (let! present := contains "title" chapter in
   if negb present
   then Return (Some (chapter_label i +:+ " missing 'title'"))
   else Next) ;;
  (let! present := contains "topics" chapter in
   if negb present
   then Return (Some (chapter_label i +:+ " missing 'topics'"))
   else Next) ;;
  let! topics := getitem chapter "topics" in
  (if negb (isinstance_list topics)
   then Return (Some (chapter_label i +:+ " 'topics' must be an array"))
   else Next) ;;
  let! items := iter_items topics in
  for_enumerate (validate_topic i) 0 items.

(** Lines 16-64: the body of the [try]. *)
Definition validate_body (data : json) : flow VERDICT :=
  (let! absent :=
     (if negb (isinstance_dict data) then Ok true
      else negb <$> contains "subject_name" data) in
   if (absent : bool)
   then Return (Some "Missing 'subject_name' at root level")
   else Next) ;;
  let! subject := getitem data "subject_name" in
  (if negb (isinstance_dict subject)
   then Return (Some "'subject_name' must be an object")
   else Next) ;;
  for_each (fun field =>
    let! present := contains field subject in
    if negb present
    then Return (Some ("Missing required field '" +:+ field +:+
                       "' in subject_name"))
    else Next) required_fields ;;
  let! chapters := getitem subject "chapters" in
  (if negb (isinstance_list chapters)
   then Return (Some "'chapters' must be an array")
   else Next) ;;
  let! items := iter_items chapters in
  for_enumerate validate_chapter 0 items ;;
  Return None.

(** The function itself: whatever the body raises is turned into a
    message. A body that fell off its end would return [None]. *)
Definition validate_json_structure (data : json) : VERDICT :=
  match validate_body data with
  | Return r => r
  | Next => None
  | Raise e => Some ("Validation error: " +:+ exn_str e)
  end.

(** ** [int(s)] on an environment string *)

Definition digit_value (c : ascii) : option Z :=
  let n := N_of_ascii c in
  if ((48 <=? n) && (n <=? 57))%N then Some (Z.of_N n - 48) else None.

(** White space as [int()] skips it around the number: the ASCII white
    space of C, and on the Latin-1 range the two characters beyond ASCII
    that count as spaces. Unlike [str.strip], the separators 0x1c-0x1f
    are not skipped. *)
Definition int_isspace (c : ascii) : bool :=
  let n := N_of_ascii c in
  ((9 <=? n) && (n <=? 13) || (n =? 32) || (n =? 133) || (n =? 160))%N.

Fixpoint int_lstrip (s : string) : string :=
  match s with
  | String c s' => if int_isspace c then int_lstrip s' else s
  | EmptyString => s
  end.

(** The run of digits at the head of [s], single underscores allowed
    between them: the number of digits, their value, and what follows;
    nothing for a doubled underscore or one at the end of the run. *)
Fixpoint scan_digits (s : string) (prev_underscore : bool) (digits acc : Z)
    : option (Z * Z * string) :=
  match s with
  | EmptyString => if prev_underscore then None else Some (digits, acc, s)
  | String c s' =>
      match digit_value c with
      | Some d => scan_digits s' false (digits + 1) (10 * acc + d)
      | None =>
          if bool_decide (c = "_"%char)
          then (if prev_underscore then None
                else scan_digits s' true digits acc)
          else (if prev_underscore then None else Some (digits, acc, s))
      end
  end.

Definition hex_digit (n : N) : ascii :=
  ascii_of_N (if (n <? 10)%N then 48 + n else 87 + n).

(** [c.isprintable()] on the Latin-1 range. *)
Definition isprintable (c : ascii) : bool :=
  let n := N_of_ascii c in
  ((32 <=? n) && (n <=? 126) || (161 <=? n) && negb (n =? 173))%N.

Definition backslash : ascii := "092"%char.

Definition repr_char (quote c : ascii) : string :=
  let n := N_of_ascii c in
  if bool_decide (c = quote) || bool_decide (c = backslash)
  then String backslash (String c EmptyString)
  else if (n =? 9)%N then String backslash "t"
  else if (n =? 10)%N then String backslash "n"
  else if (n =? 13)%N then String backslash "r"
  else if isprintable c then String c EmptyString
  else String backslash
         (String "x" (String (hex_digit (n / 16))
                        (String (hex_digit (n mod 16)) EmptyString))).

(** [repr(s)]: double quotes only for a string that has single quotes
    and no double ones. *)
Definition repr (s : string) : string :=
  let chars := String.list_ascii_of_string s in
  let quote :=
    if bool_decide ("'"%char ∈ chars) && negb (bool_decide ("034"%char ∈ chars))
    then "034"%char else "'"%char in
  String quote
    (String.concat EmptyString (repr_char quote <$> chars)
     +:+ String quote EmptyString).

(** The limit on the digits of a decimal string, [sys.int_info]'s
    [default_max_str_digits]. *)
Definition MAX_STR_DIGITS : Z := 4300.

Definition int_of_str (s : string) : exc Z :=
  let invalid :=
    Err (Exn "ValueError"
           ("invalid literal for int() with base 10: " +:+
            slice_to (repr s) 200)) in
  let t := int_lstrip s in
  let '(negative, body) :=
    match t with
    | String "-" r => (true, r)
    | String "+" r => (false, r)
    | _ => (false, t)
    end in
  match body with
  | String "_" _ => invalid
  | _ =>
      match scan_digits body false 0 0 with
      | None => invalid
      | Some (digits, n, rest) =>
          if MAX_STR_DIGITS <? digits then
            Err (Exn "ValueError"
                   ("Exceeds the limit (" +:+ str_of_Z MAX_STR_DIGITS +:+
                    " digits) for integer string conversion: value has " +:+
                    str_of_Z digits +:+
                    " digits; use sys.set_int_max_str_digits() to increase the limit"))
          else if digits =? 0 then invalid
          else if bool_decide (int_lstrip rest = EmptyString)
          then Ok (if negative then - n else n)
          else invalid
      end
  end.

(** [os.getenv(name, default)] *)
Definition getenv (environ : gmap string string) (name fallback : string)
    : string :=
  default fallback (environ !! name).

(** ** [JSONConverter.convert_to_json] *)

(** A computation that writes to the logger and may raise. *)
Definition logged (A : Type) : Type := exc A * list log_record.

Definition log_ret {A} (a : A) : logged A := (Ok a, []).

Definition log_bind {A B} (c : logged A) (k : A -> logged B) : logged B :=
  match c.1 with
  | Ok a => let r := k a in (r.1, c.2 ++ r.2)
  | Err e => (Err e, c.2)
  end.

Definition log_emit (lvl : log_level) (msg : string) : logged unit :=
  (Ok tt, [LogRecord lvl msg]).

Definition log_lift {A} (c : exc A) : logged A := (c, []).

Notation "'run' x ':=' c 'in' k" := (log_bind c (fun x => k))
  (at level 10, x name, c at level 100, k at level 200).
Notation "'emit' lvl msg 'in' k" := (log_bind (log_emit lvl msg) (fun _ => k))
  (at level 10, lvl at level 0, msg at level 0, k at level 200).

(** Reads a literal in which every backquote stands for a double quote. *)
Fixpoint with_quotes (s : string) : string :=
  match s with
  | EmptyString => EmptyString
  | String c s' =>
      String (if bool_decide (c = "`"%char) then "034"%char else c)
             (with_quotes s')
  end.

Definition MODEL_CONTEXT_LIMIT : Z := 128000.

Definition system_prompt : string := with_quotes
"You are an expert at analyzing educational content and structuring it into a well-organized format.
Your task is to analyze the provided content and convert it into a structured JSON format.

CRITICAL: You MUST follow this EXACT JSON structure. Do not add or remove any fields:

{
  `subject_name`: {
    `title`: ``,
    `description`: ``,
    `chapters`: [
      {
        `title`: ``,
        `topics`: [
          {
            `topic_id`: ``,
            `title`: ``,
            `content`: ``,
            `examples`: [],
            `real_world_applications`: [],
            `keywords`: []
          }
        ]
      }
    ]
  }
}

REQUIRED STRUCTURE:
- Root level: `subject_name` (object)
  - `title` (string): Subject title
  - `description` (string): Brief description of the subject
  - `chapters` (array): Array of chapter objects
    - Each chapter object:
      - `title` (string): Chapter title
      - `topics` (array): Array of topic objects
        - Each topic object:
          - `topic_id` (string): Unique identifier (e.g., `topic_1`, `topic_2`)
          - `title` (string): Topic title
          - `content` (string): Detailed content/explanation
          - `examples` (array): Array of example strings (can be empty [])
          - `real_world_applications` (array): Array of application strings (can be empty [])
          - `keywords` (array): Array of keyword strings (can be empty [])

Guidelines:
1. Identify the main subject from the content and use it as `subject_name` key
2. Break down the content into logical chapters
3. Within each chapter, identify distinct topics
4. For each topic, provide:
   - A unique topic_id (e.g., `topic_1`, `topic_2`, `topic_3`)
   - Clear, descriptive title
   - Comprehensive content/explanation
   - Relevant examples: Extract concrete examples from the content. If the content mentions specific cases, instances, or illustrations, include them. For educational content, provide at least 2-3 examples when possible. If no examples are in the content, try to provide relevant educational examples that illustrate the concept.
   - Real-world applications: Identify practical applications, use cases, or real-world scenarios related to the topic. Think about how this concept is applied in practice, in society, or in professional contexts. Include at least 2-3 applications when possible.
   - Important keywords: Extract 5-10 key terms, concepts, or phrases that are central to understanding this topic
5. All arrays must be present. Strive to populate examples and real_world_applications with meaningful content rather than leaving them empty.
6. Ensure the structure is logical and educational
7. Return ONLY valid JSON matching this exact structure, no additional text or markdown formatting
8. The `subject_name` key should be the actual subject name from the content (e.g., `Mathematics`, `Physics`, `Chemistry`, `Indian Polity`)".

Definition user_prompt_template : string :=
"Please analyze the following content and convert it to the required JSON format.

Filename: {filename}

Content:
{text_content}

Return the JSON structure as specified.".

(** Python truthiness of an [Optional[str]]. *)
Definition truthy (v : VERDICT) : bool :=
  match v with
  | None | Some EmptyString => false
  | Some _ => true
  end.

Section Converter.

Variable str_format : string -> string -> string -> exc string.

(** [json.loads]: the parsed value, or a [JSONDecodeError]. *)
Variable json_loads : string -> exc json.

(** The process environment. *)
Variable environ : gmap string string.

(** [self.client.chat.completions.create(...)] followed by
    [.choices[0].message.content]: the system prompt, the user prompt and
    [max_tokens] go in; the reply text comes back, or the call raises. *)
Variable chat_completion : string -> string -> Z -> exc string.

(** Lines 143-149. *)
Definition select_max_tokens (content_length : Z) : exc Z :=
  if 300000 <? content_length
  then int_of_str (getenv environ "MAX_OUTPUT_TOKENS" "16000")
  else if 100000 <? content_length
  then int_of_str (getenv environ "MAX_OUTPUT_TOKENS" "8000")
  else int_of_str (getenv environ "MAX_OUTPUT_TOKENS" "4000").

(** Lines 255-269: the inner [try]. *)
Definition parse_response (response_text : string) : logged json :=
  match json_loads response_text with
  | Ok json_output =>
      emit INFO "Successfully parsed JSON response" in
      let validation_error := validate_json_structure json_output in
      run _ := (if truthy validation_error
                then log_emit WARNING
                       ("JSON structure validation warning: " +:+
                        default "" validation_error)
                else log_ret tt) in
      log_ret json_output
  | Err e =>
      if bool_decide (exn_class e = "JSONDecodeError") then
        emit ERROR ("Failed to parse JSON response: " +:+ exn_str e) in
        emit ERROR ("Response text: " +:+ slice_to response_text 500) in
        log_lift (Err (Exn "ValueError"
                         ("Invalid JSON response from OpenAI: " +:+ exn_str e)))
      else log_lift (Err e)
  end.

(** Lines 139-269: the body of the outer [try]. *)
Definition convert_body (text_content filename : string) : logged json :=
  let content_length := len text_content in
  run max_tokens := log_lift (select_max_tokens content_length) in
  run truncated := log_lift (_truncate_to_token_limit str_format text_content
                               system_prompt user_prompt_template filename
                               MODEL_CONTEXT_LIMIT max_tokens) in
  run _ := (Ok tt, truncated.2) in
  let text_content := truncated.1 in
  run user_prompt := log_lift (str_format user_prompt_template filename
                                 text_content) in
  emit INFO ("Sending request to OpenAI API... (Content: " +:+
             str_of_Z (len text_content) +:+ " chars, Max output tokens: " +:+
             str_of_Z max_tokens +:+ ")") in
  run content := log_lift (chat_completion system_prompt user_prompt max_tokens) in
  let response_text := strip content in
  parse_response response_text.

(** The method: an exception of the body is logged and raised again. *)
Definition convert_to_json (text_content filename : string) : logged json :=
  let r := convert_body text_content filename in
  match r.1 with
  | Ok _ => r
  | Err e =>
      (Err e, r.2 ++ [LogRecord ERROR ("Error converting to JSON: " +:+ exn_str e)])
  end.

End Converter.

(** ** [file_parser.py] and [app.py]: the upload endpoint *)

(** [c.lower()] on the Latin-1 range. *)
Definition lower_char (c : ascii) : ascii :=
  let n := N_of_ascii c in
  if ((65 <=? n) && (n <=? 90)
      || (192 <=? n) && (n <=? 222) && negb (n =? 215))%N
  then ascii_of_N (n + 32) else c.

Fixpoint lower (s : string) : string :=
  match s with
  | EmptyString => EmptyString
  | String c s' => String (lower_char c) (lower s')
  end.

(** [p.rfind(c)], with [-1] for an absent character. *)
Fixpoint rfind_from (c : ascii) (s : string) (i : Z) (found : Z) : Z :=
  match s with
  | EmptyString => found
  | String d s' => rfind_from c s' (i + 1) (if bool_decide (d = c) then i else found)
  end.

Definition rfind (c : ascii) (s : string) : Z := rfind_from c s 0 (-1).

(** [p[start:stop]] for indices inside the string. *)
Definition slice (s : string) (start stop : Z) : string :=
  String.substring (Z.to_nat start) (Z.to_nat (stop - start)) s.

(** [posixpath.splitext]: the extension starts at the last dot of the last
    path component, unless that component has only leading dots before it. *)
Definition splitext (p : string) : string * string :=
  let sepIndex := rfind "/"%char p in
  let dotIndex := rfind "."%char p in
  if sepIndex <? dotIndex then
    let stem := slice p (sepIndex + 1) dotIndex in
    if forallb (fun c => bool_decide (c = "."%char))
         (String.list_ascii_of_string stem)
    then (p, EmptyString)
    else (slice_to p dotIndex, slice p dotIndex (len p))
  else (p, EmptyString).

(** An uploaded file: the name the client gave and the bytes it sent. *)
Record upload := Upload { upload_filename : string; upload_body : string }.

Section FileParser.

(** The three extraction back ends; each reads the temporary copy of the
    upload and yields its text or raises. *)
Variables _parse_pdf _parse_doc _parse_ppt : upload -> exc string.

Definition parse_file (file : upload) (file_extension : string) : exc string :=
  let file_extension := lower file_extension in
  if bool_decide (file_extension = ".pdf") then _parse_pdf file
  else if bool_decide (file_extension ∈ [".doc"; ".docx"]) then _parse_doc file
  else if bool_decide (file_extension ∈ [".ppt"; ".pptx"]) then _parse_ppt file
  else Err (Exn "ValueError"
              ("Unsupported file extension: " +:+ file_extension)).

End FileParser.

Inductive result_entry :=
| ResultSuccess (filename : string) (data : json)
| ResultError (filename : string) (error : string).

Definition status (r : result_entry) : string :=
  match r with
  | ResultSuccess _ _ => "success"
  | ResultError _ _ => "error"
  end.

Inductive response_body :=
| ErrorBody (error : string)
| DataBody (data : json)
| BatchBody (results : list result_entry) (total_files successful failed : Z).

Record response := Response { status_code : Z; body : response_body }.

(** What the loop over the files carries along. *)
Record batch_state := BatchState {
  results : list result_entry;
  temp_files : list string;
  log : list log_record
}.

Definition append_result (r : result_entry) (st : batch_state) : batch_state :=
  BatchState (results st ++ [r]) (temp_files st) (log st).

Definition append_log (l : list log_record) (st : batch_state) : batch_state :=
  BatchState (results st) (temp_files st) (log st ++ l).

Definition append_temp (p : string) (st : batch_state) : batch_state :=
  BatchState (results st) (temp_files st ++ [p]) (log st).

Definition allowed_extensions : list string :=
  [".pdf"; ".doc"; ".docx"; ".ppt"; ".pptx"].

Definition INSUFFICIENT_TEXT : string :=
  "Could not extract sufficient text from the file. Please ensure the file contains readable content.".

Section UploadEndpoint.

Variable str_format : string -> string -> string -> exc string.
Variable json_loads : string -> exc json.
Variable environ : gmap string string.

(** The reply of the completion service to the request made for the file
    at position [i] of the batch. *)
Variable chat_completion : nat -> string -> string -> Z -> exc string.

Variables _parse_pdf _parse_doc _parse_ppt : upload -> exc string.

(** Lines 94-96, for the file at position [i]:
    [tempfile.NamedTemporaryFile(delete=False, suffix=file_extension)]
    creates the temporary file and [file.save] writes the upload into
    it, or one of the two raises. *)
Variable save_upload : nat -> upload -> exc unit.

(** The path of the temporary file of position [i], once it is written. *)
Variable temp_name : nat -> string -> string.

(** The module constant read from the environment at start-up. *)
Variable MAX_FILES_PER_REQUEST : Z.

(** The [except Exception] of the inner [try], lines 126-132. *)
Definition on_exception (file : upload) (e : exn) (st : batch_state)
    : batch_state :=
  append_result
    (ResultError (upload_filename file)
       ("Error processing file: " +:+ exn_str e))
    (append_log
       [LogRecord ERROR ("Error processing " +:+ upload_filename file +:+
                         ": " +:+ exn_str e)] st).

(** Lines 99-132: the inner [try] with its handler, for the file at
    position [i], once its temporary copy is written. *)
Definition extract_and_convert (i : nat) (file : upload)
    (file_extension : string) (st : batch_state) : batch_state :=
  let st := append_log
    [LogRecord INFO ("Extracting text from " +:+ upload_filename file +:+
                     "...")] st in
  match parse_file _parse_pdf _parse_doc _parse_ppt file file_extension with
  | Err e => on_exception file e st
  | Ok extracted_text =>
      if bool_decide (extracted_text = EmptyString)
         || (len (strip extracted_text) <? 50)
      then append_result
             (ResultError (upload_filename file) INSUFFICIENT_TEXT) st
      else
        let st := append_log
          [LogRecord INFO ("Extracted " +:+ str_of_Z (len extracted_text) +:+
                           " characters from " +:+ upload_filename file);
           LogRecord INFO ("Converting " +:+ upload_filename file +:+
                           " to JSON format...")] st in
        let r := convert_to_json str_format json_loads environ
                   (chat_completion i) extracted_text
                   (upload_filename file) in
        let st := append_log r.2 st in
        match r.1 with
        | Err e => on_exception file e st
        | Ok json_output =>
            append_result
              (ResultSuccess (upload_filename file) json_output)
              (append_log
                 [LogRecord INFO ("Conversion completed successfully for "
                                  +:+ upload_filename file)] st)
        end
  end.

(** Lines 81-132: the body of the loop, for the file at position [i]:
    the state it leaves, and the exception that leaves the loop with it,
    if any. Lines 94-97 stand outside the inner [try], so what they raise
    is not caught here, and the path is not yet in [temp_files] then. *)
Definition process_file (i : nat) (file : upload) (st : batch_state)
    : batch_state * option exn :=
  let file_extension := lower (splitext (upload_filename file)).2 in
  if negb (bool_decide (file_extension ∈ allowed_extensions)) then
    (append_result
       (ResultError (upload_filename file)
          ("Unsupported file type. Allowed types: " +:+
           String.concat ", " allowed_extensions)) st, None)
  else
    let st := append_log
      [LogRecord INFO ("Processing file: " +:+ upload_filename file)] st in
    match save_upload i file with
    | Err e => (st, Some e)
    | Ok _ =>
        let st := append_temp (temp_name i file_extension) st in
        (extract_and_convert i file file_extension st, None)
    end.

(** [for file in files: ...], counting positions from [i]; an exception
    ends the loop. *)
Fixpoint process_files (i : nat) (files : list upload) (st : batch_state)
    : batch_state * option exn :=
  match files with
  | [] => (st, None)
  | file :: rest =>
      let r := process_file i file st in
      match r.2 with
      | None => process_files (S i) rest r.1
      | Some _ => r
      end
  end.

Definition count_successful (rs : list result_entry) : Z :=
  Z.of_nat (length (filter (fun r => status r = "success") rs)).

(** Lines 134-155: the response, once the loop has ended normally. *)
Definition prepare_response (files : list upload) (st : batch_state)
    : exc response :=
  let successful := count_successful (results st) in
  let failed := Z.of_nat (length (results st)) - successful in
  if bool_decide (length files = 1%nat) then
    match results st with
    | ResultSuccess _ data :: _ => Ok (Response 200 (DataBody data))
    | ResultError _ error :: _ => Ok (Response 400 (ErrorBody error))
    | [] => Err (Exn "IndexError" "list index out of range")
    end
  else
    Ok (Response 200
          (BatchBody (results st) (Z.of_nat (length files))
             successful failed)).

(** The endpoint. [request_files] is [None] when the form has no ['file']
    part. The result is the response, the log, and the temporary files
    that the [finally] block removes. An exception that leaves the loop
    or the preparation of the response reaches the outer handler, lines
    166-168, after the [finally] block. *)
Definition upload_file (request_files : option (list upload))
    : response * list log_record * list string :=
  match request_files with
  | None => (Response 400 (ErrorBody "No file provided"), [], [])
  | Some files =>
      let files :=
        filter (fun f => upload_filename f ≠ EmptyString) files in
      if bool_decide (files = []) then
        (Response 400 (ErrorBody "No file selected"), [], [])
      else if (0 <? MAX_FILES_PER_REQUEST)
              && (MAX_FILES_PER_REQUEST <? Z.of_nat (length files)) then
        (Response 400
           (ErrorBody ("Too many files. Maximum " +:+
                       str_of_Z MAX_FILES_PER_REQUEST +:+
                       " files allowed per request.")), [], [])
      else
        let r := process_files 0 files (BatchState [] [] []) in
        let st := r.1 in
        let outcome :=
          match r.2 with
          | Some e => Err e
          | None => prepare_response files st
          end in
        match outcome with
        | Ok resp => (resp, log st, temp_files st)
        | Err e =>
            (Response 500
               (ErrorBody ("Error processing files: " +:+ exn_str e)),
             log st ++
             [LogRecord ERROR ("Error processing files: " +:+ exn_str e)],
             temp_files st)
        end
  end.

End UploadEndpoint.

(** ** [file_parser.py]: the extraction back ends

    The libraries are seen through what the code reads from them: a PDF
    is the list of its pages, each of which yields its text or raises
    when [extract_text()] is called; a Word document is its paragraphs
    and its tables, a table being rows of cell texts; a presentation is
    the list of its slides, a slide being the list of its shapes, of which
    some have a [text] attribute. *)

(** [isinstance(e, ImportError)]: the class and the built-in classes that
    derive from it. *)
Definition is_ImportError (e : exn) : bool :=
  bool_decide (exn_class e ∈
                 ["ImportError"; "ModuleNotFoundError"; "ZipImportError"]).

(** The two [except] clauses that close each back end: an [ImportError]
    is replaced by one that names the package to install; any other
    exception is logged and raised again. *)
Definition except_clauses (hint kind : string) (r : logged string)
    : logged string :=
  match r.1 with
  | Ok _ => r
  | Err e =>
      if is_ImportError e then (Err (Exn "ImportError" hint), r.2)
      else (Err e,
            r.2 ++ [LogRecord ERROR
                      ("Error parsing " +:+ kind +:+ ": " +:+ exn_str e)])
  end.

(** [sep.join(parts)] *)
Definition str_join (sep : string) (parts : list string) : string :=
  String.concat sep parts.

Definition blank_line : string := newline +:+ newline.

Record docx := Docx {
  paragraphs : list string;
  tables : list (list (list string))
}.

Section Backends.

(** The three [import] statements. *)
Variables import_PyPDF2 import_docx import_pptx : exc unit.

(** [open(file_path, 'rb')] with [PyPDF2.PdfReader(file).pages]. *)
Variable PdfReader : upload -> exc (list (exc string)).

(** [docx.Document(file_path)] *)
Variable Document : upload -> exc docx.

(** [pptx.Presentation(file_path).slides] *)
Variable Presentation : upload -> exc (list (list (option string))).

(** Lines 45-49: the loop over the pages. *)
Fixpoint pdf_pages (pages : list (exc string)) (text_content : list string)
    : exc (list string) :=
  match pages with
  | [] => Ok text_content
  | page :: rest =>
      text ← page;
      pdf_pages rest
        (if bool_decide (text = EmptyString) then text_content
         else text_content ++ [text])
  end.

Definition _parse_pdf (file : upload) : logged string :=
  except_clauses
    "PyPDF2 is required for PDF parsing. Install it with: pip install PyPDF2"
    "PDF"
    (run _ := log_lift import_PyPDF2 in
     run pages := log_lift (PdfReader file) in
     emit INFO ("Processing PDF with " +:+ str_of_nat (length pages) +:+
                " pages") in
     run text_content := log_lift (pdf_pages pages []) in
     log_ret (str_join blank_line text_content)).

(** Lines 67-69: the loop over the paragraphs. *)
Definition doc_paragraphs (ps : list string) (text_content : list string)
    : list string :=
  foldl (fun text_content text =>
           if bool_decide (strip text = EmptyString) then text_content
           else text_content ++ [text]) text_content ps.

(** Lines 74-77: the cells of one row. *)
Definition doc_row (cells : list string) : list string :=
  foldl (fun row_text text =>
           if bool_decide (strip text = EmptyString) then row_text
           else row_text ++ [strip text]) [] cells.

(** Lines 72-79: the loops over the tables and their rows. *)
Definition doc_tables (ts : list (list (list string)))
    (text_content : list string) : list string :=
  foldl (fun text_content rows =>
           foldl (fun text_content cells =>
                    let row_text := doc_row cells in
                    if bool_decide (row_text = []) then text_content
                    else text_content ++ [str_join " | " row_text])
                 text_content rows) text_content ts.

Definition _parse_doc (file : upload) : logged string :=
  except_clauses
    "python-docx is required for DOC/DOCX parsing. Install it with: pip install python-docx"
    "DOC/DOCX"
    (run _ := log_lift import_docx in
     run doc := log_lift (Document file) in
     let text_content := doc_paragraphs (paragraphs doc) [] in
     let text_content := doc_tables (tables doc) text_content in
     log_ret (str_join blank_line text_content)).

Definition slide_header (slide_num : nat) : string :=
  "--- Slide " +:+ str_of_nat slide_num +:+ " ---".

(** Lines 103-105: the loop over the shapes of a slide. *)
Definition ppt_shapes (shapes : list (option string))
    (slide_text : list string) : list string :=
  foldl (fun slide_text shape =>
           match shape with
           | Some text =>
               if bool_decide (strip text = EmptyString) then slide_text
               else slide_text ++ [strip text]
           | None => slide_text
           end) slide_text shapes.

(** Lines 99-108: [for slide_num, slide in enumerate(prs.slides, 1)]. *)
Fixpoint ppt_slides (slide_num : nat) (slides : list (list (option string)))
    (text_content : list string) : list string :=
  match slides with
  | [] => text_content
  | slide :: rest =>
      let slide_text := ppt_shapes slide [slide_header slide_num] in
      ppt_slides (S slide_num) rest
        (if (1 <? length slide_text)%nat
         then text_content ++ [str_join newline slide_text]
         else text_content)
  end.

Definition _parse_ppt (file : upload) : logged string :=
  except_clauses
    "python-pptx is required for PPT/PPTX parsing. Install it with: pip install python-pptx"
    "PPT/PPTX"
    (run _ := log_lift import_pptx in
     run slides := log_lift (Presentation file) in
     emit INFO ("Processing PowerPoint with " +:+
                str_of_nat (length slides) +:+ " slides") in
     log_ret (str_join blank_line (ppt_slides 1 slides []))).

(** [FileParser.parse_file] over these back ends, as the endpoint calls
    it: the text or the exception. *)
Definition extract (file : upload) (file_extension : string) : exc string :=
  parse_file (fun f => (_parse_pdf f).1) (fun f => (_parse_doc f).1)
    (fun f => (_parse_ppt f).1) file file_extension.

End Backends.

(** ** [app.py]: the settings read when the module is loaded *)

Record settings := Settings {
  MAX_FILE_SIZE_MB : Z;
  MAX_CONTENT_LENGTH : Z;
  MAX_FILES_PER_REQUEST : Z;
  openai_api_key : string
}.

(** Lines 25-34, on the environment that [load_dotenv()] leaves. *)
Definition load_settings (environ : gmap string string) : exc settings :=
  size ← int_of_str (getenv environ "MAX_FILE_SIZE_MB" "200");
  files ← int_of_str (getenv environ "MAX_FILES_PER_REQUEST" "0");
  match environ !! "OPENAI_API_KEY" with
  | Some (String c key) =>
      Ok (Settings size (size * 1024 * 1024) files (String c key))
  | _ =>
      Err (Exn "ValueError"
             "OPENAI_API_KEY not found in environment variables")
  end.

(** ** A rendering of [str.format] for plain named fields

    Templates whose replacement fields are [{filename}] and
    [{text_content}], with doubled braces standing for themselves. Any
    other field name is reported the way an unknown keyword is. The
    properties below hold for every rendering function; this one serves to
    run the converter on concrete inputs. *)

Inductive format_mode :=
| InText
| AfterOpen
| InField (name : string)
| AfterClose.

Fixpoint format_go (mode : format_mode) (s filename text_content : string)
    : exc string :=
  match s with
  | EmptyString =>
      match mode with
      | InText => Ok EmptyString
      | AfterOpen =>
          Err (Exn "ValueError" "Single '{' encountered in format string")
      | InField _ =>
          Err (Exn "ValueError" "expected '}' before end of string")
      | AfterClose =>
          Err (Exn "ValueError" "Single '}' encountered in format string")
      end
  | String c s' =>
      match mode with
      | InText =>
          if bool_decide (c = "{"%char)
          then format_go AfterOpen s' filename text_content
          else if bool_decide (c = "}"%char)
          then format_go AfterClose s' filename text_content
          else String c <$> format_go InText s' filename text_content
      | AfterOpen =>
          if bool_decide (c = "{"%char)
          then String c <$> format_go InText s' filename text_content
          else if bool_decide (c = "}"%char)
          then Err (Exn "IndexError"
                      "Replacement index 0 out of range for positional args tuple")
          else format_go (InField (String c EmptyString)) s' filename text_content
      | InField name =>
          if bool_decide (c = "}"%char) then
            if bool_decide (name = "filename")
            then String.append filename
                   <$> format_go InText s' filename text_content
            else if bool_decide (name = "text_content")
            then String.append text_content
                   <$> format_go InText s' filename text_content
            else Err (Exn "KeyError" ("'" +:+ name +:+ "'"))
          else format_go (InField (name +:+ String c EmptyString)) s'
                 filename text_content
      | AfterClose =>
          if bool_decide (c = "}"%char)
          then String c <$> format_go InText s' filename text_content
          else Err (Exn "ValueError" "Single '}' encountered in format string")
      end
  end.

Definition format_named (template filename text_content : string) : exc string :=
  format_go InText template filename text_content.

(** ** The schema, as the specification words it

    These predicates follow section 4.2 of the specification, not the
    code; the validator is compared with them below. *)

Module Schema.

Definition has_key (key : string) (o : gmap string json) : Prop :=
  is_Some (o !! key).

Definition holds_array (key : string) (o : gmap string json) : Prop :=
  exists items, o !! key = Some (JArray items).

(** [x], at index [k], is the first item of [l] that fails [P]. *)
Definition first_failing {A} (P : A -> Prop) (l : list A) (k : nat) (x : A)
    : Prop :=
  l !! k = Some x /\ ~ P x
  /\ forall k' y, l !! k' = Some y -> (k' < k)%nat -> P y.

Definition subject_fields : list string :=
  ["title"; "description"; "chapters"].

Definition topic_fields : list string :=
  ["topic_id"; "title"; "content"; "examples"; "real_world_applications";
   "keywords"].

Definition topic_array_fields : list string :=
  ["examples"; "real_world_applications"; "keywords"].

Definition conformant_topic (t : json) : Prop :=
  exists o, t = JObject o
    /\ Forall (fun f => has_key f o) topic_fields
    /\ Forall (fun f => holds_array f o) topic_array_fields.

Definition conformant_chapter (c : json) : Prop :=
  exists o topics, c = JObject o
    /\ has_key "title" o
    /\ o !! "topics" = Some (JArray topics)
    /\ Forall conformant_topic topics.

Definition conformant (d : json) : Prop :=
  exists root subject chapters, d = JObject root
    /\ root !! "subject_name" = Some (JObject subject)
    /\ Forall (fun f => has_key f subject) subject_fields
    /\ subject !! "chapters" = Some (JArray chapters)
    /\ Forall conformant_chapter chapters.

(** The first violation inside topic [j] of chapter [i], with its
    report. *)
Inductive topic_violation (i j : nat) : json -> string -> Prop :=
| TopicNotObject t :
    isinstance_dict t = false ->
    topic_violation i j t (topic_label i j +:+ " must be an object")
| TopicMissingField o k f :
    first_failing (fun f => has_key f o) topic_fields k f ->
    topic_violation i j (JObject o)
      (topic_label i j +:+ " missing '" +:+ f +:+ "'")
| TopicFieldNotArray o k f :
    Forall (fun f => has_key f o) topic_fields ->
    first_failing (fun f => holds_array f o) topic_array_fields k f ->
    topic_violation i j (JObject o)
      (topic_label i j +:+ " '" +:+ f +:+ "' must be an array").

(** The first violation inside chapter [i]. *)
Inductive chapter_violation (i : nat) : json -> string -> Prop :=
| ChapterNotObject c :
    isinstance_dict c = false ->
    chapter_violation i c (chapter_label i +:+ " must be an object")
| ChapterMissingTitle o :
    ~ has_key "title" o ->
    chapter_violation i (JObject o) (chapter_label i +:+ " missing 'title'")
| ChapterMissingTopics o :
    has_key "title" o -> ~ has_key "topics" o ->
    chapter_violation i (JObject o) (chapter_label i +:+ " missing 'topics'")
| ChapterTopicsNotArray o v :
    has_key "title" o -> o !! "topics" = Some v ->
    isinstance_list v = false ->
    chapter_violation i (JObject o)
      (chapter_label i +:+ " 'topics' must be an array")
| ChapterBadTopic o topics j t report :
    has_key "title" o -> o !! "topics" = Some (JArray topics) ->
    first_failing conformant_topic topics j t ->
    topic_violation i j t report ->
    chapter_violation i (JObject o) report.

(** The first violation of a document, in depth-first order. *)
Inductive violation : json -> string -> Prop :=
| RootMissingSubject d :
    (forall root, d = JObject root -> ~ has_key "subject_name" root) ->
    violation d "Missing 'subject_name' at root level"
| SubjectNotObject root s :
    root !! "subject_name" = Some s ->
    isinstance_dict s = false ->
    violation (JObject root) "'subject_name' must be an object"
| SubjectMissingField root subject k f :
    root !! "subject_name" = Some (JObject subject) ->
    first_failing (fun f => has_key f subject) subject_fields k f ->
    violation (JObject root)
      ("Missing required field '" +:+ f +:+ "' in subject_name")
| ChaptersNotArray root subject v :
    root !! "subject_name" = Some (JObject subject) ->
    Forall (fun f => has_key f subject) subject_fields ->
    subject !! "chapters" = Some v ->
    isinstance_list v = false ->
    violation (JObject root) "'chapters' must be an array"
| BadChapter root subject chapters i c report :
    root !! "subject_name" = Some (JObject subject) ->
    Forall (fun f => has_key f subject) subject_fields ->
    subject !! "chapters" = Some (JArray chapters) ->
    first_failing conformant_chapter chapters i c ->
    chapter_violation i c report ->
    violation (JObject root) report.

End Schema.

(** ** Notions used in the statements and proofs below *)

(** *** Rounding, on integers *)

(** [x / 2 ^ k] rounded to the nearest integer, ties to even. *)
Definition rne (x k : Z) : Z :=
  let q := x / 2 ^ k in
  let rest := x mod 2 ^ k in
  if 2 * rest <? 2 ^ k then q
  else if 2 * rest =? 2 ^ k then (if Z.even q then q else q + 1)
  else q + 1.

(** The rounded value in units of the input exponent: nothing is lost
    when no bits are shifted out. *)
Definition round_to (x k : Z) : Z :=
  if k <=? 0 then x else rne x k * 2 ^ k.

(** The integer part of [m * 2 ^ e]. *)
Definition ifloor (m e : Z) : Z :=
  if 0 <=? e then m * 2 ^ e else m / 2 ^ (- e).

(** What [k] right shifts of [x] leave behind: the quotient, and in the
    round and sticky bits the position of the remainder against the
    half. Twice [x] is used so that [k = 0] needs no special case. *)
Definition shr_inv (x k : Z) (mrs : shr_record) : Prop :=
  0 <= shr_m mrs
  /\ exists u, 0 <= u < 2 ^ k
       /\ (shr_s mrs = true <-> u <> 0)
       /\ 2 * x = shr_m mrs * 2 ^ (k + 1)
                  + (if shr_r mrs then 2 ^ k else 0) + u.

(** The number of bits that rounding [p * 2 ^ a] shifts out. *)
Definition shift_of (p : positive) (a : Z) : Z :=
  fexp Float64.prec Float64.emax (Zpos (digits2_pos p) + a) - a.

(** The same, from the number of bits [d] of the mantissa. *)
Definition shift_at (d a : Z) : Z := Z.max (d + a - 53) (-1074) - a.

(** The literal [0.1], i.e. 0x3FB999999999999A. *)
Definition lit_0_1 : spec_float := S754_finite false 7205759403792794 (-56).

(** *** The loops of the validator over field names *)

(** The body of a loop that reports the first absent field of the object
    [o]. *)
Definition presence_body (o : gmap string json) (report : string -> VERDICT)
    (field : string) : flow VERDICT :=
  let! present := contains field (JObject o) in
  if negb present then Return (report field) else Next.

(** The body of a loop that reports the first field of [o] that holds no
    list. *)
Definition array_body (o : gmap string json) (report : string -> VERDICT)
    (array_field : string) : flow VERDICT :=
  let! value := getitem (JObject o) array_field in
  if negb (isinstance_list value) then Return (report array_field) else Next.

Definition topic_missing_report (i j : nat) (field : string) : VERDICT :=
  Some (topic_label i j +:+ " missing '" +:+ field +:+ "'").

Definition topic_array_report (i j : nat) (field : string) : VERDICT :=
  Some (topic_label i j +:+ " '" +:+ field +:+ "' must be an array").

(** *** Results of the upload loop *)

Definition entry_filename (r : result_entry) : string :=
  match r with
  | ResultSuccess filename _ => filename
  | ResultError filename _ => filename
  end.

(** The state the loop starts from. *)
Definition fresh : batch_state := BatchState [] [] [].

(** *** Sample documents, collaborators and uploads *)

Definition minimal_topic : json :=
  JObject (list_to_map
    [("topic_id", JString "topic_1"); ("title", JString "");
     ("content", JString ""); ("examples", JArray []);
     ("real_world_applications", JArray []); ("keywords", JArray [])]).

Definition minimal_document : json :=
  JObject {[ "subject_name" :=
    JObject (list_to_map
      [("title", JString ""); ("description", JString "");
       ("chapters",
        JArray [JObject (list_to_map
                  [("title", JString "");
                   ("topics", JArray [minimal_topic])])])]) ]}.

(** A parser that knows one document. *)
Definition canned_loads (s : string) : exc json :=
  if bool_decide (s = "{}") then Ok (JObject ∅)
  else Err (Exn "JSONDecodeError" "Expecting value: line 1 column 1 (char 0)").

(** A completion service with one reply. *)
Definition canned_reply (system user : string) (max_tokens : Z) : exc string :=
  Ok " {} ".

Definition canned_pdf (file : upload) : exc string := Ok (upload_body file).

Definition canned_doc (file : upload) : exc string :=
  Err (Exn "PackageNotFoundError" "Package not found").

Definition canned_temp (i : nat) (suffix : string) : string :=
  "/tmp/tmp" +:+ str_of_nat i +:+ suffix.

Definition three_files : list upload :=
  [Upload "mechanics.pdf"
     "Newton's first law: a body stays at rest or in uniform motion unless acted on.";
   Upload "scan.pdf" EmptyString;
   Upload "notes.docx" "binary"].

(** Every temporary copy is written. *)
Definition saved (i : nat) (file : upload) : exc unit := Ok tt.

(** The disk fills up when the third upload is written. *)
Definition disk_full (i : nat) (file : upload) : exc unit :=
  if bool_decide (i = 2%nat)
  then Err (Exn "OSError" "[Errno 28] No space left on device")
  else Ok tt.

(** A completion service that answers in prose. *)
Definition canned_prose (system user : string) (max_tokens : Z) : exc string :=
  Ok "Here is the JSON you asked for.".

(** Four hundred characters of text. *)
Definition long_text : string :=
  String.concat EmptyString (replicate 40 "0123456789").

(** *** What the back ends find in a document *)

(** The text of a shape that counts: present, not blank, stripped. *)
Definition shape_text (shape : option string) : option string :=
  text ← shape;
  if bool_decide (strip text = EmptyString) then None else Some (strip text).

(** The block of a slide: its header and its texts, if it has any. *)
Definition slide_block (slide_num : nat) (shapes : list (option string))
    : option string :=
  let texts := omap shape_text shapes in
  if bool_decide (texts = []) then None
  else Some (str_join newline (slide_header slide_num :: texts)).

(** The line of a table row: its non-blank cells, stripped. *)
Definition row_line (cells : list string) : option string :=
  let row_text :=
    filter (fun text => text <> EmptyString) (strip <$> cells) in
  if bool_decide (row_text = []) then None
  else Some (str_join " | " row_text).

(** A scanned document: two pages without a text layer. *)
Definition scanned_reader (file : upload) : exc (list (exc string)) :=
  Ok [Ok EmptyString; Ok EmptyString].

(** A document whose second page cannot be decoded. *)
Definition damaged_reader (file : upload) : exc (list (exc string)) :=
  Ok [Ok "Chapter 1"; Err (Exn "PdfReadError" "Invalid Elementary Object");
      Ok "Chapter 3"].

(** A deck of three slides: a title, a picture, and a slide whose only
    text box is blank. *)
Definition sample_deck (file : upload) : exc (list (list (option string))) :=
  Ok [[Some " Forces "; None]; [None]; [Some "  "]].

(** A Word document with a heading, a blank paragraph and one table. *)
Definition sample_document (file : upload) : exc docx :=
  Ok (Docx ["Units"; "  "] [[["metre"; " m "]; [""; " "]]]).

(** *** Characters of a file name *)

(** The character [c] occurs in [s]. *)
Definition has_char (c : ascii) (s : string) : Prop :=
  c ∈ String.list_ascii_of_string s.

(** * Properties *)

(** ** Strings *)

Lemma length_append (a b : string) :
  String.length (a +:+ b) = (String.length a + String.length b)%nat.
Proof. induction a as [|c a IH]; simpl; [done | by rewrite IH]. Qed.

Lemma len_append (a b : string) : len (a +:+ b) = len a + len b.
Proof. unfold len. rewrite length_append. lia. Qed.

Lemma len_nonneg (s : string) : 0 <= len s.
Proof. unfold len. lia. Qed.

Lemma length_prefix (n : nat) (s : string) :
  String.length (String.substring 0 n s) = Nat.min n (String.length s).
Proof.
  revert n. induction s as [|c s IH]; intros [|n]; simpl; try done.
  by rewrite IH.
Qed.

Lemma prefix_all (n : nat) (s : string) :
  (String.length s <= n)%nat -> String.substring 0 n s = s.
Proof.
  revert n. induction s as [|c s IH]; intros [|n] Hn; simpl in *; try done.
  - lia.
  - f_equal. apply IH. lia.
Qed.

(** A non-negative [stop] inside the string cuts exactly [stop] characters. *)
Lemma len_slice_to (s : string) (stop : Z) :
  0 <= stop <= len s -> len (slice_to s stop) = stop.
Proof.
  intros H. unfold slice_to.
  destruct (Z.ltb_spec stop 0) as [?|_]; [lia|].
  unfold len in *. rewrite length_prefix. lia.
Qed.

Lemma slice_to_nonneg (s : string) (stop : Z) :
  0 <= stop <= len s ->
  slice_to s stop = String.substring 0 (Z.to_nat stop) s.
Proof.
  intros H. unfold slice_to.
  destruct (Z.ltb_spec stop 0) as [?|_]; [lia|].
  by rewrite Z.min_l by lia.
Qed.

(** A negative [stop] drops characters from the end instead. *)
Lemma len_slice_to_negative (s : string) (stop : Z) :
  stop < 0 -> - stop <= len s -> len (slice_to s stop) = len s + stop.
Proof.
  intros H1 H2. unfold slice_to.
  destruct (Z.ltb_spec stop 0) as [_|?]; [|lia].
  unfold len in *. rewrite length_prefix. lia.
Qed.

(** ** C6: the token estimate *)

Lemma estimate_tokens_bounds (s : string) :
  4 * _estimate_tokens s <= len s < 4 * _estimate_tokens s + 4.
Proof.
  unfold _estimate_tokens.
  pose proof (Z.div_mod (len s) 4 ltac:(lia)).
  pose proof (Z.mod_pos_bound (len s) 4 ltac:(lia)). lia.
Qed.

(** C6. For every string [s] the estimate is the character count divided by
    four, rounded down: it equals the natural-number quotient of the length
    by 4, it is the unique [t] with [4 t <= len s < 4 t + 4], and it is 0 on
    the empty string. *)
Theorem estimate_tokens_floor (s : string) :
  _estimate_tokens s = Z.of_nat (String.length s / 4)
  /\ (forall t : Z, 4 * t <= len s < 4 * t + 4 <-> t = _estimate_tokens s)
  /\ _estimate_tokens EmptyString = 0.
Proof.
  split; [|split].
  - unfold _estimate_tokens, len. by rewrite Nat2Z.inj_div.
  - intros t. pose proof (estimate_tokens_bounds s). split; [lia|].
    intros ->. lia.
  - reflexivity.
Qed.

(** ** C1, C2: truncation *)

Section Truncation.

Variable str_format : string -> string -> string -> exc string.

Lemma truncate_to_fit_fits (text : string) (available : Z) :
  _estimate_tokens text <= available ->
  truncate_to_fit text available = (text, []).
Proof.
  intros H. unfold truncate_to_fit.
  by destruct (Z.leb_spec (_estimate_tokens text) available); [|lia].
Qed.

Lemma truncate_to_fit_cuts (text : string) (available : Z) :
  available < _estimate_tokens text ->
  truncate_to_fit text available =
    (slice_to text (available * 4) +:+ TRUNCATION_NOTICE,
     [truncation_warning text (_estimate_tokens text) available
        (slice_to text (available * 4))]).
Proof.
  intros H. unfold truncate_to_fit.
  by destruct (Z.leb_spec (_estimate_tokens text) available); [lia|].
Qed.

Lemma truncate_to_token_limit_unfold
    (text system_prompt template filename : string) (ctx out available : Z) :
  available_tokens str_format system_prompt template filename ctx out
    = Ok available ->
  _truncate_to_token_limit str_format text system_prompt template filename
    ctx out = Ok (truncate_to_fit text available).
Proof. intros H. unfold _truncate_to_token_limit. by rewrite H. Qed.

(** With a negative budget the slice bound is negative, so the cut is
    taken from the end: all but the last [-4 * available] characters of
    the text are kept. *)
Lemma negative_budget_keeps_prefix (text : string) (available : Z) :
  available < 0 ->
  - (4 * available) < len text ->
  (truncate_to_fit text available).1 =
    String.substring 0 (Z.to_nat (len text + 4 * available)) text
      +:+ TRUNCATION_NOTICE
  /\ 0 < len (String.substring 0 (Z.to_nat (len text + 4 * available)) text).
Proof.
  intros Hneg Hlen.
  pose proof (estimate_tokens_bounds text).
  rewrite truncate_to_fit_cuts by lia. simpl. split.
  - unfold slice_to. destruct (Z.ltb_spec (available * 4) 0); [|lia].
    do 3 f_equal. lia.
  - unfold len in *. rewrite length_prefix. lia.
Qed.

(** A budget of exactly zero leaves the notice alone. *)
Lemma zero_budget_gives_notice (text : string) :
  0 < _estimate_tokens text ->
  (truncate_to_fit text 0).1 = TRUNCATION_NOTICE.
Proof.
  intros H. rewrite truncate_to_fit_cuts by lia. simpl.
  unfold slice_to. simpl. by destruct text.
Qed.

End Truncation.

(** C1. Whenever the budget computation of [_truncate_to_token_limit]
    yields [available >= 0]: a text whose estimate is at most [available]
    is returned unchanged and nothing is logged (not truncated); any other
    text is cut to its first [available * 4] characters, which are exactly
    that many, followed by the fixed notice, so the result has
    [available * 4 + len notice] characters, and the warning is logged
    (truncated). *)
Theorem truncate_to_fit_postcondition
    (str_format : string -> string -> string -> exc string)
    (text system_prompt template filename : string)
    (ctx out available : Z) :
  available_tokens str_format system_prompt template filename ctx out
    = Ok available ->
  0 <= available ->
  exists r,
    _truncate_to_token_limit str_format text system_prompt template filename
      ctx out = Ok r
    /\ (_estimate_tokens text <= available ->
        r.1 = text /\ was_truncated r = false)
    /\ (available < _estimate_tokens text ->
        r.1 = String.substring 0 (Z.to_nat (available * 4)) text
                +:+ TRUNCATION_NOTICE
        /\ len (String.substring 0 (Z.to_nat (available * 4)) text)
           = available * 4
        /\ len r.1 = available * 4 + len TRUNCATION_NOTICE
        /\ was_truncated r = true).
Proof.
  intros Hav Hnn. eexists. split.
  { by apply truncate_to_token_limit_unfold. }
  pose proof (estimate_tokens_bounds text) as Hb.
  split; intros H.
  - by rewrite truncate_to_fit_fits.
  - rewrite truncate_to_fit_cuts by done. simpl.
    assert (Hin : 0 <= available * 4 <= len text) by lia.
    rewrite <- slice_to_nonneg by done.
    rewrite len_append, len_slice_to by done. done.
Qed.

Lemma truncate_to_fit_postcondition_witness :
  exists r,
    _truncate_to_token_limit format_named "abcdefghij" "" "{filename}" "f.pdf"
      20 17 = Ok r
    /\ (_estimate_tokens "abcdefghij" <= 1 ->
        r.1 = "abcdefghij" /\ was_truncated r = false)
    /\ (1 < _estimate_tokens "abcdefghij" ->
        r.1 = String.substring 0 (Z.to_nat (1 * 4)) "abcdefghij"
                +:+ TRUNCATION_NOTICE
        /\ len (String.substring 0 (Z.to_nat (1 * 4)) "abcdefghij") = 1 * 4
        /\ len r.1 = 1 * 4 + len TRUNCATION_NOTICE
        /\ was_truncated r = true).
Proof.
  apply (truncate_to_fit_postcondition format_named "abcdefghij" ""
           "{filename}" "f.pdf" 20 17 1).
  - vm_compute. reflexivity.
  - lia.
Defined.

(** C2, where the code departs from the claim. With no prompt overhead, a
    context limit of 0 and one reserved output token the budget is -1; the
    eight-character text does not fit, and the text that is returned still
    starts with four of its characters. *)
Theorem truncate_negative_budget_keeps_text :
  available_tokens format_named "" "" "" 0 1 = Ok (-1)
  /\ _truncate_to_token_limit format_named "abcdefgh" "" "" "" 0 1
     = Ok ("abcd" +:+ TRUNCATION_NOTICE,
           [LogRecord WARNING
              "Text too long (2 estimated tokens, limit: -1 tokens). Truncating from 8 to 4 characters."]).
Proof. split; vm_compute; reflexivity. Qed.

(** ** C5: the output reservation *)

Lemma select_max_tokens_cases (environ : gmap string string)
    (content_length : Z) :
  select_max_tokens environ content_length =
    match environ !! "MAX_OUTPUT_TOKENS" with
    | Some setting => int_of_str setting
    | None =>
        Ok (if 300000 <? content_length then 16000
            else if 100000 <? content_length then 8000
            else 4000)
    end.
Proof.
  unfold select_max_tokens, getenv.
  destruct (environ !! "MAX_OUTPUT_TOKENS") as [setting|]; simpl.
  - by destruct (300000 <? content_length), (100000 <? content_length).
  - destruct (300000 <? content_length); [by vm_compute|].
    destruct (100000 <? content_length); by vm_compute.
Qed.

(** C5, as the code has it. The reservation is the integer value of the
    single setting [MAX_OUTPUT_TOKENS] whenever that is present, whatever
    the size of the text; only when it is absent do the tiers apply: 16000
    above 300000 characters, 8000 above 100000, 4000 otherwise. The two
    thresholds are literals of the code, so no setting moves them. *)
Theorem select_max_tokens_spec (environ : gmap string string)
    (content_length : Z) :
  select_max_tokens environ content_length =
    match environ !! "MAX_OUTPUT_TOKENS" with
    | Some setting => int_of_str setting
    | None =>
        Ok (if 300000 <? content_length then 16000
            else if 100000 <? content_length then 8000
            else 4000)
    end.
Proof. apply select_max_tokens_cases. Qed.

(** No environment overrides the large reservation alone: one that makes
    the reservation 32000 for a text of 300001 characters cannot leave the
    default 4000 in place for an empty text. *)
Lemma reservations_not_independent :
  ~ exists environ : gmap string string,
      select_max_tokens environ 300001 = Ok 32000
      /\ select_max_tokens environ 0 = Ok 4000.
Proof.
  intros (environ & Hlarge & Hsmall).
  rewrite select_max_tokens_cases in Hlarge, Hsmall.
  destruct (environ !! "MAX_OUTPUT_TOKENS") as [setting|]; simpl in *.
  - rewrite Hlarge in Hsmall. discriminate.
  - discriminate.
Qed.

(** The thresholds stay where they are: whatever the environment, a text
    of exactly 300000 characters is treated like one of 100001, and one of
    exactly 100000 like an empty one. *)
Lemma thresholds_fixed (environ : gmap string string) :
  select_max_tokens environ 300000 = select_max_tokens environ 100001
  /\ select_max_tokens environ 100000 = select_max_tokens environ 0.
Proof. rewrite !select_max_tokens_cases. by destruct (environ !! _). Qed.

(** ** Loops with early exit *)

Lemma for_enumerate_Next {A R} (body : nat -> A -> flow R) (i : nat)
    (xs : list A) :
  for_enumerate body i xs = Next <->
  forall k x, xs !! k = Some x -> body (i + k)%nat x = Next.
Proof.
  revert i. induction xs as [|x xs IH]; intros i; simpl.
  - split; [intros _ k x Hk; by rewrite lookup_nil in Hk | done].
  - split.
    + intros H k y Hk. destruct (body i x) eqn:Hb; simpl in H; try done.
      destruct k as [|k]; simpl in Hk.
      * injection Hk as <-. by rewrite Nat.add_0_r.
      * replace (i + S k)%nat with (S i + k)%nat by lia.
        by apply (proj1 (IH (S i)) H).
    + intros H.
      pose proof (H 0%nat x eq_refl) as H0. rewrite Nat.add_0_r in H0.
      rewrite H0. simpl. apply IH. intros k y Hk.
      replace (S i + k)%nat with (i + S k)%nat by lia. by apply H.
Qed.

(** The loop leaves with the outcome of the first item whose body does not
    fall through. *)
Lemma for_enumerate_first {A R} (body : nat -> A -> flow R) (i : nat)
    (xs : list A) (c : flow R) :
  c <> Next ->
  for_enumerate body i xs = c <->
  exists k x, xs !! k = Some x
    /\ body (i + k)%nat x = c
    /\ forall k' y, xs !! k' = Some y -> (k' < k)%nat ->
         body (i + k')%nat y = Next.
Proof.
  intros Hc. revert i. induction xs as [|x xs IH]; intros i; simpl.
  - split; [by intros <- | by intros (k & x & Hk & _); rewrite lookup_nil in Hk].
  - split.
    + intros H. destruct (body i x) eqn:Hb; simpl in H.
      * apply IH in H as (k & y & Hk & Hy & Hlt).
        exists (S k), y. split; [done|]. split.
        { by replace (i + S k)%nat with (S i + k)%nat by lia. }
        intros [|k'] z Hz Hk'; simpl in Hz.
        -- injection Hz as <-. by rewrite Nat.add_0_r.
        -- replace (i + S k')%nat with (S i + k')%nat by lia.
           apply (Hlt k' z Hz). lia.
      * exists 0%nat, x. rewrite Nat.add_0_r. split; [done|]. split; [by subst|].
        intros; lia.
      * exists 0%nat, x. rewrite Nat.add_0_r. split; [done|]. split; [by subst|].
        intros; lia.
    + intros ([|k] & y & Hk & Hy & Hlt); simpl in Hk.
      * injection Hk as <-. rewrite Nat.add_0_r in Hy. rewrite Hy.
        by destruct c.
      * pose proof (Hlt 0%nat x eq_refl ltac:(lia)) as H0.
        rewrite Nat.add_0_r in H0. rewrite H0. simpl. apply IH.
        exists k, y. split; [done|]. split.
        { by replace (S i + k)%nat with (i + S k)%nat by lia. }
        intros k' z Hz Hk'.
        replace (S i + k')%nat with (i + S k')%nat by lia.
        apply (Hlt (S k') z Hz). lia.
Qed.

(** ** C4, C10: the validator against the schema *)

Import Schema.

Lemma Forall_lookup_iff {A} (P : A -> Prop) (l : list A) :
  Forall P l <-> forall k x, l !! k = Some x -> P x.
Proof. apply Forall_lookup. Qed.

(** Either every item passes, or there is a first one that does not. *)
Lemma all_or_first_failing {A} (P : A -> Prop) (l : list A) :
  (forall x, P x \/ ~ P x) ->
  Forall P l \/ exists k x, first_failing P l k x.
Proof.
  intros Hdec. induction l as [|x l IH]; [by left|].
  destruct (Hdec x) as [Hx|Hx].
  - destruct IH as [IH|(k & y & Hk & Hy & Hlt)].
    + left. by constructor.
    + right. exists (S k), y. split; [done|]. split; [done|].
      intros [|k'] z Hz Hk'; simpl in Hz.
      * by injection Hz as <-.
      * apply (Hlt k' z Hz). lia.
  - right. exists 0%nat, x. split; [done|]. split; [done|]. intros; lia.
Qed.

Lemma first_failing_not_all {A} (P : A -> Prop) (l : list A) k x :
  first_failing P l k x -> ~ Forall P l.
Proof.
  intros (Hk & Hx & _) Hall. apply Hx.
  by apply (proj1 (Forall_lookup P l) Hall k x).
Qed.

Lemma has_key_dec (key : string) (o : gmap string json) :
  has_key key o \/ ~ has_key key o.
Proof.
  unfold has_key. destruct (o !! key); [left; eauto | right; by intros [? ?]].
Qed.

Lemma holds_array_dec (key : string) (o : gmap string json) :
  holds_array key o \/ ~ holds_array key o.
Proof.
  unfold holds_array. destruct (o !! key) as [[]|];
    (left; by eauto) || (right; by intros [? ?]).
Qed.

Section FieldLoops.

Variable o : gmap string json.
Variable report : string -> VERDICT.

Lemma presence_body_cases (field : string) :
  (has_key field o /\ presence_body o report field = Next)
  \/ (~ has_key field o
      /\ presence_body o report field = Return (report field)).
Proof.
  unfold presence_body, has_key. simpl.
  destruct (o !! field) eqn:E.
  - left. split; [by eauto|]. by rewrite bool_decide_true by eauto.
  - right. split; [by intros [? ?]|].
    by rewrite bool_decide_false by (by intros [? ?]).
Qed.

Lemma presence_loop_Next (fields : list string) :
  Forall (fun f => has_key f o) fields ->
  for_each (presence_body o report) fields = Next.
Proof.
  intros Hall. apply for_enumerate_Next. intros k f Hk.
  destruct (presence_body_cases f) as [[_ ?]|[Hn _]]; [done|].
  destruct Hn. by apply (proj1 (Forall_lookup _ fields) Hall k f).
Qed.

Lemma presence_loop_Return (fields : list string) k f :
  first_failing (fun f => has_key f o) fields k f ->
  for_each (presence_body o report) fields = Return (report f).
Proof.
  intros (Hk & Hf & Hlt). apply for_enumerate_first; [done|].
  exists k, f. split; [done|]. split.
  - destruct (presence_body_cases f) as [[? _]|[_ ?]]; done.
  - intros k' y Hy Hk'.
    destruct (presence_body_cases y) as [[_ ?]|[Hn _]]; [done|].
    destruct Hn. by apply (Hlt k' y).
Qed.

Lemma array_body_cases (field : string) :
  has_key field o ->
  (holds_array field o /\ array_body o report field = Next)
  \/ (~ holds_array field o
      /\ array_body o report field = Return (report field)).
Proof.
  unfold array_body, has_key, holds_array. simpl. intros [v Hv]. rewrite Hv.
  destruct v; simpl;
    (left; split; by eauto) || (right; split; [by intros [? ?]|done]).
Qed.

Lemma array_loop_Next (fields : list string) :
  Forall (fun f => holds_array f o) fields ->
  for_each (array_body o report) fields = Next.
Proof.
  intros Hall. apply for_enumerate_Next. intros k f Hk.
  assert (Hf : holds_array f o)
    by apply (proj1 (Forall_lookup _ fields) Hall k f Hk).
  assert (Hkey : has_key f o) by (destruct Hf as [l Hl]; by exists (JArray l)).
  destruct (array_body_cases f Hkey) as [[_ ?]|[Hn _]]; done.
Qed.

Lemma array_loop_Return (fields : list string) k f :
  Forall (fun f => has_key f o) fields ->
  first_failing (fun f => holds_array f o) fields k f ->
  for_each (array_body o report) fields = Return (report f).
Proof.
  intros Hkeys (Hk & Hf & Hlt). apply for_enumerate_first; [done|].
  pose proof (proj1 (Forall_lookup _ fields) Hkeys) as Hkey.
  exists k, f. split; [done|]. split.
  - destruct (array_body_cases f (Hkey k f Hk)) as [[? _]|[_ ?]]; done.
  - intros k' y Hy Hk'.
    destruct (array_body_cases y (Hkey k' y Hy)) as [[_ ?]|[Hn _]]; [done|].
    destruct Hn. by apply (Hlt k' y).
Qed.

End FieldLoops.

(** *** Topics *)

Lemma validate_topic_object (i j : nat) (o : gmap string json) :
  validate_topic i j (JObject o) =
    (for_each (presence_body o (topic_missing_report i j)) topic_fields ;;
     for_each (array_body o (topic_array_report i j)) topic_array_fields).
Proof. reflexivity. Qed.

Lemma validate_topic_not_object (i j : nat) (t : json) :
  isinstance_dict t = false ->
  validate_topic i j t =
    Return (Some (topic_label i j +:+ " must be an object")).
Proof. intros H. unfold validate_topic. by rewrite H. Qed.

Lemma validate_topic_ok (i j : nat) (t : json) :
  conformant_topic t -> validate_topic i j t = Next.
Proof.
  intros (o & -> & Hkeys & Harrays). rewrite validate_topic_object.
  rewrite presence_loop_Next by done. simpl.
  by apply array_loop_Next.
Qed.

Lemma validate_topic_bad (i j : nat) (t : json) (report : string) :
  topic_violation i j t report -> validate_topic i j t = Return (Some report).
Proof.
  intros [t' Hno | o k f Hf | o k f Hkeys Hf].
  - by apply validate_topic_not_object.
  - rewrite validate_topic_object.
    by rewrite (presence_loop_Return o _ _ k f Hf).
  - rewrite validate_topic_object.
    rewrite presence_loop_Next by done. simpl.
    apply (array_loop_Return o (topic_array_report i j) _ k f); [|done].
    apply Forall_forall. intros g Hg.
    apply (proj1 (Forall_forall _ _) Hkeys).
    unfold topic_array_fields in Hg. unfold topic_fields.
    rewrite !elem_of_cons in Hg. rewrite !elem_of_cons. tauto.
Qed.

Lemma topic_cases (i j : nat) (t : json) :
  conformant_topic t \/ exists report, topic_violation i j t report.
Proof.
  destruct (isinstance_dict t) eqn:Hd.
  2:{ right. eexists. by apply TopicNotObject. }
  destruct t; try discriminate. rename members into o.
  destruct (all_or_first_failing (fun f => has_key f o) topic_fields)
    as [Hkeys|(k & f & Hf)]; [intros; apply has_key_dec| |].
  2:{ right. eexists. by eapply TopicMissingField. }
  destruct (all_or_first_failing (fun f => holds_array f o) topic_array_fields)
    as [Harr|(k & f & Hf)]; [intros; apply holds_array_dec| |].
  - left. by exists o.
  - right. eexists. by eapply TopicFieldNotArray.
Qed.

Lemma validate_topic_Next_iff (i j : nat) (t : json) :
  validate_topic i j t = Next <-> conformant_topic t.
Proof.
  split; [|apply validate_topic_ok].
  intros H. destruct (topic_cases i j t) as [?|[report Hv]]; [done|].
  apply validate_topic_bad in Hv. congruence.
Qed.

(** *** Chapters *)

Lemma validate_chapter_not_object (i : nat) (c : json) :
  isinstance_dict c = false ->
  validate_chapter i c = Return (Some (chapter_label i +:+ " must be an object")).
Proof. intros H. unfold validate_chapter. by rewrite H. Qed.

Lemma topics_loop_ok (i : nat) (topics : list json) :
  Forall conformant_topic topics ->
  for_enumerate (validate_topic i) 0 topics = Next.
Proof.
  intros Hall. apply for_enumerate_Next. intros k t Hk.
  apply validate_topic_ok. by apply (proj1 (Forall_lookup _ _) Hall k).
Qed.

Lemma topics_loop_bad (i : nat) (topics : list json) j t report :
  first_failing conformant_topic topics j t ->
  topic_violation i j t report ->
  for_enumerate (validate_topic i) 0 topics = Return (Some report).
Proof.
  intros (Hj & _ & Hlt) Hv. apply for_enumerate_first; [done|].
  exists j, t. split; [done|]. split; [by apply validate_topic_bad|].
  intros k' y Hy Hk'. apply validate_topic_ok. by apply (Hlt k').
Qed.

Lemma validate_chapter_ok (i : nat) (c : json) :
  conformant_chapter c -> validate_chapter i c = Next.
Proof.
  intros (o & topics & -> & [v Hv] & Htopics & Hall).
  unfold validate_chapter. simpl. rewrite Hv, Htopics. simpl.
  by apply topics_loop_ok.
Qed.

Lemma validate_chapter_bad (i : nat) (c : json) (report : string) :
  chapter_violation i c report ->
  validate_chapter i c = Return (Some report).
Proof.
  intros [c' Hno | o Ht | o [v Hv] Ht | o v [w Hw] Ht Hv
         | o topics j t report' [w Hw] Ht Hf Hv].
  - by apply validate_chapter_not_object.
  - unfold validate_chapter. simpl. by rewrite bool_decide_false.
  - unfold validate_chapter. simpl.
    rewrite bool_decide_true by (by exists v). simpl.
    by rewrite bool_decide_false.
  - unfold validate_chapter. simpl. rewrite Ht.
    rewrite ?bool_decide_true by eauto. simpl.
    by destruct v.
  - unfold validate_chapter. simpl. rewrite Ht.
    rewrite ?bool_decide_true by eauto. simpl.
    by apply (topics_loop_bad i topics j t).
Qed.

Lemma chapter_cases (i : nat) (c : json) :
  conformant_chapter c \/ exists report, chapter_violation i c report.
Proof.
  destruct (isinstance_dict c) eqn:Hd.
  2:{ right. eexists. by apply ChapterNotObject. }
  destruct c; try discriminate. rename members into o.
  destruct (has_key_dec "title" o) as [Ht|Ht].
  2:{ right. eexists. by apply ChapterMissingTitle. }
  destruct (o !! "topics") as [v|] eqn:Hv.
  2:{ right. eexists. apply ChapterMissingTopics; [done|].
      unfold has_key. rewrite Hv. by intros [? ?]. }
  destruct (isinstance_list v) eqn:Hl.
  2:{ right. eexists. by eapply ChapterTopicsNotArray. }
  destruct v; try discriminate. rename items into topics.
  destruct (all_or_first_failing conformant_topic topics)
    as [Hall|(j & t & Hf)].
  - intros t. destruct (topic_cases i 0 t) as [?|[r Hr]]; [by left|].
    right. intros Hc. apply (validate_topic_ok i 0) in Hc.
    apply validate_topic_bad in Hr. congruence.
  - left. by exists o, topics.
  - right. destruct (topic_cases i j t) as [Hc|[r Hr]].
    + by destruct Hf as (_ & Hn & _).
    + exists r. by eapply ChapterBadTopic.
Qed.

Lemma validate_chapter_Next_iff (i : nat) (c : json) :
  validate_chapter i c = Next <-> conformant_chapter c.
Proof.
  split; [|apply validate_chapter_ok].
  intros H. destruct (chapter_cases i c) as [?|[report Hv]]; [done|].
  apply validate_chapter_bad in Hv. congruence.
Qed.

(** *** Documents *)

Lemma validate_body_ok (d : json) :
  conformant d -> validate_body d = Return None.
Proof.
  intros (root & subject & chapters & -> & Hs & Hkeys & Hch & Hall).
  unfold validate_body. simpl. rewrite Hs. simpl.
  rewrite ?bool_decide_true by eauto. simpl.
  change (for_each _ required_fields)
    with (for_each (presence_body subject (fun field =>
            Some ("Missing required field '" +:+ field +:+
                  "' in subject_name"))) subject_fields).
  rewrite presence_loop_Next by done. simpl. rewrite Hch. simpl.
  assert (for_enumerate validate_chapter 0 chapters = Next) as ->; [|done].
  apply for_enumerate_Next. intros k c Hk. apply validate_chapter_ok.
  by apply (proj1 (Forall_lookup _ _) Hall k).
Qed.

Lemma validate_body_bad (d : json) (report : string) :
  violation d report -> validate_body d = Return (Some report).
Proof.
  intros [d' Hno | root s Hs Hd | root subject k f Hs Hf
         | root subject v Hs Hkeys Hv Hl
         | root subject chapters i c report' Hs Hkeys Hch Hf Hv].
  - unfold validate_body. destruct d'; try done. simpl.
    rewrite bool_decide_false; [done|]. by apply Hno.
  - unfold validate_body. simpl. rewrite Hs. simpl.
    rewrite ?bool_decide_true by eauto. simpl. by rewrite Hd.
  - unfold validate_body. simpl. rewrite Hs. simpl.
    rewrite ?bool_decide_true by eauto. simpl.
    change (for_each _ required_fields)
      with (for_each (presence_body subject (fun field =>
              Some ("Missing required field '" +:+ field +:+
                    "' in subject_name"))) subject_fields).
    by rewrite (presence_loop_Return subject _ _ k f Hf).
  - unfold validate_body. simpl. rewrite Hs. simpl.
    rewrite ?bool_decide_true by eauto. simpl.
    change (for_each _ required_fields)
      with (for_each (presence_body subject (fun field =>
              Some ("Missing required field '" +:+ field +:+
                    "' in subject_name"))) subject_fields).
    rewrite presence_loop_Next by done. simpl. rewrite Hv. simpl.
    by destruct v.
  - unfold validate_body. simpl. rewrite Hs. simpl.
    rewrite ?bool_decide_true by eauto. simpl.
    change (for_each _ required_fields)
      with (for_each (presence_body subject (fun field =>
              Some ("Missing required field '" +:+ field +:+
                    "' in subject_name"))) subject_fields).
    rewrite presence_loop_Next by done. simpl. rewrite Hch. simpl.
    assert (for_enumerate validate_chapter 0 chapters
            = Return (Some report')) as ->; [|done].
    destruct Hf as (Hi & _ & Hlt).
    apply for_enumerate_first; [done|].
    exists i, c. split; [done|]. split; [by apply validate_chapter_bad|].
    intros k' y Hy Hk'. apply validate_chapter_ok. by apply (Hlt k').
Qed.

Lemma document_cases (d : json) :
  conformant d \/ exists report, violation d report.
Proof.
  destruct d as [| | | | |items|root];
    try (right; eexists; apply RootMissingSubject; by intros ? ?).
  destruct (root !! "subject_name") as [s|] eqn:Hs.
  2:{ right. eexists. apply RootMissingSubject.
      intros r [= <-] [? ?]. congruence. }
  destruct (isinstance_dict s) eqn:Hd.
  2:{ right. eexists. by eapply SubjectNotObject. }
  destruct s; try discriminate. rename members into subject.
  destruct (all_or_first_failing (fun f => has_key f subject) subject_fields)
    as [Hkeys|(k & f & Hf)]; [intros; apply has_key_dec| |].
  2:{ right. eexists. by eapply SubjectMissingField. }
  assert (Hch : has_key "chapters" subject).
  { apply (proj1 (Forall_forall _ _) Hkeys). set_solver. }
  destruct Hch as [v Hv].
  destruct (isinstance_list v) eqn:Hl.
  2:{ right. eexists. by eapply ChaptersNotArray. }
  destruct v; try discriminate. rename items into chapters.
  destruct (all_or_first_failing conformant_chapter chapters)
    as [Hall|(i & c & Hf)].
  - intros c. destruct (chapter_cases 0 c) as [?|[r Hr]]; [by left|].
    right. intros Hc. apply (validate_chapter_ok 0) in Hc.
    apply validate_chapter_bad in Hr. congruence.
  - left. by exists root, subject, chapters.
  - right. destruct (chapter_cases i c) as [Hc|[r Hr]].
    + by destruct Hf as (_ & Hn & _).
    + exists r. by eapply BadChapter.
Qed.

Lemma validate_json_structure_of_body (d : json) (r : VERDICT) :
  validate_body d = Return r -> validate_json_structure d = r.
Proof. intros H. unfold validate_json_structure. by rewrite H. Qed.

(** The minimal conformant document of the specification: one chapter, one
    topic, all six fields, empty arrays. *)
Example minimal_document_valid :
  validate_json_structure minimal_document = None.
Proof. vm_compute. reflexivity. Qed.

Example missing_subject_reported :
  validate_json_structure (JObject {[ "title" := JString "Physics" ]})
  = Some "Missing 'subject_name' at root level".
Proof. vm_compute. reflexivity. Qed.

Example second_chapter_third_topic_reported :
  validate_json_structure
    (JObject {[ "subject_name" :=
      JObject (list_to_map
        [("title", JString ""); ("description", JString "");
         ("chapters",
          JArray [JObject (list_to_map
                    [("title", JString ""); ("topics", JArray [minimal_topic])]);
                  JObject (list_to_map
                    [("title", JString "");
                     ("topics",
                      JArray [minimal_topic; minimal_topic;
                              JObject (list_to_map
                                [("topic_id", JString "t"); ("title", JNull);
                                 ("content", JNull);
                                 ("examples", JArray []);
                                 ("real_world_applications", JString "none");
                                 ("keywords", JInt 3)])])])])]) ]})
  = Some "Chapter 1, Topic 2 'real_world_applications' must be an array".
Proof. vm_compute. reflexivity. Qed.

Lemma validate_json_structure_Some (d : json) (report : string) :
  validate_json_structure d = Some report <-> violation d report.
Proof.
  split.
  - intros H. destruct (document_cases d) as [Hc|[r Hr]].
    + apply validate_body_ok, validate_json_structure_of_body in Hc.
      congruence.
    + pose proof (validate_json_structure_of_body d _
                    (validate_body_bad d r Hr)). congruence.
  - intros H. by apply validate_json_structure_of_body, validate_body_bad.
Qed.



(** C10. The validator is total on JSON values: whatever the value, the
    body of its [try] block runs to a [return] and raises nothing, so the
    function yields [None] or a report and the [except] branch is never
    taken; a root that is not an object is reported as the missing
    [subject_name]. *)
Theorem validate_json_structure_total (d : json) :
  (exists r, validate_body d = Return r /\ validate_json_structure d = r)
  /\ (forall e, validate_body d <> Raise e)
  /\ (isinstance_dict d = false ->
      validate_json_structure d = Some "Missing 'subject_name' at root level").
Proof.
  assert (H : exists r, validate_body d = Return r).
  { destruct (document_cases d) as [Hc|[r Hr]].
    - exists None. by apply validate_body_ok.
    - exists (Some r). by apply validate_body_bad. }
  destruct H as [r Hr]. split; [|split].
  - exists r. split; [done|]. by apply validate_json_structure_of_body.
  - intros e. congruence.
  - intros Hd. by destruct d.
Qed.

Lemma validate_json_structure_total_witness :
  validate_json_structure (JArray [JInt 1; JNull])
  = Some "Missing 'subject_name' at root level".
Proof.
  apply (validate_json_structure_total (JArray [JInt 1; JNull])).
  reflexivity.
Defined.

(** ** C8: a schema violation is logged, not raised *)

Lemma append_nonempty (a b : string) : a <> EmptyString -> a +:+ b <> EmptyString.
Proof. by destruct a. Qed.

Lemma topic_violation_nonempty i j t report :
  topic_violation i j t report -> report <> EmptyString.
Proof. intros []; by apply append_nonempty, append_nonempty. Qed.

Lemma chapter_violation_nonempty i c report :
  chapter_violation i c report -> report <> EmptyString.
Proof.
  intros []; try (by apply append_nonempty, append_nonempty).
  by eapply topic_violation_nonempty.
Qed.

Lemma violation_nonempty d report : violation d report -> report <> EmptyString.
Proof.
  intros []; try done.
  by eapply chapter_violation_nonempty.
Qed.

(** A report is never the empty string, so [if validation_error:] is taken
    for every report. *)
Lemma report_truthy (d : json) (report : string) :
  validate_json_structure d = Some report -> truthy (Some report) = true.
Proof.
  intros H. apply validate_json_structure_Some in H.
  apply violation_nonempty in H. by destruct report.
Qed.

Lemma log_bind_lift_ok {A B} (a : A) (k : A -> logged B) :
  log_bind (log_lift (Ok a)) k = k a.
Proof. unfold log_bind, log_lift. simpl. by destruct (k a). Qed.

Lemma log_bind_written {A B} (a : A) (l : list log_record) (k : A -> logged B) :
  log_bind (Ok a, l) k = ((k a).1, l ++ (k a).2).
Proof. reflexivity. Qed.

Section WarnDontReject.

Variable str_format : string -> string -> string -> exc string.
Variable json_loads : string -> exc json.
Variable environ : gmap string string.
Variable chat_completion : string -> string -> Z -> exc string.

Lemma parse_response_invalid (response_text : string) (document : json)
    (report : string) :
  json_loads response_text = Ok document ->
  validate_json_structure document = Some report ->
  parse_response json_loads response_text =
    (Ok document,
     [LogRecord INFO "Successfully parsed JSON response";
      LogRecord WARNING ("JSON structure validation warning: " +:+ report)]).
Proof.
  intros Hl Hv. unfold parse_response. rewrite Hl, Hv.
  by rewrite (report_truthy document report Hv).
Qed.

(** The run of the body once every step before the parse has succeeded. *)
Lemma convert_body_reaches_parse (text_content filename : string)
    (max_tokens : Z) (truncated : string * list log_record)
    (user_prompt content : string) :
  select_max_tokens environ (len text_content) = Ok max_tokens ->
  _truncate_to_token_limit str_format text_content system_prompt
    user_prompt_template filename MODEL_CONTEXT_LIMIT max_tokens
    = Ok truncated ->
  str_format user_prompt_template filename truncated.1 = Ok user_prompt ->
  chat_completion system_prompt user_prompt max_tokens = Ok content ->
  convert_body str_format json_loads environ chat_completion
    text_content filename =
    ((parse_response json_loads (strip content)).1,
     truncated.2 ++
     [LogRecord INFO
        ("Sending request to OpenAI API... (Content: " +:+
         str_of_Z (len truncated.1) +:+ " chars, Max output tokens: " +:+
         str_of_Z max_tokens +:+ ")")] ++
     (parse_response json_loads (strip content)).2).
Proof.
  intros Hmax Htrunc Hfmt Hchat. unfold convert_body. cbv zeta.
  rewrite Hmax, log_bind_lift_ok.
  rewrite Htrunc, log_bind_lift_ok.
  rewrite log_bind_written. f_equal.
  - rewrite Hfmt, log_bind_lift_ok. unfold log_emit.
    rewrite log_bind_written. simpl.
    by rewrite Hchat, log_bind_lift_ok.
  - f_equal. rewrite Hfmt, log_bind_lift_ok. unfold log_emit.
    rewrite log_bind_written. simpl.
    by rewrite Hchat, log_bind_lift_ok.
Qed.

End WarnDontReject.

(** C8. Whenever the reply of the service parses as JSON and the parsed
    document fails validation with some report, [convert_to_json] returns
    that very document, logs the report at WARNING level, and logs nothing
    at ERROR level: no exception is raised. *)
Theorem convert_to_json_warns_not_rejects
    (str_format : string -> string -> string -> exc string)
    (json_loads : string -> exc json)
    (environ : gmap string string)
    (chat_completion : string -> string -> Z -> exc string)
    (text_content filename : string) (max_tokens : Z)
    (truncated : string * list log_record)
    (user_prompt content : string) (document : json) (report : string) :
  select_max_tokens environ (len text_content) = Ok max_tokens ->
  _truncate_to_token_limit str_format text_content system_prompt
    user_prompt_template filename MODEL_CONTEXT_LIMIT max_tokens
    = Ok truncated ->
  str_format user_prompt_template filename truncated.1 = Ok user_prompt ->
  chat_completion system_prompt user_prompt max_tokens = Ok content ->
  json_loads (strip content) = Ok document ->
  validate_json_structure document = Some report ->
  (convert_to_json str_format json_loads environ chat_completion
     text_content filename).1 = Ok document
  /\ LogRecord WARNING ("JSON structure validation warning: " +:+ report)
     ∈ (convert_to_json str_format json_loads environ chat_completion
          text_content filename).2
  /\ Forall (fun record => level record <> ERROR)
       (convert_to_json str_format json_loads environ chat_completion
          text_content filename).2.
Proof.
  intros Hmax Htrunc Hfmt Hchat Hloads Hval.
  assert (Hwarn : Forall (fun record => level record <> ERROR) truncated.2).
  { unfold _truncate_to_token_limit in Htrunc.
    destruct (available_tokens _ _ _ _ _ _) as [a|]; [|discriminate].
    injection Htrunc as <-. unfold truncate_to_fit.
    destruct (_ <=? _); simpl; [constructor|].
    by repeat constructor. }
  unfold convert_to_json.
  rewrite (convert_body_reaches_parse str_format json_loads environ
             chat_completion text_content filename max_tokens truncated
             user_prompt content Hmax Htrunc Hfmt Hchat).
  rewrite (parse_response_invalid json_loads _ document report Hloads Hval).
  simpl. split; [done|]. split.
  - rewrite !elem_of_app, !elem_of_cons. naive_solver.
  - rewrite !Forall_app. repeat split; try done; by repeat constructor.
Qed.

Lemma convert_to_json_warns_not_rejects_witness :
  (convert_to_json format_named canned_loads ∅ canned_reply
     "Newton's laws of motion" "physics.pdf").1 = Ok (JObject ∅)
  /\ LogRecord WARNING
       ("JSON structure validation warning: " +:+
        "Missing 'subject_name' at root level")
     ∈ (convert_to_json format_named canned_loads ∅ canned_reply
          "Newton's laws of motion" "physics.pdf").2
  /\ Forall (fun record => level record <> ERROR)
       (convert_to_json format_named canned_loads ∅ canned_reply
          "Newton's laws of motion" "physics.pdf").2.
Proof.
  eapply (convert_to_json_warns_not_rejects format_named canned_loads ∅
            canned_reply "Newton's laws of motion" "physics.pdf").
  - vm_compute. reflexivity.
  - vm_compute. reflexivity.
  - vm_compute. reflexivity.
  - reflexivity.
  - vm_compute. reflexivity.
  - vm_compute. reflexivity.
Defined.

(** ** C9: one result per file, unless a temporary copy cannot be written *)

(** The file-count test of the endpoint does not fire within the
    limit, nor when the limit is zero or negative. *)
Lemma within_limit (limit n : Z) :
  (0 < limit -> n <= limit) -> (0 <? limit) && (limit <? n) = false.
Proof. intros H. apply andb_false_iff. rewrite !Z.ltb_ge. lia. Qed.

Lemma filter_named (files : list upload) :
  Forall (fun f => upload_filename f <> EmptyString) files ->
  filter (fun f => upload_filename f <> EmptyString) files = files.
Proof.
  induction 1 as [|f files Hf _ IH]; [done|].
  rewrite filter_cons. rewrite decide_True by done. by rewrite IH.
Qed.

Lemma count_successful_le (rs : list result_entry) :
  0 <= count_successful rs <= Z.of_nat (length rs).
Proof.
  unfold count_successful.
  pose proof (length_filter (fun r => status r = "success") rs). lia.
Qed.

Section BatchIsolation.

Variable str_format : string -> string -> string -> exc string.
Variable json_loads : string -> exc json.
Variable environ : gmap string string.
Variable chat_completion : nat -> string -> string -> Z -> exc string.
Variables _parse_pdf _parse_doc _parse_ppt : upload -> exc string.
Variable save_upload : nat -> upload -> exc unit.
Variable temp_name : nat -> string -> string.
Variable MAX_FILES_PER_REQUEST : Z.

Local Abbreviation extract_and_convert :=
  (extract_and_convert str_format json_loads environ chat_completion
     _parse_pdf _parse_doc _parse_ppt).
Local Abbreviation process_file :=
  (process_file str_format json_loads environ chat_completion
     _parse_pdf _parse_doc _parse_ppt save_upload temp_name).
Local Abbreviation process_files :=
  (process_files str_format json_loads environ chat_completion
     _parse_pdf _parse_doc _parse_ppt save_upload temp_name).
Local Abbreviation upload_file :=
  (upload_file str_format json_loads environ chat_completion
     _parse_pdf _parse_doc _parse_ppt save_upload temp_name
     MAX_FILES_PER_REQUEST).

(** The three ways through the loop body. *)
Lemma process_file_unsupported (i : nat) (file : upload) (st : batch_state) :
  lower (splitext (upload_filename file)).2 ∉ allowed_extensions ->
  process_file i file st
  = (append_result
       (ResultError (upload_filename file)
          ("Unsupported file type. Allowed types: " +:+
           String.concat ", " allowed_extensions)) st, None).
Proof. intros H. unfold process_file. by rewrite bool_decide_false. Qed.

Lemma process_file_saved (i : nat) (file : upload) (st : batch_state) :
  lower (splitext (upload_filename file)).2 ∈ allowed_extensions ->
  save_upload i file = Ok tt ->
  process_file i file st
  = (extract_and_convert i file (lower (splitext (upload_filename file)).2)
       (append_temp
          (temp_name i (lower (splitext (upload_filename file)).2))
          (append_log
             [LogRecord INFO ("Processing file: " +:+ upload_filename file)]
             st)), None).
Proof.
  intros H Hs. unfold process_file. rewrite bool_decide_true by done.
  by rewrite Hs.
Qed.

Lemma process_file_not_saved (i : nat) (file : upload) (st : batch_state)
    (e : exn) :
  lower (splitext (upload_filename file)).2 ∈ allowed_extensions ->
  save_upload i file = Err e ->
  process_file i file st
  = (append_log
       [LogRecord INFO ("Processing file: " +:+ upload_filename file)] st,
     Some e).
Proof.
  intros H Hs. unfold process_file. rewrite bool_decide_true by done.
  by rewrite Hs.
Qed.

(** Which of the three it is. *)
Lemma process_file_cases (i : nat) (file : upload) :
  lower (splitext (upload_filename file)).2 ∉ allowed_extensions
  \/ (lower (splitext (upload_filename file)).2 ∈ allowed_extensions
      /\ save_upload i file = Ok tt)
  \/ (lower (splitext (upload_filename file)).2 ∈ allowed_extensions
      /\ exists e, save_upload i file = Err e).
Proof.
  destruct (decide (lower (splitext (upload_filename file)).2
                    ∈ allowed_extensions)) as [Hext|Hext]; [|by left].
  right. destruct (save_upload i file) as [[]|e]; [by left|].
  right. split; [done|]. by exists e.
Qed.

(** The inner [try] appends exactly one entry, whatever it starts from,
    and leaves the list of temporary files alone. *)
Lemma extract_and_convert_results (i : nat) (file : upload)
    (file_extension : string) (st st' : batch_state) :
  exists entry,
    results (extract_and_convert i file file_extension st)
    = results st ++ [entry]
    /\ results (extract_and_convert i file file_extension st')
       = results st' ++ [entry]
    /\ entry_filename entry = upload_filename file.
Proof.
  unfold extract_and_convert, on_exception.
  destruct (parse_file _ _ _ _ _) as [text|e]; [|by eexists].
  destruct (_ || _); [by eexists|].
  destruct (convert_to_json _ _ _ _ _ _) as [[doc|e] l]; by eexists.
Qed.

Lemma extract_and_convert_temp_files (i : nat) (file : upload)
    (file_extension : string) (st : batch_state) :
  temp_files (extract_and_convert i file file_extension st) = temp_files st.
Proof.
  unfold extract_and_convert, on_exception.
  destruct (parse_file _ _ _ _ _) as [text|e]; [|done].
  destruct (_ || _); [done|].
  by destruct (convert_to_json _ _ _ _ _ _) as [[doc|e] l].
Qed.

(** When the copy is written, or none is needed, each pass through the
    loop body appends exactly one entry and raises nothing, and the entry
    is the one the file gets when it is processed on its own. *)
Lemma process_file_results (i : nat) (file : upload) (st : batch_state) :
  (lower (splitext (upload_filename file)).2 ∈ allowed_extensions ->
   save_upload i file = Ok tt) ->
  exists entry,
    results (process_file i file fresh).1 = [entry]
    /\ entry_filename entry = upload_filename file
    /\ results (process_file i file st).1 = results st ++ [entry]
    /\ (process_file i file st).2 = None.
Proof.
  intros Hsaved.
  destruct (decide (lower (splitext (upload_filename file)).2
                    ∈ allowed_extensions)) as [Hext|Hext].
  - rewrite !process_file_saved by auto.
    destruct (extract_and_convert_results i file
                (lower (splitext (upload_filename file)).2)
                (append_temp
                   (temp_name i (lower (splitext (upload_filename file)).2))
                   (append_log
                      [LogRecord INFO
                         ("Processing file: " +:+ upload_filename file)]
                      fresh))
                (append_temp
                   (temp_name i (lower (splitext (upload_filename file)).2))
                   (append_log
                      [LogRecord INFO
                         ("Processing file: " +:+ upload_filename file)]
                      st)))
      as (entry & H1 & H2 & Hn).
    exists entry. cbn [fst snd]. by rewrite H1, H2.
  - rewrite !process_file_unsupported by done. by eexists.
Qed.

Lemma process_files_cons (i : nat) (file : upload) (rest : list upload)
    (st : batch_state) :
  process_files i (file :: rest) st
  = match (process_file i file st).2 with
    | None => process_files (S i) rest (process_file i file st).1
    | Some _ => process_file i file st
    end.
Proof. reflexivity. Qed.

Lemma process_files_results (i : nat) (files : list upload)
    (st : batch_state) :
  (forall k file,
     files !! k = Some file ->
     lower (splitext (upload_filename file)).2 ∈ allowed_extensions ->
     save_upload (i + k) file = Ok tt) ->
  (process_files i files st).2 = None
  /\ exists entries,
       results (process_files i files st).1 = results st ++ entries
       /\ length entries = length files
       /\ forall k file, files !! k = Some file ->
            exists entry, entries !! k = Some entry
              /\ results (process_file (i + k) file fresh).1 = [entry]
              /\ entry_filename entry = upload_filename file.
Proof.
  revert i st. induction files as [|file files IH]; intros i st Hsaved.
  - split; [done|]. exists []. simpl. rewrite app_nil_r.
    split; [done|]. split; [done|].
    intros k f Hk. by rewrite lookup_nil in Hk.
  - destruct (process_file_results i file st) as (entry & He & Hn & Hst & Hok).
    { intros Hext. specialize (Hsaved 0%nat file eq_refl Hext).
      by rewrite Nat.add_0_r in Hsaved. }
    destruct (IH (S i) (process_file i file st).1)
      as (Hnone & entries & Hr & Hlen & Hall).
    { intros k f Hk Hext. specialize (Hsaved (S k) f Hk Hext).
      by replace (S i + k)%nat with (i + S k)%nat by lia. }
    rewrite process_files_cons, Hok.
    split; [done|]. exists (entry :: entries). split; [|split].
    + rewrite Hr, Hst. by rewrite <- app_assoc.
    + simpl. by rewrite Hlen.
    + intros [|k] f Hk; simpl in Hk.
      * injection Hk as <-. exists entry. by rewrite Nat.add_0_r.
      * destruct (Hall k f Hk) as (e & ? & ? & ?). exists e.
        by replace (i + S k)%nat with (S i + k)%nat by lia.
Qed.

(** The first copy that cannot be written ends the loop. *)
Lemma process_files_first_raise (i : nat) (files : list upload)
    (st : batch_state) (k : nat) (file : upload) (e : exn) :
  files !! k = Some file ->
  lower (splitext (upload_filename file)).2 ∈ allowed_extensions ->
  save_upload (i + k) file = Err e ->
  (forall j file',
     (j < k)%nat -> files !! j = Some file' ->
     lower (splitext (upload_filename file')).2 ∈ allowed_extensions ->
     save_upload (i + j) file' = Ok tt) ->
  (process_files i files st).2 = Some e.
Proof.
  revert i st k. induction files as [|file0 files IH]; intros i st k Hk Hext He Hbefore.
  - by rewrite lookup_nil in Hk.
  - rewrite process_files_cons. destruct k as [|k]; simpl in Hk.
    + injection Hk as ->. rewrite Nat.add_0_r in He.
      by rewrite (process_file_not_saved i file st e).
    + destruct (process_file_results i file0 st) as (entry & _ & _ & _ & Hok).
      { intros Hext0. specialize (Hbefore 0%nat file0 ltac:(lia) eq_refl Hext0).
        by rewrite Nat.add_0_r in Hbefore. }
      rewrite Hok. apply (IH (S i) _ k); [done|done| |].
      * by replace (S i + k)%nat with (i + S k)%nat by lia.
      * intros j f Hj Hf Hx.
        specialize (Hbefore (S j) f ltac:(lia) Hf Hx).
        by replace (S i + j)%nat with (i + S j)%nat by lia.
Qed.

(** A file whose extraction comes back empty gets the input error. *)
Lemma empty_extraction_entry (i : nat) (file : upload) :
  lower (splitext (upload_filename file)).2 ∈ allowed_extensions ->
  save_upload i file = Ok tt ->
  parse_file _parse_pdf _parse_doc _parse_ppt file
    (lower (splitext (upload_filename file)).2) = Ok EmptyString ->
  results (process_file i file fresh).1
    = [ResultError (upload_filename file) INSUFFICIENT_TEXT].
Proof.
  intros Hext Hsave Hparse. rewrite process_file_saved by done.
  unfold extract_and_convert. cbn [fst]. by rewrite Hparse.
Qed.

(** The endpoint on named files within the limit. *)
Lemma upload_file_named (files : list upload) :
  Forall (fun f => upload_filename f <> EmptyString) files ->
  files <> [] ->
  (0 < MAX_FILES_PER_REQUEST ->
   Z.of_nat (length files) <= MAX_FILES_PER_REQUEST) ->
  upload_file (Some files)
  = match (match (process_files 0 files fresh).2 with
           | Some e => Err e
           | None => prepare_response files (process_files 0 files fresh).1
           end) with
    | Ok resp =>
        (resp, log (process_files 0 files fresh).1,
         temp_files (process_files 0 files fresh).1)
    | Err e =>
        (Response 500 (ErrorBody ("Error processing files: " +:+ exn_str e)),
         log (process_files 0 files fresh).1 ++
         [LogRecord ERROR ("Error processing files: " +:+ exn_str e)],
         temp_files (process_files 0 files fresh).1)
    end.
Proof.
  intros Hnamed Hne Hmax. unfold upload_file.
  rewrite filter_named by done. rewrite bool_decide_false by done.
  by rewrite within_limit by done.
Qed.

End BatchIsolation.

(** C9, where the code departs from the claim. The temporary copy of an
    upload is created and written outside the [try] that guards the rest
    of the work on the file. So when, in a request of named files within
    the file-count limit, the copy of the file at position [k] is the
    first that cannot be written, the exception leaves the loop: the
    request is answered with status 500 and the message of that
    exception alone, the entries of the files before [k] are dropped
    with it, the files after [k] are never looked at, and the last
    record of the log is the ERROR line of the outer handler. *)
Theorem upload_batch_aborted_by_failed_save
    (str_format : string -> string -> string -> exc string)
    (json_loads : string -> exc json)
    (environ : gmap string string)
    (chat_completion : nat -> string -> string -> Z -> exc string)
    (_parse_pdf _parse_doc _parse_ppt : upload -> exc string)
    (save_upload : nat -> upload -> exc unit)
    (temp_name : nat -> string -> string)
    (MAX_FILES_PER_REQUEST : Z)
    (files : list upload) (k : nat) (file : upload) (e : exn) :
  Forall (fun f => upload_filename f <> EmptyString) files ->
  (0 < MAX_FILES_PER_REQUEST ->
   Z.of_nat (length files) <= MAX_FILES_PER_REQUEST) ->
  files !! k = Some file ->
  lower (splitext (upload_filename file)).2 ∈ allowed_extensions ->
  save_upload k file = Err e ->
  (forall j file',
     (j < k)%nat -> files !! j = Some file' ->
     lower (splitext (upload_filename file')).2 ∈ allowed_extensions ->
     save_upload j file' = Ok tt) ->
  (upload_file str_format json_loads environ chat_completion
     _parse_pdf _parse_doc _parse_ppt save_upload temp_name
     MAX_FILES_PER_REQUEST (Some files)).1.1
  = Response 500 (ErrorBody ("Error processing files: " +:+ exn_str e))
  /\ last (upload_file str_format json_loads environ chat_completion
             _parse_pdf _parse_doc _parse_ppt save_upload temp_name
             MAX_FILES_PER_REQUEST (Some files)).1.2
     = Some (LogRecord ERROR ("Error processing files: " +:+ exn_str e)).
Proof.
  intros Hnamed Hmax Hk Hext He Hbefore.
  rewrite upload_file_named; [|done| |done].
  2:{ intros ->. by rewrite lookup_nil in Hk. }
  rewrite (process_files_first_raise str_format json_loads environ
             chat_completion _parse_pdf _parse_doc _parse_ppt save_upload
             temp_name 0 files fresh k file e) by done.
  cbn [fst snd]. split; [done|]. by rewrite last_snoc.
Qed.

Lemma upload_batch_aborted_by_failed_save_witness :
  (upload_file format_named canned_loads ∅ (fun _ => canned_reply)
     canned_pdf canned_doc canned_doc disk_full canned_temp 0
     (Some three_files)).1.1
  = Response 500
      (ErrorBody
         "Error processing files: [Errno 28] No space left on device")
  /\ last (upload_file format_named canned_loads ∅ (fun _ => canned_reply)
             canned_pdf canned_doc canned_doc disk_full canned_temp 0
             (Some three_files)).1.2
     = Some (LogRecord ERROR
               "Error processing files: [Errno 28] No space left on device").
Proof.
  apply (upload_batch_aborted_by_failed_save format_named canned_loads ∅
           (fun _ => canned_reply) canned_pdf canned_doc canned_doc
           disk_full canned_temp 0 three_files 2
           (Upload "notes.docx" "binary")
           (Exn "OSError" "[Errno 28] No space left on device")).
  - repeat constructor; discriminate.
  - lia.
  - reflexivity.
  - apply (list_elem_of_lookup_2 _ 2%nat). reflexivity.
  - reflexivity.
  - intros j f Hj _ _. unfold disk_full.
    rewrite bool_decide_false by lia. reflexivity.
Defined.

(** The same three files when every copy is written, and when the disk
    fills up at the third. *)
Example three_files_response :
  (upload_file format_named canned_loads ∅ (fun _ => canned_reply)
     canned_pdf canned_doc canned_doc saved canned_temp 0
     (Some three_files)).1.1
  = Response 200
      (BatchBody
         [ResultSuccess "mechanics.pdf" (JObject ∅);
          ResultError "scan.pdf" INSUFFICIENT_TEXT;
          ResultError "notes.docx" "Error processing file: Package not found"]
         3 1 2).
Proof. vm_compute. reflexivity. Qed.

Example three_files_disk_full :
  upload_file format_named canned_loads ∅ (fun _ => canned_reply)
    canned_pdf canned_doc canned_doc disk_full canned_temp 0
    (Some three_files)
  = (Response 500
       (ErrorBody
          "Error processing files: [Errno 28] No space left on device"),
     [LogRecord INFO "Processing file: mechanics.pdf";
      LogRecord INFO "Extracting text from mechanics.pdf...";
      LogRecord INFO "Extracted 78 characters from mechanics.pdf";
      LogRecord INFO "Converting mechanics.pdf to JSON format...";
      LogRecord INFO
        "Sending request to OpenAI API... (Content: 78 chars, Max output tokens: 4000)";
      LogRecord INFO "Successfully parsed JSON response";
      LogRecord WARNING
        "JSON structure validation warning: Missing 'subject_name' at root level";
      LogRecord INFO "Conversion completed successfully for mechanics.pdf";
      LogRecord INFO "Processing file: scan.pdf";
      LogRecord INFO "Extracting text from scan.pdf...";
      LogRecord INFO "Processing file: notes.docx";
      LogRecord ERROR
        "Error processing files: [Errno 28] No space left on device"],
     ["/tmp/tmp0.pdf"; "/tmp/tmp1.pdf"]).
Proof. vm_compute. reflexivity. Qed.

(** ** Binary64 rounding *)

Module RoundingFacts.

Import Float64.

Lemma pow2_succ (k : Z) : 0 <= k -> 2 ^ (k + 1) = 2 * 2 ^ k.
Proof. intros Hk. rewrite Z.pow_add_r by lia. rewrite Z.pow_1_r. lia. Qed.

Lemma pow2_pos (k : Z) : 0 <= k -> 0 < 2 ^ k.
Proof. intros Hk. apply Z.pow_pos_nonneg; lia. Qed.

Lemma digits2_pos_bounds (p : positive) :
  2 ^ (Zpos (digits2_pos p) - 1) <= Zpos p < 2 ^ Zpos (digits2_pos p).
Proof.
  induction p as [p IH|p IH|]; simpl digits2_pos.
  - rewrite Pos2Z.inj_succ.
    replace (Z.succ (Zpos (digits2_pos p)) - 1) with (Zpos (digits2_pos p)) by lia.
    rewrite Z.pow_succ_r by lia.
    assert (2 ^ Zpos (digits2_pos p) = 2 * 2 ^ (Zpos (digits2_pos p) - 1)).
    { rewrite <- Z.pow_succ_r by lia. f_equal. lia. }
    lia.
  - rewrite Pos2Z.inj_succ.
    replace (Z.succ (Zpos (digits2_pos p)) - 1) with (Zpos (digits2_pos p)) by lia.
    rewrite Z.pow_succ_r by lia.
    assert (2 ^ Zpos (digits2_pos p) = 2 * 2 ^ (Zpos (digits2_pos p) - 1)).
    { rewrite <- Z.pow_succ_r by lia. f_equal. lia. }
    lia.
  - simpl. lia.
Qed.

Lemma iter_pos_nat {A} (f : A -> A) (p : positive) (x : A) :
  SpecFloat.iter_pos f p x = Nat.iter (Pos.to_nat p) f x.
Proof.
  revert x. induction p as [p IH|p IH|]; intros x.
  - rewrite Pos2Nat.inj_xI.
    change (SpecFloat.iter_pos f p~1 x)
      with (SpecFloat.iter_pos f p (SpecFloat.iter_pos f p (f x))).
    rewrite !IH. rewrite <- Nat.iter_succ_r, <- Nat.iter_add.
    f_equal. lia.
  - rewrite Pos2Nat.inj_xO.
    change (SpecFloat.iter_pos f p~0 x)
      with (SpecFloat.iter_pos f p (SpecFloat.iter_pos f p x)).
    rewrite !IH. rewrite <- Nat.iter_add. f_equal. lia.
  - reflexivity.
Qed.

Lemma shr_inv_init (x : Z) :
  0 <= x -> shr_inv x 0 (Build_shr_record x false false).
Proof.
  intros Hx. split; [done|]. exists 0. simpl. split; [lia|].
  split; [split; [discriminate | lia] | lia].
Qed.

Lemma shr_1_inv (x k : Z) (mrs : shr_record) :
  0 <= k -> shr_inv x k mrs -> shr_inv x (k + 1) (shr_1 mrs).
Proof.
  intros Hk [Hm (u & Hu & Hs & Hx)]. destruct mrs as [m r s].
  simpl in Hm, Hs, Hx.
  pose proof (pow2_succ k Hk) as Hp.
  pose proof (pow2_succ (k + 1) ltac:(lia)) as Hp2.
  pose proof (pow2_pos k Hk) as Hpos.
  assert (Hsticky : (r || s) = true <-> (if r then 2 ^ k else 0) + u <> 0).
  { destruct r; simpl; [split; [lia | done]|].
    rewrite Hs. split; lia. }
  assert (Hrange : 0 <= (if r then 2 ^ k else 0) + u < 2 ^ (k + 1))
    by (destruct r; lia).
  rewrite Hp in Hx.
  assert (Hstep : forall m' (b : bool),
            0 <= m' -> m = 2 * m' + (if b then 1 else 0) ->
            shr_inv x (k + 1) (Build_shr_record m' b (r || s))).
  { intros m' b Hm' Hmb. split; [done|].
    exists ((if r then 2 ^ k else 0) + u).
    cbn [shr_m shr_r shr_s].
    split; [exact Hrange|]. split; [exact Hsticky|].
    rewrite Hp2, Hp. destruct b; nia. }
  destruct m as [|[p|p|]|p]; cbn [shr_1].
  - apply (Hstep 0 false); lia.
  - apply (Hstep (Zpos p) true); [lia|]. apply Pos2Z.inj_xI.
  - apply (Hstep (Zpos p) false); [lia|].
    rewrite (Pos2Z.inj_xO p). lia.
  - apply (Hstep 0 true); lia.
  - lia.
Qed.

Lemma shr_iter_inv (x : Z) (n : nat) :
  0 <= x ->
  shr_inv x (Z.of_nat n) (Nat.iter n shr_1 (Build_shr_record x false false)).
Proof.
  intros Hx. induction n as [|n IH].
  - by apply shr_inv_init.
  - rewrite Nat.iter_succ, Nat2Z.inj_succ.
    apply shr_1_inv; [lia | exact IH].
Qed.

(** Rounding the shifted mantissa by its round and sticky bits is
    rounding the quotient to nearest, ties to even. *)
Lemma round_of_shr_inv (x k : Z) (mrs : shr_record) :
  0 <= k -> shr_inv x k mrs ->
  round_nearest_even (shr_m mrs) (loc_of_shr_record mrs) = rne x k.
Proof.
  intros Hk [Hm (u & Hu & Hs & Hx)]. destruct mrs as [m r s].
  simpl in Hm, Hs, Hx |- *.
  pose proof (pow2_succ k Hk) as Hp.
  pose proof (pow2_pos k Hk) as Hpos.
  set (w := (if r then 2 ^ k else 0) + u) in *.
  assert (Hw : 0 <= w < 2 * 2 ^ k) by (unfold w; destruct r; lia).
  assert (Hx' : x = 2 ^ k * m + w / 2 /\ 2 * (w / 2) = w).
  { assert (w mod 2 = 0).
    { assert (w = 2 * (x - m * 2 ^ k)) as -> by lia.
      rewrite Z.mul_comm. apply Z.mod_mul. lia. }
    pose proof (Z.div_mod w 2 ltac:(lia)). lia. }
  destruct Hx' as [Hxm Hhalf].
  assert (Hq : x / 2 ^ k = m).
  { symmetry. apply (Z.div_unique x (2 ^ k) m (w / 2)); [lia|exact Hxm]. }
  assert (Hr : x mod 2 ^ k = w / 2).
  { symmetry. apply (Z.mod_unique x (2 ^ k) m (w / 2)); [lia|exact Hxm]. }
  unfold rne. rewrite Hq, Hr, Hhalf. unfold w.
  destruct r, s; simpl.
  - assert (u <> 0) by (by apply Hs).
    destruct (Z.ltb_spec (2 ^ k + u) (2 ^ k)); [lia|].
    destruct (Z.eqb_spec (2 ^ k + u) (2 ^ k)); [lia|done].
  - assert (u = 0) by (destruct (Z.eq_dec u 0); [done|];
                       assert (false = true) by (by apply Hs); done).
    subst u. rewrite Z.add_0_r.
    destruct (Z.ltb_spec (2 ^ k) (2 ^ k)); [lia|].
    by rewrite Z.eqb_refl.
  - destruct (Z.ltb_spec (0 + u) (2 ^ k)); [done|lia].
  - destruct (Z.ltb_spec (0 + u) (2 ^ k)); [done|lia].
Qed.

(** The first step of [binary_round_aux]: shift, then round. *)
Lemma shr_exact_spec (x e k : Z) :
  0 <= x -> 0 < k ->
  exists mrs,
    shr (Build_shr_record x false false) e k = (mrs, e + k)
    /\ round_nearest_even (shr_m mrs) (loc_of_shr_record mrs) = rne x k.
Proof.
  intros Hx Hk. destruct k as [|p|p]; try lia.
  eexists. split; [reflexivity|].
  rewrite iter_pos_nat. apply round_of_shr_inv; [lia|].
  rewrite <- (positive_nat_Z p) at 1. by apply shr_iter_inv.
Qed.

Lemma shr_none (mrs : shr_record) (e k : Z) :
  k <= 0 -> shr mrs e k = (mrs, e).
Proof. intros Hk. destruct k; done || lia. Qed.

(** *** Rounding to nearest on integers *)

Lemma rne_bounds (x k : Z) :
  0 <= k -> x / 2 ^ k <= rne x k <= x / 2 ^ k + 1.
Proof.
  intros Hk. unfold rne.
  destruct (_ <? _); [lia|]. destruct (_ =? _); [|lia].
  destruct (Z.even _); lia.
Qed.

Lemma rne_exact (x k : Z) :
  0 <= k -> x mod 2 ^ k = 0 -> rne x k = x / 2 ^ k.
Proof.
  intros Hk Hr. unfold rne. rewrite Hr. pose proof (pow2_pos k Hk).
  by destruct (Z.ltb_spec (2 * 0) (2 ^ k)); [|lia].
Qed.

Lemma rne_multiple (c k : Z) : 0 <= k -> rne (c * 2 ^ k) k = c.
Proof.
  intros Hk. pose proof (pow2_pos k Hk).
  rewrite rne_exact; [|done|apply Z.mod_mul; lia].
  apply Z.div_mul. lia.
Qed.

Lemma rne_mono (x y k : Z) : 0 <= k -> x <= y -> rne x k <= rne y k.
Proof.
  intros Hk Hxy. pose proof (pow2_pos k Hk) as Hp.
  pose proof (Z.div_le_mono x y (2 ^ k) Hp Hxy) as Hq.
  pose proof (rne_bounds x k Hk). pose proof (rne_bounds y k Hk).
  destruct (Z.eq_dec (x / 2 ^ k) (y / 2 ^ k)) as [Heq|Hne]; [|lia].
  assert (Hrest : x mod 2 ^ k <= y mod 2 ^ k).
  { pose proof (Z.div_mod x (2 ^ k) ltac:(lia)).
    pose proof (Z.div_mod y (2 ^ k) ltac:(lia)). nia. }
  unfold rne. rewrite <- Heq.
  destruct (Z.ltb_spec (2 * (x mod 2 ^ k)) (2 ^ k)),
           (Z.ltb_spec (2 * (y mod 2 ^ k)) (2 ^ k)); try lia.
  - destruct (_ =? _); [destruct (Z.even _)|]; lia.
  - destruct (Z.eqb_spec (2 * (x mod 2 ^ k)) (2 ^ k)),
             (Z.eqb_spec (2 * (y mod 2 ^ k)) (2 ^ k)); try lia.
    destruct (Z.even _); lia.
Qed.

Lemma rne_le (x c k : Z) : 0 <= k -> x <= c * 2 ^ k -> rne x k <= c.
Proof.
  intros Hk Hx. rewrite <- (rne_multiple c k Hk). by apply rne_mono.
Qed.

Lemma rne_ge (x c k : Z) : 0 <= k -> c * 2 ^ k <= x -> c <= rne x k.
Proof.
  intros Hk Hx. rewrite <- (rne_multiple c k Hk). by apply rne_mono.
Qed.

Lemma rne_scale (x k j : Z) :
  0 <= k -> 0 <= j -> rne (x * 2 ^ j) (k + j) = rne x k.
Proof.
  intros Hk Hj. pose proof (pow2_pos k Hk). pose proof (pow2_pos j Hj).
  unfold rne. rewrite Z.pow_add_r by lia.
  rewrite Z.div_mul_cancel_r by lia.
  rewrite Z.mul_mod_distr_r by lia.
  destruct (Z.ltb_spec (2 * (x mod 2 ^ k)) (2 ^ k)),
           (Z.ltb_spec (2 * (x mod 2 ^ k * 2 ^ j)) (2 ^ k * 2 ^ j));
    try done; try nia.
  destruct (Z.eqb_spec (2 * (x mod 2 ^ k)) (2 ^ k)),
           (Z.eqb_spec (2 * (x mod 2 ^ k * 2 ^ j)) (2 ^ k * 2 ^ j));
    try done; nia.
Qed.

Lemma round_to_scale (x k j : Z) :
  0 <= j -> round_to (x * 2 ^ j) (k + j) = round_to x k * 2 ^ j.
Proof.
  intros Hj. pose proof (pow2_pos j Hj). unfold round_to.
  destruct (Z.leb_spec k 0) as [Hk|Hk], (Z.leb_spec (k + j) 0) as [Hkj|Hkj];
    try lia.
  - replace (x * 2 ^ j) with (x * 2 ^ (- k) * 2 ^ (k + j)).
    + by rewrite rne_multiple by lia.
    + rewrite <- Z.mul_assoc, <- Z.pow_add_r by lia. do 2 f_equal. lia.
  - rewrite rne_scale by lia. rewrite Z.pow_add_r by lia. lia.
Qed.

Lemma round_to_mono (x y k : Z) : x <= y -> round_to x k <= round_to y k.
Proof.
  intros Hxy. unfold round_to. destruct (Z.leb_spec k 0) as [Hk|Hk]; [done|].
  pose proof (pow2_pos k ltac:(lia)).
  pose proof (rne_mono x y k ltac:(lia) Hxy). nia.
Qed.

(** *** The integer part *)

Lemma ifloor_scale (m e j : Z) :
  0 <= j -> ifloor (m * 2 ^ j) e = ifloor m (e + j).
Proof.
  intros Hj. unfold ifloor.
  destruct (Z.leb_spec 0 e) as [He|He], (Z.leb_spec 0 (e + j)) as [Hej|Hej];
    try lia.
  - rewrite Z.pow_add_r by lia. lia.
  - replace (2 ^ j) with (2 ^ (e + j) * 2 ^ (- e)).
    + rewrite Z.mul_assoc. apply Z.div_mul.
      pose proof (pow2_pos (- e) ltac:(lia)). lia.
    + rewrite <- Z.pow_add_r by lia. f_equal. lia.
  - replace (2 ^ (- e)) with (2 ^ (- (e + j)) * 2 ^ j).
    + apply Z.div_mul_cancel_r.
      * pose proof (pow2_pos (- (e + j)) ltac:(lia)). lia.
      * pose proof (pow2_pos j Hj). lia.
    + rewrite <- Z.pow_add_r by lia. f_equal. lia.
Qed.

Lemma ifloor_mono (m m' e : Z) : m <= m' -> ifloor m e <= ifloor m' e.
Proof.
  intros Hm. unfold ifloor. destruct (Z.leb_spec 0 e) as [He|He].
  - pose proof (pow2_pos e He). nia.
  - apply Z.div_le_mono; [|done]. apply pow2_pos. lia.
Qed.

Lemma ifloor_zero (e : Z) : ifloor 0 e = 0.
Proof. unfold ifloor. destruct (0 <=? e); [lia|]. apply Zdiv_0_l. Qed.

(** *** [binary_round_aux] on a positive mantissa *)

Lemma fexp_eq (e : Z) : fexp prec emax e = Z.max (e - 53) (-1074).
Proof. reflexivity. Qed.

Lemma shr_fexp_unfold (m : positive) (e : Z) :
  shr_fexp prec emax (Zpos m) e loc_Exact
  = shr (Build_shr_record (Zpos m) false false) e (shift_of m e).
Proof. reflexivity. Qed.

Lemma round_aux_exact (p : positive) (a : Z) :
  shift_of p a <= 0 -> a <= 971 ->
  binary_round_aux prec emax false (Zpos p) a loc_Exact
  = S754_finite false p a.
Proof.
  intros Hk Ha. unfold binary_round_aux.
  rewrite shr_fexp_unfold, shr_none by done.
  cbn [shr_m loc_of_shr_record round_nearest_even].
  rewrite shr_fexp_unfold, shr_none by done.
  cbn [shr_m]. change (emax - prec) with 971.
  by destruct (Z.leb_spec a 971); [|lia].
Qed.

Lemma to_int_finite (m : positive) (e : Z) :
  to_int (S754_finite false m e) = Ok (ifloor (Zpos m) e).
Proof. reflexivity. Qed.

Lemma digits_le_53 (q : positive) :
  Zpos q < 2 ^ 53 -> Zpos (digits2_pos q) <= 53.
Proof.
  intros Hq. pose proof (digits2_pos_bounds q) as [Hlo _].
  destruct (Z.le_gt_cases (Zpos (digits2_pos q)) 53) as [|Hgt]; [done|].
  assert (2 ^ 53 <= 2 ^ (Zpos (digits2_pos q) - 1))
    by (apply Z.pow_le_mono_r; lia).
  lia.
Qed.

Lemma shift_of_ge (p : positive) (a : Z) :
  Zpos (digits2_pos p) - 53 <= shift_of p a /\ -1074 <= a + shift_of p a.
Proof. unfold shift_of. rewrite fexp_eq. lia. Qed.

(** When bits are shifted out, the result is the rounded quotient at the
    new exponent; a carry to [2 ^ 53] moves one more bit without loss. *)
Lemma round_aux_shift (p : positive) (a : Z) :
  0 < shift_of p a -> a + shift_of p a < 971 ->
  to_int (binary_round_aux prec emax false (Zpos p) a loc_Exact)
  = Ok (ifloor (rne (Zpos p) (shift_of p a)) (a + shift_of p a)).
Proof.
  intros Hk He. pose proof (shift_of_ge p a) as [Hkd Hemin].
  set (k := shift_of p a) in *. set (E := a + k) in *.
  unfold binary_round_aux. rewrite shr_fexp_unfold. fold k.
  destruct (shr_exact_spec (Zpos p) a k ltac:(lia) Hk) as (mrs & -> & Hround).
  rewrite Hround. fold E.
  assert (Hlo : 0 <= rne (Zpos p) k) by (apply rne_ge; lia).
  assert (Hhi : rne (Zpos p) k <= 2 ^ 53).
  { apply rne_le; [lia|]. rewrite <- Z.pow_add_r by lia.
    pose proof (digits2_pos_bounds p) as [_ Hp].
    assert (2 ^ Zpos (digits2_pos p) <= 2 ^ (53 + k))
      by (apply Z.pow_le_mono_r; lia).
    lia. }
  destruct (rne (Zpos p) k) as [|q|q] eqn:Hq; [| |lia].
  - unfold shr_fexp. cbn [Zdigits2 shr_record_of_loc].
    rewrite shr_none by (rewrite fexp_eq; lia).
    cbn [shr_m]. by rewrite ifloor_zero.
  - rewrite shr_fexp_unfold.
    destruct (Z.eq_dec (Zpos q) (2 ^ 53)) as [Hcarry|Hno].
    + assert (q = 9007199254740992%positive) as -> by (injection Hcarry; done).
      assert (shift_of 9007199254740992 E = 1) as ->.
      { unfold shift_of. rewrite fexp_eq.
        change (Zpos (digits2_pos 9007199254740992)) with 54. lia. }
      cbn [shr SpecFloat.iter_pos shr_1 shr_m].
      change (emax - prec) with 971.
      destruct (Z.leb_spec (E + 1) 971); [|lia].
      rewrite to_int_finite.
      change (Zpos 9007199254740992) with (Zpos 4503599627370496 * 2 ^ 1).
      by rewrite ifloor_scale by lia.
    + assert (Hd : Zpos (digits2_pos q) <= 53) by (apply digits_le_53; lia).
      rewrite shr_none by (unfold shift_of; rewrite fexp_eq; lia).
      cbn [shr_m]. change (emax - prec) with 971.
      destruct (Z.leb_spec E 971); [|lia].
      by rewrite to_int_finite.
Qed.

(** The integer part of a rounded product, in all cases without
    overflow. *)
Lemma round_aux_int (p : positive) (a : Z) :
  Z.max (a + shift_of p a) a < 971 ->
  to_int (binary_round_aux prec emax false (Zpos p) a loc_Exact)
  = Ok (ifloor (round_to (Zpos p) (shift_of p a)) a).
Proof.
  intros He. unfold round_to.
  destruct (Z.leb_spec (shift_of p a) 0) as [Hk|Hk].
  - rewrite round_aux_exact by lia. apply to_int_finite.
  - rewrite round_aux_shift by lia. by rewrite ifloor_scale by lia.
Qed.

(** *** [float(n)] *)

Lemma iter_xO (p s : positive) :
  Zpos (Pos.iter xO p s) = Zpos p * 2 ^ Zpos s.
Proof.
  induction s as [|s IH] using Pos.peano_ind.
  - change (Pos.iter xO p 1) with (p~0)%positive.
    rewrite (Pos2Z.inj_xO p), Z.pow_1_r. lia.
  - rewrite Pos.iter_succ, Pos2Z.inj_xO, IH, Pos2Z.inj_succ.
    rewrite Z.pow_succ_r by lia. lia.
Qed.

(** An integer below [2 ^ 53] converts without rounding, to a mantissa
    of at most 53 bits at a non-positive exponent. *)
Lemma of_int_exact (p : positive) :
  Zpos p < 2 ^ 53 ->
  exists m e,
    of_int (Zpos p) = Ok (S754_finite false m e)
    /\ e <= 0 /\ Zpos m = Zpos p * 2 ^ (- e) /\ Zpos m < 2 ^ 53
    /\ e = Zpos (digits2_pos p) - 53.
Proof.
  intros Hp. pose proof (digits_le_53 p Hp) as Hd.
  pose proof (digits2_pos_bounds p) as [Hlo Hhi].
  unfold of_int, binary_normalize, binary_round, shl_align.
  rewrite fexp_eq. rewrite Z.add_0_r, Z.sub_0_r.
  rewrite Z.max_l by lia.
  destruct (Zpos (digits2_pos p) - 53) as [|s|s] eqn:Hs; [|lia|].
  - rewrite round_aux_exact; [|unfold shift_of; rewrite fexp_eq; lia|lia].
    exists p, 0. repeat split; try lia.
  - assert (Hm : Zpos (Pos.iter xO p s) < 2 ^ 53).
    { rewrite iter_xO.
      assert (2 ^ 53 = 2 ^ Zpos (digits2_pos p) * 2 ^ Zpos s) as ->.
      { rewrite <- Z.pow_add_r by lia. f_equal. lia. }
      pose proof (pow2_pos (Zpos s) ltac:(lia)). nia. }
    pose proof (digits_le_53 _ Hm).
    rewrite round_aux_exact; [|unfold shift_of; rewrite fexp_eq; lia|lia].
    exists (Pos.iter xO p s), (Zneg s). rewrite iter_xO.
    rewrite iter_xO in Hm. repeat split; try lia; done.
Qed.

(** *** The five percent margin *)

Lemma div_between (x q D : Z) :
  0 < D -> q * D <= x < (q + 1) * D -> x / D = q.
Proof.
  intros HD Hx. symmetry.
  apply (Z.div_unique x D q (x - q * D)); lia.
Qed.

Lemma digits_of_bounds (p : positive) (lo hi : Z) :
  2 ^ lo <= Zpos p < 2 ^ hi -> 0 <= lo ->
  lo < Zpos (digits2_pos p) <= hi.
Proof.
  intros [Hlo Hhi] H0. pose proof (digits2_pos_bounds p) as [Hdlo Hdhi].
  split.
  - destruct (Z.lt_ge_cases lo (Zpos (digits2_pos p))) as [|Hge]; [done|].
    assert (2 ^ Zpos (digits2_pos p) <= 2 ^ lo)
      by (apply Z.pow_le_mono_r; lia).
    lia.
  - destruct (Z.le_gt_cases (Zpos (digits2_pos p)) hi) as [|Hgt]; [done|].
    assert (2 ^ hi <= 2 ^ (Zpos (digits2_pos p) - 1))
      by (apply Z.pow_le_mono_r; lia).
    lia.
Qed.

(** For a context limit below [2 ^ 52] the double product with [0.05],
    truncated, is the twentieth part rounded down. *)
Lemma margin_five_percent (n : Z) :
  0 <= n < 2 ^ 52 -> safety_margin n = Ok (n / 20).
Proof.
  intros [Hn0 Hn]. destruct n as [|p|p]; [reflexivity| |lia].
  destruct (of_int_exact p ltac:(lia)) as (m & e & Hof & He & Hm & Hlt & Hde).
  unfold safety_margin, safety_margin_with, int_mul. rewrite Hof.
  cbn [mbind exc_bind mret exc_ret]. unfold mul, lit_0_05, SFmul.
  cbn [xorb].
  set (c := 7205759403792794%positive).
  set (P := (m * c)%positive). set (a := e + -57).
  pose proof (digits2_pos_bounds p) as [Hplo Hphi].
  assert (He1 : e <= -1).
  { pose proof (digits_of_bounds p 0 52 ltac:(lia) ltac:(lia)). lia. }
  set (S := 2 ^ (- e)) in *.
  assert (HS : 2 <= S).
  { unfold S. change 2 with (2 ^ 1) at 1. apply Z.pow_le_mono_r; lia. }
  assert (Hm52 : 2 ^ 52 <= Zpos m).
  { rewrite Hm. unfold S.
    assert (2 ^ 52 = 2 ^ (Zpos (digits2_pos p) - 1) * 2 ^ (- e)) as ->.
    { rewrite <- Z.pow_add_r by lia. f_equal. lia. }
    pose proof (pow2_pos (- e) ltac:(lia)). nia. }
  assert (HP : Zpos P = Zpos m * Zpos c) by (unfold P; lia).
  assert (Hd : 104 < Zpos (digits2_pos P) <= 106).
  { apply digits_of_bounds; [|lia]. rewrite HP. unfold c. nia. }
  assert (Hk : shift_of P a = Zpos (digits2_pos P) - 53).
  { unfold shift_of. rewrite fexp_eq. unfold a. lia. }
  rewrite round_aux_int by (rewrite Hk; unfold a; lia).
  unfold round_to. rewrite Hk.
  set (k := Zpos (digits2_pos P) - 53) in *.
  destruct (Z.leb_spec k 0) as [|_]; [lia|].
  rewrite ifloor_scale by lia. unfold ifloor.
  destruct (Z.leb_spec 0 (a + k)) as [|_]; [unfold a in *; lia|].
  f_equal. set (D := 2 ^ (- (a + k))).
  assert (HD : 0 < D) by (apply pow2_pos; unfold a; lia).
  assert (HK : 0 < 2 ^ k <= 2 ^ 53).
  { split; [apply pow2_pos; lia | apply Z.pow_le_mono_r; lia]. }
  assert (HDK : D * 2 ^ k = 2 ^ 57 * S).
  { unfold D, S. rewrite <- !Z.pow_add_r by (unfold a; lia).
    f_equal. unfold a. lia. }
  pose proof (Z.div_mod (Zpos p) 20 ltac:(lia)) as Hdiv.
  pose proof (Z.mod_pos_bound (Zpos p) 20 ltac:(lia)) as Hmod.
  set (q := Zpos p / 20) in *.
  assert (Hq0 : 0 <= q) by (apply Z.div_pos; lia).
  apply div_between; [done|]. split.
  - apply rne_ge; [lia|].
    replace (q * D * 2 ^ k) with (q * 2 ^ 57 * S) by lia.
    rewrite HP, Hm. unfold c.
    assert (q * 2 ^ 57 <= Zpos p * 7205759403792794) by lia.
    nia.
  - assert (rne (Zpos P) k <= (q + 1) * D - 1); [|lia].
    apply rne_le; [lia|].
    replace (((q + 1) * D - 1) * 2 ^ k)
      with ((q + 1) * S * 2 ^ 57 - 2 ^ k) by lia.
    rewrite HP. unfold c.
    assert (HT : Zpos m + S <= 20 * ((q + 1) * S)) by (rewrite Hm; nia).
    lia.
Qed.

(** *** Rounding is monotone *)

Lemma shift_of_at (p : positive) (a : Z) :
  shift_of p a = shift_at (Zpos (digits2_pos p)) a.
Proof. reflexivity. Qed.

(** Two positive values at the same exponent, each rounded at the shift
    its own size calls for, stay in order. *)
Lemma round_to_mono_digits (X Y dX dY a : Z) :
  0 < X <= Y ->
  2 ^ (dX - 1) <= X < 2 ^ dX -> 1 <= dX ->
  2 ^ (dY - 1) <= Y < 2 ^ dY -> 1 <= dY ->
  round_to X (shift_at dX a) <= round_to Y (shift_at dY a).
Proof.
  intros HXY HX HdX HY HdY.
  assert (Hd : dX <= dY).
  { destruct (Z.le_gt_cases dX dY) as [|Hgt]; [done|].
    assert (2 ^ dY <= 2 ^ (dX - 1)) by (apply Z.pow_le_mono_r; lia). lia. }
  destruct (Z.eq_dec (shift_at dX a) (shift_at dY a)) as [->|Hne].
  { apply round_to_mono. lia. }
  unfold shift_at in *.
  set (kx := Z.max (dX + a - 53) (-1074) - a) in *.
  set (ky := Z.max (dY + a - 53) (-1074) - a) in *.
  assert (Hky : ky = dY - 53) by lia.
  assert (Hkx : dX - 53 <= kx < ky) by lia.
  assert (Hup : round_to X kx <= 2 ^ (dY - 1)).
  { unfold round_to. destruct (Z.leb_spec kx 0) as [|Hpos].
    - assert (2 ^ dX <= 2 ^ (dY - 1)) by (apply Z.pow_le_mono_r; lia). lia.
    - assert (Hr : rne X kx <= 2 ^ (dY - 1 - kx)).
      { apply rne_le; [lia|]. rewrite <- Z.pow_add_r by lia.
        replace (dY - 1 - kx + kx) with (dY - 1) by lia.
        assert (2 ^ dX <= 2 ^ (dY - 1)) by (apply Z.pow_le_mono_r; lia).
        lia. }
      assert (2 ^ (dY - 1) = 2 ^ (dY - 1 - kx) * 2 ^ kx) as ->.
      { rewrite <- Z.pow_add_r by lia. f_equal. lia. }
      pose proof (pow2_pos kx ltac:(lia)). nia. }
  assert (Hdown : 2 ^ (dY - 1) <= round_to Y ky).
  { unfold round_to. destruct (Z.leb_spec ky 0) as [|Hpos]; [lia|].
    assert (Hr : 2 ^ (dY - 1 - ky) <= rne Y ky).
    { apply rne_ge; [lia|]. rewrite <- Z.pow_add_r by lia.
      replace (dY - 1 - ky + ky) with (dY - 1) by lia. lia. }
    assert (2 ^ (dY - 1) = 2 ^ (dY - 1 - ky) * 2 ^ ky) as ->.
    { rewrite <- Z.pow_add_r by lia. f_equal. lia. }
    pose proof (pow2_pos ky ltac:(lia)). nia. }
  lia.
Qed.

Lemma round_to_nonneg (x k : Z) : 0 <= x -> 0 <= round_to x k.
Proof.
  intros Hx. unfold round_to. destruct (Z.leb_spec k 0) as [|Hk]; [done|].
  pose proof (pow2_pos k ltac:(lia)).
  assert (0 <= rne x k) by (apply rne_ge; lia). nia.
Qed.

Lemma ifloor_nonneg (m e : Z) : 0 <= m -> 0 <= ifloor m e.
Proof. intros Hm. rewrite <- (ifloor_zero e). by apply ifloor_mono. Qed.

(** *** Valid doubles *)

Lemma bounded_facts (m : positive) (e : Z) :
  bounded prec emax m e = true ->
  Zpos m < 2 ^ 53 /\ -1074 <= e <= 971
  /\ (-1074 < e -> 2 ^ 52 <= Zpos m).
Proof.
  unfold bounded, canonical_mantissa. rewrite fexp_eq.
  change (emax - prec) with 971.
  intros H. apply andb_prop in H as [Hc He].
  apply Z.eqb_eq in Hc. apply Z.leb_le in He.
  pose proof (digits2_pos_bounds m) as [Hlo Hhi].
  split; [|split; [lia|]].
  - assert (2 ^ Zpos (digits2_pos m) <= 2 ^ 53)
      by (apply Z.pow_le_mono_r; lia).
    lia.
  - intros Hn. assert (Zpos (digits2_pos m) = 53) as Hd by lia.
    by rewrite Hd in Hlo.
Qed.

(** The order on valid positive doubles is the order of their values. *)
Lemma SFleb_values (m1 m2 : positive) (e1 e2 : Z) :
  bounded prec emax m1 e1 = true ->
  bounded prec emax m2 e2 = true ->
  SFleb (S754_finite false m1 e1) (S754_finite false m2 e2) = true ->
  e1 <= e2 /\ Zpos m1 <= Zpos m2 * 2 ^ (e2 - e1).
Proof.
  intros H1 H2 Hle.
  apply bounded_facts in H1 as (Hm1 & He1 & _).
  apply bounded_facts in H2 as (Hm2 & He2 & Hn2).
  unfold SFleb, SFcompare in Hle.
  destruct (Z.compare_spec e1 e2) as [->|Hlt|Hgt]; [| |discriminate].
  - split; [lia|]. rewrite Z.sub_diag, Z.mul_1_r.
    change (Pos.compare_cont Eq m1 m2) with (Pos.compare m1 m2) in Hle.
    destruct (Pos.compare_spec m1 m2); try discriminate; lia.
  - split; [lia|]. specialize (Hn2 ltac:(lia)).
    assert (2 ^ 1 <= 2 ^ (e2 - e1)) by (apply Z.pow_le_mono_r; lia).
    nia.
Qed.

(** *** The margin for an arbitrary fraction *)

Lemma margin_with_zero (n : Z) (b : bool) :
  0 <= n < 2 ^ 53 -> safety_margin_with (S754_zero b) n = Ok 0.
Proof.
  intros [Hn0 Hn]. destruct n as [|p|p]; [reflexivity| |lia].
  destruct (of_int_exact p Hn) as (m & e & Hof & _).
  unfold safety_margin_with, int_mul. by rewrite Hof.
Qed.

Lemma margin_zero_limit (f : spec_float) :
  (exists b, f = S754_zero b) \/ (exists m e, f = S754_finite false m e) ->
  safety_margin_with f 0 = Ok 0.
Proof. by intros [[b ->]|(m & e & ->)]. Qed.

(** The margin for a positive limit and a positive fraction of at most
    one: the rounded product, which cannot overflow. *)
Lemma margin_with_finite (p m mf : positive) (e ef : Z) :
  of_int (Zpos p) = Ok (S754_finite false m e) ->
  e <= 0 -> Zpos m < 2 ^ 53 ->
  bounded prec emax mf ef = true -> ef <= -52 ->
  safety_margin_with (S754_finite false mf ef) (Zpos p)
  = Ok (ifloor (round_to (Zpos m * Zpos mf)
                  (shift_of (m * mf) (e + ef))) (e + ef)).
Proof.
  intros Hof He Hlt Hb Hef.
  apply bounded_facts in Hb as (Hmf & _ & _).
  unfold safety_margin_with, int_mul. rewrite Hof.
  cbn [mbind exc_bind mret exc_ret]. unfold mul, SFmul. cbn [xorb].
  assert (Hd : Zpos (digits2_pos (m * mf)) <= 106).
  { apply (digits_of_bounds (m * mf) 0 106); [|lia].
    rewrite Pos2Z.inj_mul. split; [lia|].
    change (2 ^ 106) with (2 ^ 53 * 2 ^ 53). nia. }
  rewrite round_aux_int.
  - by rewrite Pos2Z.inj_mul.
  - unfold shift_of. rewrite fexp_eq. lia.
Qed.

Lemma SFleb_one (mf : positive) (ef : Z) :
  SFleb (S754_finite false mf ef) one = true -> ef <= -52.
Proof.
  unfold SFleb, SFcompare, one.
  destruct (Z.compare_spec ef (-52)); [lia|lia|discriminate].
Qed.

(** A larger fraction never gives a smaller margin. *)
Lemma margin_mono_fraction (n : Z) (f1 f2 : spec_float) :
  0 <= n < 2 ^ 53 ->
  valid_binary prec emax f1 = true ->
  valid_binary prec emax f2 = true ->
  SFleb (S754_zero false) f1 = true ->
  SFleb f1 f2 = true ->
  SFleb f2 Float64.one = true ->
  exists s1 s2,
    safety_margin_with f1 n = Ok s1
    /\ safety_margin_with f2 n = Ok s2
    /\ 0 <= s1 <= s2.
Proof.
  intros Hn Hv1 Hv2 H01 H12 H21.
  destruct f1 as [b1|[|]| |[|] m1 e1]; try discriminate;
    destruct f2 as [b2|[|]| |[|] m2 e2]; try discriminate.
  - exists 0, 0. rewrite !margin_with_zero by done.
    split; [done|]. split; [done|]. lia.
  - destruct n as [|p|p]; [by exists 0, 0| |lia].
    destruct (of_int_exact p (proj2 Hn)) as (m & e & Hof & He & Hm & Hlt & _).
    exists 0. eexists. rewrite margin_with_zero by done.
    rewrite (margin_with_finite p m m2 e e2 Hof He Hlt Hv2
               (SFleb_one _ _ H21)).
    split; [done|]. split; [done|]. split; [lia|].
    apply ifloor_nonneg, round_to_nonneg. lia.
  - destruct n as [|p|p]; [by exists 0, 0| |lia].
    pose proof (SFleb_one _ _ H21) as He2.
    destruct (SFleb_values m1 m2 e1 e2 Hv1 Hv2 H12) as [He12 Hm12].
    destruct (of_int_exact p (proj2 Hn)) as (m & e & Hof & He & Hm & Hlt & _).
    rewrite (margin_with_finite p m m1 e e1 Hof He Hlt Hv1 ltac:(lia)).
    rewrite (margin_with_finite p m m2 e e2 Hof He Hlt Hv2 He2).
    eexists. eexists. split; [done|]. split; [done|].
    split; [apply ifloor_nonneg, round_to_nonneg; lia|].
    set (j := e2 - e1). set (a := e + e1).
    replace (e + e2) with (a + j) by (unfold a, j; lia).
    rewrite <- ifloor_scale by (unfold j; lia).
    rewrite <- round_to_scale by (unfold j; lia).
    apply ifloor_mono.
    pose proof (digits2_pos_bounds (m * m1)) as Hd1.
    pose proof (digits2_pos_bounds (m * m2)) as Hd2.
    rewrite !Pos2Z.inj_mul in Hd1, Hd2.
    pose proof (pow2_pos j ltac:(unfold j; lia)) as Hj.
    replace (shift_of (m * m2) (a + j) + j)
      with (shift_at (Zpos (digits2_pos (m * m2)) + j) a)
      by (unfold shift_of, shift_at; rewrite fexp_eq; lia).
    rewrite shift_of_at.
    apply round_to_mono_digits; try lia.
    + split; [lia|]. rewrite <- Z.mul_assoc.
      apply Z.mul_le_mono_nonneg_l; [lia | exact Hm12].
    + replace (Zpos (digits2_pos (m * m2)) + j - 1)
        with (Zpos (digits2_pos (m * m2)) - 1 + j) by lia.
      rewrite !Z.pow_add_r by (unfold j; lia).
      split.
      * apply Z.mul_le_mono_nonneg_r; lia.
      * apply Z.mul_lt_mono_pos_r; lia.
Qed.

End RoundingFacts.

(** ** C3, C7: the available budget *)

Import RoundingFacts.

Lemma five_percent (n : Z) : n * 5 / 100 = n / 20.
Proof. change 100 with (20 * 5). apply Z.div_mul_cancel_r; lia. Qed.

(** C3. For a context limit from 0 up to [2 ^ 52] the budget computation
    yields the limit minus the reserved tokens (estimate of the system
    prompt, estimate of the template rendered with an empty content slot,
    reserved output tokens) minus five percent of the limit rounded down,
    whenever the template renders; when rendering raises, so does the
    computation. The fraction is the literal 0.05 of the code. *)
Theorem available_tokens_formula
    (str_format : string -> string -> string -> exc string)
    (system_prompt user_prompt_template filename : string)
    (max_context_tokens max_output_tokens : Z) :
  0 <= max_context_tokens < 2 ^ 52 ->
  available_tokens str_format system_prompt user_prompt_template filename
    max_context_tokens max_output_tokens
  = (user_wrapper ← str_format user_prompt_template filename EmptyString;
     mret (max_context_tokens
           - (_estimate_tokens system_prompt + _estimate_tokens user_wrapper
              + max_output_tokens)
           - max_context_tokens * 5 / 100)).
Proof.
  intros Hctx. unfold available_tokens, available_tokens_with.
  destruct (str_format user_prompt_template filename EmptyString)
    as [user_wrapper|e]; [|reflexivity].
  cbn [mbind exc_bind mret exc_ret].
  change (safety_margin_with Float64.lit_0_05 max_context_tokens)
    with (safety_margin max_context_tokens).
  rewrite margin_five_percent by done.
  by rewrite five_percent.
Qed.

Lemma available_tokens_formula_witness :
  available_tokens format_named system_prompt user_prompt_template
    "physics.pdf" 128000 16000
  = (user_wrapper ← format_named user_prompt_template "physics.pdf" EmptyString;
     mret (128000
           - (_estimate_tokens system_prompt + _estimate_tokens user_wrapper
              + 16000)
           - 128000 * 5 / 100)).
Proof.
  apply (available_tokens_formula format_named system_prompt
           user_prompt_template "physics.pdf" 128000 16000).
  lia.
Defined.

(** The scenario of the specification: 128000 tokens of context, 16000
    reserved for the output, the prompts of the converter. *)
Example available_tokens_scenario :
  available_tokens format_named system_prompt user_prompt_template
    "physics.pdf" 128000 16000 = Ok (128000 - (726 + 38) - 16000 - 6400).
Proof. vm_compute. reflexivity. Qed.

Section Monotone.

Variable str_format : string -> string -> string -> exc string.
Variables system_prompt user_prompt_template filename : string.

(** More reserved output, less budget; for any fraction and limit. *)
Lemma available_tokens_antitone_output (fraction : spec_float)
    (max_context_tokens r1 r2 a1 : Z) :
  r1 <= r2 ->
  available_tokens_with str_format fraction system_prompt
    user_prompt_template filename max_context_tokens r1 = Ok a1 ->
  exists a2,
    available_tokens_with str_format fraction system_prompt
      user_prompt_template filename max_context_tokens r2 = Ok a2
    /\ a2 <= a1.
Proof.
  intros Hr. unfold available_tokens_with.
  destruct (str_format _ _ _) as [w|e]; [|discriminate].
  cbn [mbind exc_bind mret exc_ret].
  destruct (safety_margin_with _ _) as [s|e]; [|discriminate].
  intros [= <-]. eexists. split; [reflexivity|]. lia.
Qed.

(** A larger fraction, less budget. *)
Lemma available_tokens_antitone_fraction (f1 f2 : spec_float)
    (max_context_tokens max_output_tokens a1 : Z) :
  0 <= max_context_tokens < 2 ^ 53 ->
  valid_binary Float64.prec Float64.emax f1 = true ->
  valid_binary Float64.prec Float64.emax f2 = true ->
  SFleb (S754_zero false) f1 = true ->
  SFleb f1 f2 = true ->
  SFleb f2 Float64.one = true ->
  available_tokens_with str_format f1 system_prompt user_prompt_template
    filename max_context_tokens max_output_tokens = Ok a1 ->
  exists a2,
    available_tokens_with str_format f2 system_prompt user_prompt_template
      filename max_context_tokens max_output_tokens = Ok a2
    /\ a2 <= a1.
Proof.
  intros Hctx Hv1 Hv2 H01 H12 H21.
  destruct (margin_mono_fraction max_context_tokens f1 f2
              Hctx Hv1 Hv2 H01 H12 H21) as (s1 & s2 & Hs1 & Hs2 & Hle).
  unfold available_tokens_with.
  destruct (str_format _ _ _) as [w|e]; [|discriminate].
  cbn [mbind exc_bind mret exc_ret]. rewrite Hs1, Hs2.
  intros [= <-]. eexists. split; [reflexivity|]. lia.
Qed.

End Monotone.

(** C7. With everything else fixed, the available budget does not grow
    when the reserved output tokens grow, and does not grow when the
    safety-margin fraction grows. The code has the fraction as the literal
    0.05; the second part is about the same computation with the literal
    made an argument, for doubles between 0 and 1 and a context limit from
    0 up to [2 ^ 53]. In both parts the larger input yields a result
    whenever the smaller one does. *)
Theorem available_tokens_monotone
    (str_format : string -> string -> string -> exc string)
    (system_prompt user_prompt_template filename : string)
    (max_context_tokens : Z) :
  (forall (max_output_tokens r2 a1 : Z),
     max_output_tokens <= r2 ->
     available_tokens str_format system_prompt user_prompt_template filename
       max_context_tokens max_output_tokens = Ok a1 ->
     exists a2,
       available_tokens str_format system_prompt user_prompt_template
         filename max_context_tokens r2 = Ok a2
       /\ a2 <= a1)
  /\ (forall (f1 f2 : spec_float) (max_output_tokens a1 : Z),
        0 <= max_context_tokens < 2 ^ 53 ->
        valid_binary Float64.prec Float64.emax f1 = true ->
        valid_binary Float64.prec Float64.emax f2 = true ->
        SFleb (S754_zero false) f1 = true ->
        SFleb f1 f2 = true ->
        SFleb f2 Float64.one = true ->
        available_tokens_with str_format f1 system_prompt
          user_prompt_template filename max_context_tokens max_output_tokens
          = Ok a1 ->
        exists a2,
          available_tokens_with str_format f2 system_prompt
            user_prompt_template filename max_context_tokens
            max_output_tokens = Ok a2
          /\ a2 <= a1).
Proof.
  split.
  - intros r1 r2 a1. apply available_tokens_antitone_output.
  - intros f1 f2 r a1. apply available_tokens_antitone_fraction.
Qed.

Lemma available_tokens_monotone_witness :
  (exists a2,
     available_tokens format_named system_prompt user_prompt_template
       "physics.pdf" 128000 16000 = Ok a2
     /\ a2 <= 112836)
  /\ (exists a2,
        available_tokens_with format_named lit_0_1 system_prompt
          user_prompt_template "physics.pdf" 128000 8000 = Ok a2
        /\ a2 <= 112836).
Proof.
  destruct (available_tokens_monotone format_named system_prompt
              user_prompt_template "physics.pdf" 128000) as [Hout Hfrac].
  split.
  - apply (Hout 8000 16000 112836); [lia|]. vm_compute. reflexivity.
  - apply (Hfrac Float64.lit_0_05 lit_0_1 8000 112836).
    + lia.
    + reflexivity.
    + reflexivity.
    + reflexivity.
    + reflexivity.
    + reflexivity.
    + vm_compute. reflexivity.
Defined.

Example available_tokens_at_ten_percent :
  available_tokens_with format_named lit_0_1 system_prompt
    user_prompt_template "physics.pdf" 128000 8000 = Ok 106436.
Proof. vm_compute. reflexivity. Qed.

(** * Further properties of the code *)

(** ** [convert_to_json]: what is logged and what is raised *)

Lemma log_bind_Ok {A B} (c : logged A) (k : A -> logged B) (b : B) :
  (log_bind c k).1 = Ok b ->
  exists a, c.1 = Ok a /\ (k a).1 = Ok b
            /\ (log_bind c k).2 = c.2 ++ (k a).2.
Proof.
  unfold log_bind. destruct c as [[a|e] l]; simpl; [|discriminate].
  intros H. by exists a.
Qed.

Lemma log_bind_Err {A B} (c : logged A) (k : A -> logged B) (e : exn) :
  c.1 = Err e -> log_bind c k = (Err e, c.2).
Proof. unfold log_bind. by intros ->. Qed.

Section ConverterRuns.

Variable str_format : string -> string -> string -> exc string.
Variable json_loads : string -> exc json.
Variable environ : gmap string string.
Variable chat_completion : string -> string -> Z -> exc string.

Local Abbreviation convert_body :=
  (convert_body str_format json_loads environ chat_completion).
Local Abbreviation convert_to_json :=
  (convert_to_json str_format json_loads environ chat_completion).

Lemma parse_response_Ok (response_text : string) (document : json) :
  (parse_response json_loads response_text).1 = Ok document ->
  json_loads response_text = Ok document
  /\ Forall (fun record => level record <> ERROR)
       (parse_response json_loads response_text).2.
Proof.
  unfold parse_response. destruct (json_loads response_text) as [doc|e].
  - destruct (truthy _); simpl; intros [= ->];
      (split; [done|]); by repeat constructor.
  - destruct (bool_decide _); simpl; discriminate.
Qed.

Lemma parse_response_loaded (response_text : string) (document : json) :
  json_loads response_text = Ok document ->
  (parse_response json_loads response_text).1 = Ok document.
Proof.
  intros H. unfold parse_response. rewrite H. by destruct (truthy _).
Qed.

Lemma truncate_log_no_error (text : string) (available : Z) :
  Forall (fun record => level record <> ERROR)
    (truncate_to_fit text available).2.
Proof.
  unfold truncate_to_fit. destruct (_ <=? _); simpl; by repeat constructor.
Qed.

(** A run of the body that returns went through every stage. *)
Lemma convert_body_Ok (text_content filename : string) (document : json) :
  (convert_body text_content filename).1 = Ok document ->
  exists max_tokens truncated user_prompt content,
    select_max_tokens environ (len text_content) = Ok max_tokens
    /\ _truncate_to_token_limit str_format text_content system_prompt
         user_prompt_template filename MODEL_CONTEXT_LIMIT max_tokens
       = Ok truncated
    /\ str_format user_prompt_template filename truncated.1 = Ok user_prompt
    /\ chat_completion system_prompt user_prompt max_tokens = Ok content
    /\ json_loads (strip content) = Ok document
    /\ Forall (fun record => level record <> ERROR)
         (convert_body text_content filename).2.
Proof.
  intros H.
  destruct (select_max_tokens environ (len text_content)) as [mt|e] eqn:Hmt.
  2:{ unfold convert_body in H. cbv zeta in H. rewrite Hmt in H.
      by rewrite (log_bind_Err _ _ e) in H. }
  destruct (_truncate_to_token_limit str_format text_content system_prompt
              user_prompt_template filename MODEL_CONTEXT_LIMIT mt)
    as [tr|e] eqn:Htr.
  2:{ unfold convert_body in H. cbv zeta in H.
      rewrite Hmt, log_bind_lift_ok, Htr in H.
      by rewrite (log_bind_Err _ _ e) in H. }
  destruct (str_format user_prompt_template filename tr.1) as [up|e] eqn:Hup.
  2:{ unfold convert_body in H. cbv zeta in H.
      rewrite Hmt, log_bind_lift_ok, Htr, log_bind_lift_ok in H.
      rewrite log_bind_written, Hup in H.
      by rewrite (log_bind_Err _ _ e) in H. }
  destruct (chat_completion system_prompt up mt) as [content|e] eqn:Hchat.
  2:{ unfold convert_body in H. cbv zeta in H.
      rewrite Hmt, log_bind_lift_ok, Htr, log_bind_lift_ok in H.
      rewrite log_bind_written, Hup, log_bind_lift_ok in H.
      unfold log_emit in H. rewrite log_bind_written, Hchat in H.
      by rewrite (log_bind_Err _ _ e) in H. }
  rewrite (convert_body_reaches_parse str_format json_loads environ
             chat_completion text_content filename mt tr up content
             Hmt Htr Hup Hchat) in H |- *.
  simpl in H. apply parse_response_Ok in H as [Hl Hlog].
  exists mt, tr, up, content.
  split; [done|]. split; [done|]. split; [done|]. split; [done|].
  split; [done|].
  cbn [snd]. rewrite !Forall_app. split; [|split].
  - unfold _truncate_to_token_limit in Htr.
    destruct (available_tokens _ _ _ _ _ _); [|discriminate].
    injection Htr as <-. apply truncate_log_no_error.
  - by repeat constructor.
  - done.
Qed.

Lemma convert_body_loaded (text_content filename : string) (max_tokens : Z)
    (truncated : string * list log_record) (user_prompt content : string)
    (document : json) :
  select_max_tokens environ (len text_content) = Ok max_tokens ->
  _truncate_to_token_limit str_format text_content system_prompt
    user_prompt_template filename MODEL_CONTEXT_LIMIT max_tokens
    = Ok truncated ->
  str_format user_prompt_template filename truncated.1 = Ok user_prompt ->
  chat_completion system_prompt user_prompt max_tokens = Ok content ->
  json_loads (strip content) = Ok document ->
  (convert_body text_content filename).1 = Ok document.
Proof.
  intros Hmt Htr Hup Hchat Hl.
  rewrite (convert_body_reaches_parse str_format json_loads environ
             chat_completion text_content filename max_tokens truncated
             user_prompt content Hmt Htr Hup Hchat).
  by apply parse_response_loaded.
Qed.

Lemma convert_to_json_fst (text_content filename : string) :
  (convert_to_json text_content filename).1
  = (convert_body text_content filename).1.
Proof.
  unfold convert_to_json.
  by destruct (convert_body text_content filename) as [[doc|e] l].
Qed.

End ConverterRuns.

(** X1. [convert_to_json] returns a document exactly when every stage
    succeeded: the output reservation was read, the template rendered
    with the (possibly truncated) text, the service replied, and the
    stripped reply parsed; the document returned is the parsed reply
    itself, whether or not it passes validation. *)
Theorem convert_to_json_returns_parsed_reply
    (str_format : string -> string -> string -> exc string)
    (json_loads : string -> exc json)
    (environ : gmap string string)
    (chat_completion : string -> string -> Z -> exc string)
    (text_content filename : string) (document : json) :
  (convert_to_json str_format json_loads environ chat_completion
     text_content filename).1 = Ok document
  <-> exists max_tokens truncated user_prompt content,
        select_max_tokens environ (len text_content) = Ok max_tokens
        /\ _truncate_to_token_limit str_format text_content system_prompt
             user_prompt_template filename MODEL_CONTEXT_LIMIT max_tokens
           = Ok truncated
        /\ str_format user_prompt_template filename truncated.1
           = Ok user_prompt
        /\ chat_completion system_prompt user_prompt max_tokens = Ok content
        /\ json_loads (strip content) = Ok document.
Proof.
  rewrite convert_to_json_fst. split.
  - intros H. apply convert_body_Ok in H
      as (mt & tr & up & content & ? & ? & ? & ? & ? & _).
    by exists mt, tr, up, content.
  - intros (mt & tr & up & content & Hmt & Htr & Hup & Hchat & Hl).
    by eapply convert_body_loaded.
Qed.

Lemma convert_to_json_quiet
    (str_format : string -> string -> string -> exc string)
    (json_loads : string -> exc json)
    (environ : gmap string string)
    (chat_completion : string -> string -> Z -> exc string)
    (text_content filename : string) (document : json) :
  (convert_to_json str_format json_loads environ chat_completion
     text_content filename).1 = Ok document ->
  Forall (fun record => level record <> ERROR)
    (convert_to_json str_format json_loads environ chat_completion
       text_content filename).2.
Proof.
  unfold convert_to_json.
  destruct (convert_body str_format json_loads environ chat_completion
              text_content filename) as [[doc|e] l] eqn:Hb; simpl; [|done].
  intros _.
  pose proof (convert_body_Ok str_format json_loads environ
                chat_completion text_content filename doc) as H.
  rewrite Hb in H. specialize (H eq_refl).
  by destruct H as (? & ? & ? & ? & _ & _ & _ & _ & _ & H).
Qed.

Lemma convert_to_json_loud
    (str_format : string -> string -> string -> exc string)
    (json_loads : string -> exc json)
    (environ : gmap string string)
    (chat_completion : string -> string -> Z -> exc string)
    (text_content filename : string) (e : exn) :
  (convert_to_json str_format json_loads environ chat_completion
     text_content filename).1 = Err e ->
  last (convert_to_json str_format json_loads environ chat_completion
          text_content filename).2
  = Some (LogRecord ERROR ("Error converting to JSON: " +:+ exn_str e)).
Proof.
  unfold convert_to_json.
  destruct (convert_body str_format json_loads environ chat_completion
              text_content filename) as [[doc|e'] l]; simpl; [done|].
  intros [= ->]. by rewrite last_snoc.
Qed.

(** X2. Whatever happens, the log tells the outcome: when
    [convert_to_json] raises [e], the last record is the ERROR line
    [Error converting to JSON: str(e)]; when it returns, nothing was
    logged at ERROR level. *)
Theorem convert_to_json_error_logged
    (str_format : string -> string -> string -> exc string)
    (json_loads : string -> exc json)
    (environ : gmap string string)
    (chat_completion : string -> string -> Z -> exc string)
    (text_content filename : string) :
  match (convert_to_json str_format json_loads environ chat_completion
           text_content filename).1 with
  | Ok _ =>
      Forall (fun record => level record <> ERROR)
        (convert_to_json str_format json_loads environ chat_completion
           text_content filename).2
  | Err e =>
      last (convert_to_json str_format json_loads environ chat_completion
              text_content filename).2
      = Some (LogRecord ERROR ("Error converting to JSON: " +:+ exn_str e))
  end.
Proof.
  destruct (convert_to_json str_format json_loads environ chat_completion
              text_content filename).1 as [doc|e] eqn:H.
  - by apply convert_to_json_quiet in H.
  - by apply convert_to_json_loud in H.
Qed.

(** X3. A reply that is not JSON is a hard failure: when [json.loads]
    raises [JSONDecodeError], [convert_to_json] raises [ValueError] with
    the parser's message, after logging the parse failure, the first 500
    characters of the reply, and the conversion error, all at ERROR
    level; no document is substituted. *)
Theorem convert_to_json_rejects_malformed_reply
    (str_format : string -> string -> string -> exc string)
    (json_loads : string -> exc json)
    (environ : gmap string string)
    (chat_completion : string -> string -> Z -> exc string)
    (text_content filename : string) (max_tokens : Z)
    (truncated : string * list log_record)
    (user_prompt content : string) (e : exn) :
  select_max_tokens environ (len text_content) = Ok max_tokens ->
  _truncate_to_token_limit str_format text_content system_prompt
    user_prompt_template filename MODEL_CONTEXT_LIMIT max_tokens
    = Ok truncated ->
  str_format user_prompt_template filename truncated.1 = Ok user_prompt ->
  chat_completion system_prompt user_prompt max_tokens = Ok content ->
  json_loads (strip content) = Err e ->
  exn_class e = "JSONDecodeError" ->
  (convert_to_json str_format json_loads environ chat_completion
     text_content filename).1
  = Err (Exn "ValueError"
           ("Invalid JSON response from OpenAI: " +:+ exn_str e))
  /\ (convert_to_json str_format json_loads environ chat_completion
        text_content filename).2
     = truncated.2 ++
       [LogRecord INFO
          ("Sending request to OpenAI API... (Content: " +:+
           str_of_Z (len truncated.1) +:+
           " chars, Max output tokens: " +:+ str_of_Z max_tokens +:+ ")");
        LogRecord ERROR ("Failed to parse JSON response: " +:+ exn_str e);
        LogRecord ERROR
          ("Response text: " +:+ slice_to (strip content) 500);
        LogRecord ERROR
          ("Error converting to JSON: " +:+
           "Invalid JSON response from OpenAI: " +:+ exn_str e)].
Proof.
  intros Hmt Htr Hup Hchat Hl Hcls. unfold convert_to_json.
  rewrite (convert_body_reaches_parse str_format json_loads environ
             chat_completion text_content filename max_tokens truncated
             user_prompt content Hmt Htr Hup Hchat).
  unfold parse_response. rewrite Hl, bool_decide_true by done. simpl.
  split; [done|]. rewrite <- !app_assoc. reflexivity.
Qed.

(** X4. A setting of [MAX_OUTPUT_TOKENS] that is not an integer makes
    every conversion fail before the service is asked: the [ValueError]
    of [int()] is raised and logged, whatever the text, the service and
    the parser are. *)
Theorem convert_to_json_rejects_bad_setting
    (str_format : string -> string -> string -> exc string)
    (json_loads : string -> exc json)
    (environ : gmap string string)
    (chat_completion : string -> string -> Z -> exc string)
    (text_content filename setting : string) (e : exn) :
  environ !! "MAX_OUTPUT_TOKENS" = Some setting ->
  int_of_str setting = Err e ->
  convert_to_json str_format json_loads environ chat_completion
    text_content filename
  = (Err e, [LogRecord ERROR ("Error converting to JSON: " +:+ exn_str e)]).
Proof.
  intros Hs He. unfold convert_to_json, convert_body. cbv zeta.
  rewrite select_max_tokens_cases, Hs, He.
  by rewrite (log_bind_Err _ _ e).
Qed.


Lemma convert_to_json_rejects_malformed_reply_witness :
  (convert_to_json format_named canned_loads ∅ canned_prose
     "Newton's laws of motion" "physics.pdf").1
  = Err (Exn "ValueError"
           ("Invalid JSON response from OpenAI: " +:+
            "Expecting value: line 1 column 1 (char 0)"))
  /\ (convert_to_json format_named canned_loads ∅ canned_prose
        "Newton's laws of motion" "physics.pdf").2
     = [LogRecord INFO
          "Sending request to OpenAI API... (Content: 23 chars, Max output tokens: 4000)";
        LogRecord ERROR
          "Failed to parse JSON response: Expecting value: line 1 column 1 (char 0)";
        LogRecord ERROR "Response text: Here is the JSON you asked for.";
        LogRecord ERROR
          "Error converting to JSON: Invalid JSON response from OpenAI: Expecting value: line 1 column 1 (char 0)"].
Proof.
  eapply (convert_to_json_rejects_malformed_reply format_named canned_loads ∅
            canned_prose "Newton's laws of motion" "physics.pdf" 4000
            ("Newton's laws of motion", []) _
            "Here is the JSON you asked for."
            (Exn "JSONDecodeError"
               "Expecting value: line 1 column 1 (char 0)")).
  - vm_compute. reflexivity.
  - vm_compute. reflexivity.
  - vm_compute. reflexivity.
  - reflexivity.
  - vm_compute. reflexivity.
  - reflexivity.
Defined.

Lemma convert_to_json_rejects_bad_setting_witness :
  convert_to_json format_named canned_loads {[ "MAX_OUTPUT_TOKENS" := "8k" ]}
    canned_reply "Newton's laws of motion" "physics.pdf"
  = (Err (Exn "ValueError" "invalid literal for int() with base 10: '8k'"),
     [LogRecord ERROR
        "Error converting to JSON: invalid literal for int() with base 10: '8k'"]).
Proof.
  apply (convert_to_json_rejects_bad_setting format_named canned_loads
           {[ "MAX_OUTPUT_TOKENS" := "8k" ]} canned_reply
           "Newton's laws of motion" "physics.pdf" "8k"
           (Exn "ValueError" "invalid literal for int() with base 10: '8k'")).
  - reflexivity.
  - vm_compute. reflexivity.
Defined.

(** ** The budget in deployment *)

Lemma notice_length : len TRUNCATION_NOTICE = 106.
Proof. vm_compute. reflexivity. Qed.

Lemma system_prompt_tokens : _estimate_tokens system_prompt = 726.
Proof. vm_compute. reflexivity. Qed.

Lemma tokens_append (a b : string) :
  _estimate_tokens a + _estimate_tokens b <= _estimate_tokens (a +:+ b)
  /\ _estimate_tokens (a +:+ b) <= _estimate_tokens a + _estimate_tokens b + 1.
Proof.
  pose proof (estimate_tokens_bounds a) as Ha.
  pose proof (estimate_tokens_bounds b) as Hb.
  pose proof (estimate_tokens_bounds (a +:+ b)) as H. rewrite len_append in H.
  lia.
Qed.

(** The budget of the converter's own call: 128000 tokens of context, of
    which 726 go to the system prompt and 6400 to the margin. *)
Lemma available_tokens_deployed
    (str_format : string -> string -> string -> exc string)
    (filename wrapper : string) (max_tokens : Z) :
  str_format user_prompt_template filename EmptyString = Ok wrapper ->
  available_tokens str_format system_prompt user_prompt_template filename
    MODEL_CONTEXT_LIMIT max_tokens
  = Ok (120874 - _estimate_tokens wrapper - max_tokens).
Proof.
  intros Hw. unfold available_tokens, available_tokens_with. rewrite Hw.
  cbn [mbind exc_bind mret exc_ret].
  change (safety_margin_with Float64.lit_0_05 MODEL_CONTEXT_LIMIT)
    with (safety_margin 128000).
  rewrite margin_five_percent by lia.
  rewrite system_prompt_tokens. unfold MODEL_CONTEXT_LIMIT.
  change (128000 / 20) with 6400. apply (f_equal (@Ok Z)). lia.
Qed.

(** X5. With [MAX_OUTPUT_TOKENS] unset and a rendered wrapper of at most
    1000 characters, [convert_to_json] reserves the tier of the text and
    budgets it against 128000 tokens: a text of up to 418000 characters
    is passed on whole and nothing is logged, while one of 419500
    characters or more is always cut, to the first
    [4 * (104874 - wrapper tokens)] characters followed by the notice. *)
Theorem default_budget_truncation_threshold
    (str_format : string -> string -> string -> exc string)
    (environ : gmap string string)
    (text_content filename wrapper : string) :
  environ !! "MAX_OUTPUT_TOKENS" = None ->
  str_format user_prompt_template filename EmptyString = Ok wrapper ->
  len wrapper <= 1000 ->
  exists max_tokens r,
    select_max_tokens environ (len text_content) = Ok max_tokens
    /\ _truncate_to_token_limit str_format text_content system_prompt
         user_prompt_template filename MODEL_CONTEXT_LIMIT max_tokens = Ok r
    /\ (len text_content <= 418000 -> r = (text_content, []))
    /\ (419500 <= len text_content ->
        was_truncated r = true
        /\ r.1 = String.substring 0
                   (Z.to_nat (4 * (104874 - _estimate_tokens wrapper)))
                   text_content
                 +:+ TRUNCATION_NOTICE).
Proof.
  intros Henv Hw Hlen.
  pose proof (estimate_tokens_bounds wrapper) as Hwb.
  pose proof (len_nonneg wrapper) as Hw0.
  pose proof (estimate_tokens_bounds text_content) as Htb.
  rewrite select_max_tokens_cases, Henv.
  eexists _, _. split; [reflexivity|]. split.
  { apply truncate_to_token_limit_unfold.
    by apply available_tokens_deployed. }
  split.
  - intros Hsmall. apply truncate_to_fit_fits.
    destruct (Z.ltb_spec 300000 (len text_content)); [lia|].
    destruct (Z.ltb_spec 100000 (len text_content)); lia.
  - intros Hbig.
    destruct (Z.ltb_spec 300000 (len text_content)); [|lia].
    rewrite truncate_to_fit_cuts by lia. split; [done|]. simpl.
    rewrite slice_to_nonneg by lia. do 3 f_equal. lia.
Qed.

Lemma default_budget_truncation_threshold_witness :
  exists max_tokens r,
    select_max_tokens ∅ (len "Newton's laws of motion") = Ok max_tokens
    /\ _truncate_to_token_limit format_named "Newton's laws of motion"
         system_prompt user_prompt_template "physics.pdf"
         MODEL_CONTEXT_LIMIT max_tokens = Ok r
    /\ (len "Newton's laws of motion" <= 418000 ->
        r = ("Newton's laws of motion", []))
    /\ (419500 <= len "Newton's laws of motion" ->
        was_truncated r = true
        /\ r.1 = String.substring 0
                   (Z.to_nat (4 * (104874 - _estimate_tokens
                      "Please analyze the following content and convert it to the required JSON format.

Filename: physics.pdf

Content:


Return the JSON structure as specified.")))
                   "Newton's laws of motion"
                 +:+ TRUNCATION_NOTICE).
Proof.
  apply (default_budget_truncation_threshold format_named ∅
           "Newton's laws of motion" "physics.pdf").
  - reflexivity.
  - vm_compute. reflexivity.
  - vm_compute. discriminate.
Defined.

(** X6. The purpose of the margin. Whenever the budget is not negative,
    the request that is built from the text [_truncate_to_token_limit]
    returns stays within the context limit by the code's own estimate:
    system prompt, rendered user prompt and reserved output together are
    at most [max_context_tokens], although a cut text carries the notice
    on top of its budget. This holds for limits from 540 tokens up (five
    percent then cover the notice) and for a rendering that adds the
    text to the wrapper. *)
Theorem request_within_context_limit
    (str_format : string -> string -> string -> exc string)
    (text system_prompt template filename wrapper user_prompt : string)
    (max_context_tokens max_output_tokens : Z)
    (r : string * list log_record) :
  540 <= max_context_tokens < 2 ^ 52 ->
  _truncate_to_token_limit str_format text system_prompt template filename
    max_context_tokens max_output_tokens = Ok r ->
  0 <= max_context_tokens
       - (_estimate_tokens system_prompt + _estimate_tokens wrapper
          + max_output_tokens)
       - max_context_tokens / 20 ->
  str_format template filename EmptyString = Ok wrapper ->
  str_format template filename r.1 = Ok user_prompt ->
  len user_prompt = len wrapper + len r.1 ->
  _estimate_tokens system_prompt + _estimate_tokens user_prompt
    + max_output_tokens <= max_context_tokens.
Proof.
  intros Hctx Hr Hav Hw Hp Hlen.
  unfold _truncate_to_token_limit, available_tokens, available_tokens_with
    in Hr.
  rewrite Hw in Hr. cbn [mbind exc_bind mret exc_ret] in Hr.
  change (safety_margin_with Float64.lit_0_05 max_context_tokens)
    with (safety_margin max_context_tokens) in Hr.
  rewrite margin_five_percent in Hr by lia.
  cbn [mbind exc_bind mret exc_ret] in Hr. injection Hr as <-.
  set (available := max_context_tokens
         - (_estimate_tokens system_prompt + _estimate_tokens wrapper
            + max_output_tokens) - max_context_tokens / 20) in *.
  assert (Hm : 27 <= max_context_tokens / 20).
  { apply Z.div_le_lower_bound; lia. }
  pose proof (estimate_tokens_bounds wrapper) as Hwb.
  pose proof (estimate_tokens_bounds text) as Htb.
  pose proof (estimate_tokens_bounds user_prompt) as Hub.
  destruct (Z.le_gt_cases (_estimate_tokens text) available) as [Hfit|Hcut].
  - rewrite truncate_to_fit_fits in Hlen by done. simpl in Hlen. lia.
  - rewrite truncate_to_fit_cuts in Hlen by lia. simpl in Hlen.
    rewrite len_append, len_slice_to, notice_length in Hlen by lia. lia.
Qed.

Lemma request_within_context_limit_witness :
  exists r user_prompt,
    _truncate_to_token_limit format_named long_text "" "{text_content}" "f"
      600 500 = Ok r
    /\ was_truncated r = true
    /\ format_named "{text_content}" "f" r.1 = Ok user_prompt
    /\ _estimate_tokens "" + _estimate_tokens user_prompt + 500 <= 600.
Proof.
  eexists _, _. split; [vm_compute; reflexivity|].
  split; [reflexivity|]. split; [vm_compute; reflexivity|].
  eapply (request_within_context_limit format_named long_text ""
            "{text_content}" "f" "" _ 600 500).
  - lia.
  - vm_compute. reflexivity.
  - vm_compute. discriminate.
  - reflexivity.
  - vm_compute. reflexivity.
  - vm_compute. reflexivity.
Defined.

(** ** The upload endpoint: what happens to one file *)

Lemma lower_char_idempotent (c : ascii) :
  lower_char (lower_char c) = lower_char c.
Proof. by destruct c as [[] [] [] [] [] [] [] []]. Qed.

Lemma lower_idempotent (s : string) : lower (lower s) = lower s.
Proof.
  induction s as [|c s IH]; simpl; [done|].
  by rewrite lower_char_idempotent, IH.
Qed.

Lemma allowed_extensions_cases (ext : string) :
  ext ∈ allowed_extensions <->
  ext = ".pdf" \/ ext ∈ [".doc"; ".docx"] \/ ext ∈ [".ppt"; ".pptx"].
Proof.
  unfold allowed_extensions. rewrite !elem_of_cons, !elem_of_nil. tauto.
Qed.

Lemma strip_empty : strip EmptyString = EmptyString.
Proof. reflexivity. Qed.

(** The test [not extracted_text or len(extracted_text.strip()) < 50]
    comes down to its second half. *)
Lemma insufficient_text_test (text : string) :
  bool_decide (text = EmptyString) || (len (strip text) <? 50)
  = (len (strip text) <? 50).
Proof.
  destruct (bool_decide_reflect (text = EmptyString)) as [->|_]; [|done].
  reflexivity.
Qed.

(** *** File names and their extensions *)

Lemma has_char_cons (c d : ascii) (s : string) :
  has_char c (String d s) <-> c = d \/ has_char c s.
Proof. unfold has_char. simpl. by rewrite elem_of_cons. Qed.

Lemma has_char_append (c : ascii) (a b : string) :
  has_char c (a +:+ b) <-> has_char c a \/ has_char c b.
Proof.
  induction a as [|d a IH].
  - change (EmptyString +:+ b) with b. unfold has_char at 2. simpl.
    rewrite elem_of_nil. tauto.
  - change (String d a +:+ b) with (String d (a +:+ b)).
    rewrite !has_char_cons, IH. tauto.
Qed.

Lemma rfind_from_absent (c : ascii) (s : string) (i found : Z) :
  ~ has_char c s -> rfind_from c s i found = found.
Proof.
  revert i found. induction s as [|d s IH]; intros i found Hc; simpl; [done|].
  rewrite has_char_cons in Hc. rewrite IH by tauto.
  rewrite bool_decide_false; [done|]. intros ->. tauto.
Qed.

Lemma rfind_from_last (c : ascii) (a b : string) (i found : Z) :
  ~ has_char c b -> rfind_from c (a +:+ String c b) i found = i + len a.
Proof.
  intros Hb. revert i found.
  induction a as [|d a IH]; intros i found; simpl.
  - rewrite rfind_from_absent by done. rewrite bool_decide_true by done.
    unfold len. simpl. lia.
  - rewrite IH. unfold len. cbn [String.length]. lia.
Qed.

Lemma substring_prefix (a b : string) :
  String.substring 0 (String.length a) (a +:+ b) = a.
Proof.
  induction a as [|c a IH]; simpl; [by destruct b|]. by rewrite IH.
Qed.

Lemma substring_suffix (a b : string) :
  String.substring (String.length a) (String.length b) (a +:+ b) = b.
Proof.
  induction a as [|c a IH]; simpl; [|done].
  rewrite <- (prefix_all (String.length b) b) at 3 by done. done.
Qed.

Lemma lower_append (a b : string) : lower (a +:+ b) = lower a +:+ lower b.
Proof. induction a as [|c a IH]; simpl; [done|]. by rewrite IH. Qed.

Lemma not_only_dots (stem : string) (c : ascii) :
  has_char c stem -> c <> "."%char ->
  forallb (fun c => bool_decide (c = "."%char))
    (String.list_ascii_of_string stem) = false.
Proof.
  intros Hc Hne. induction stem as [|d stem IH]; simpl.
  - unfold has_char in Hc. simpl in Hc. by apply elem_of_nil in Hc.
  - apply has_char_cons in Hc as [<-|Hc].
    + by rewrite bool_decide_false.
    + rewrite IH by done. by destruct (bool_decide _).
Qed.

(** [splitext] on a plain file name: the extension is what follows the
    last dot. *)
Lemma splitext_plain_name (stem e : string) (c : ascii) :
  ~ has_char "/"%char stem -> has_char c stem -> c <> "."%char ->
  ~ has_char "."%char e -> ~ has_char "/"%char e ->
  splitext (stem +:+ String "."%char e) = (stem, String "."%char e).
Proof.
  intros Hsep Hc Hne Hdot Hsep'. unfold splitext, rfind.
  rewrite rfind_from_last by done.
  rewrite rfind_from_absent.
  2:{ rewrite has_char_append, has_char_cons. intros [?|[?|?]]; done. }
  pose proof (len_nonneg stem) as Hlen.
  destruct (Z.ltb_spec (-1) (0 + len stem)); [|lia].
  assert (Hstem : slice (stem +:+ String "."%char e) (-1 + 1) (0 + len stem)
                  = stem).
  { unfold slice, len.
    replace (Z.to_nat (-1 + 1)) with 0%nat by lia.
    replace (Z.to_nat (0 + Z.of_nat (String.length stem) - (-1 + 1)))
      with (String.length stem) by lia.
    apply substring_prefix. }
  rewrite Hstem, (not_only_dots stem c) by done. f_equal.
  - unfold slice_to. rewrite len_append.
    destruct (Z.ltb_spec (0 + len stem) 0); [lia|].
    rewrite Z.min_l by (pose proof (len_nonneg (String "."%char e)); lia).
    replace (Z.to_nat (0 + len stem)) with (String.length stem)
      by (unfold len; lia).
    apply substring_prefix.
  - unfold slice. rewrite len_append.
    replace (Z.to_nat (0 + len stem)) with (String.length stem)
      by (unfold len; lia).
    replace (Z.to_nat (len stem + len (String "."%char e) - (0 + len stem)))
      with (String.length (String "."%char e)) by (unfold len; lia).
    apply substring_suffix.
Qed.

(** X7. Which names pass the extension check. For an upload with a
    plain name [stem.e] (no directory part, a stem that is not made of
    dots only, no further dot in [e]) the extension the endpoint tests
    is [.e] in lower case: the file goes on to the temporary copy and
    the extraction exactly when [e], in any letter case, is one of pdf,
    doc, docx, ppt, pptx, and is answered [Unsupported file type]
    otherwise, whether or not copies can be written. *)
Theorem extension_check_on_plain_names
    (str_format : string -> string -> string -> exc string)
    (json_loads : string -> exc json)
    (environ : gmap string string)
    (chat_completion : nat -> string -> string -> Z -> exc string)
    (_parse_pdf _parse_doc _parse_ppt : upload -> exc string)
    (save_upload : nat -> upload -> exc unit)
    (temp_name : nat -> string -> string)
    (i : nat) (stem e body : string) (c : ascii) :
  ~ has_char "/"%char stem -> has_char c stem -> c <> "."%char ->
  ~ has_char "."%char e -> ~ has_char "/"%char e ->
  lower (splitext (stem +:+ String "."%char e)).2 = String "."%char (lower e)
  /\ (lower e ∉ ["pdf"; "doc"; "docx"; "ppt"; "pptx"] <->
      process_file str_format json_loads environ chat_completion
        _parse_pdf _parse_doc _parse_ppt save_upload temp_name i
        (Upload (stem +:+ String "."%char e) body) fresh
      = (BatchState
           [ResultError (stem +:+ String "."%char e)
              "Unsupported file type. Allowed types: .pdf, .doc, .docx, .ppt, .pptx"]
           [] [], None)).
Proof.
  intros Hsep Hc Hne Hdot Hsep'.
  assert (Hext : lower (splitext (stem +:+ String "."%char e)).2
                 = String "."%char (lower e)).
  { by rewrite (splitext_plain_name stem e c). }
  split; [done|].
  assert (Hiff : String "."%char (lower e) ∈ allowed_extensions
                 <-> lower e ∈ ["pdf"; "doc"; "docx"; "ppt"; "pptx"]).
  { unfold allowed_extensions. rewrite !elem_of_cons, !elem_of_nil.
    split; intros H; repeat destruct H as [H|H]; try done.
    all: first [injection H as -> | rewrite H]; tauto. }
  destruct (process_file_cases save_upload i
              (Upload (stem +:+ String "."%char e) body))
    as [Hout|[[Hin Hs]|[Hin [err Hs]]]];
    cbn [upload_filename] in *.
  - rewrite process_file_unsupported by done. cbn [upload_filename].
    split; [intros _; reflexivity|]. intros _ Hin. apply Hout.
    rewrite Hext. by apply Hiff.
  - rewrite process_file_saved by done. rewrite Hext in Hin.
    split; [intros Hno; by apply Hiff in Hin|].
    intros Heq. exfalso. apply (f_equal (fun r => temp_files r.1)) in Heq.
    cbn [fst] in Heq. rewrite extract_and_convert_temp_files in Heq.
    discriminate.
  - rewrite (process_file_not_saved _ _ _ _ _ _ _ _ _ _ _ _ err) by done.
    rewrite Hext in Hin.
    split; [intros Hno; by apply Hiff in Hin|]. discriminate.
Qed.

Lemma extension_check_on_plain_names_witness :
  lower (splitext ("Lecture 3.final" +:+ String "."%char "PPTX")).2
  = String "."%char (lower "PPTX").
Proof.
  apply (extension_check_on_plain_names format_named canned_loads ∅
           (fun _ => canned_reply) canned_pdf canned_doc canned_doc
           saved canned_temp 0 "Lecture 3.final" "PPTX" "binary" "L"%char).
  - unfold has_char. simpl. rewrite !elem_of_cons, elem_of_nil.
    intros H. repeat destruct H as [H|H]; done.
  - apply has_char_cons. by left.
  - discriminate.
  - unfold has_char. simpl. rewrite !elem_of_cons, elem_of_nil.
    intros H. repeat destruct H as [H|H]; done.
  - unfold has_char. simpl. rewrite !elem_of_cons, elem_of_nil.
    intros H. repeat destruct H as [H|H]; done.
Defined.

(** X8. The endpoint's allow-list and the parser's dispatch agree, and
    neither looks at the case of the extension: for an extension whose
    lower-case form is on the allow-list, [parse_file] hands the file to
    one of the three back ends and returns what that gives; for any other
    it raises [ValueError] naming the lower-cased extension; and the
    outcome is the same for the extension and its lower-case form. *)
Theorem parse_file_agrees_with_allow_list
    (_parse_pdf _parse_doc _parse_ppt : upload -> exc string)
    (file : upload) (file_extension : string) :
  (lower file_extension ∈ allowed_extensions ->
   parse_file _parse_pdf _parse_doc _parse_ppt file file_extension
   ∈ [_parse_pdf file; _parse_doc file; _parse_ppt file])
  /\ (lower file_extension ∉ allowed_extensions ->
      parse_file _parse_pdf _parse_doc _parse_ppt file file_extension
      = Err (Exn "ValueError"
               ("Unsupported file extension: " +:+ lower file_extension)))
  /\ parse_file _parse_pdf _parse_doc _parse_ppt file (lower file_extension)
     = parse_file _parse_pdf _parse_doc _parse_ppt file file_extension.
Proof.
  split; [|split].
  - intros H. apply allowed_extensions_cases in H. unfold parse_file.
    rewrite !elem_of_cons. destruct H as [H|[H|H]].
    + rewrite bool_decide_true by done. by left.
    + destruct (bool_decide _); [by left|].
      rewrite bool_decide_true by done. right. by left.
    + destruct (bool_decide _); [by left|].
      destruct (bool_decide _); [right; by left|].
      rewrite bool_decide_true by done. right. right. by left.
  - intros H. rewrite allowed_extensions_cases in H. unfold parse_file.
    rewrite !bool_decide_false by tauto. done.
  - unfold parse_file. by rewrite lower_idempotent.
Qed.

Lemma parse_file_agrees_with_allow_list_witness :
  parse_file canned_pdf canned_doc canned_doc (Upload "Notes.DOCX" "binary")
    ".DOCX"
  ∈ [canned_pdf (Upload "Notes.DOCX" "binary");
     canned_doc (Upload "Notes.DOCX" "binary");
     canned_doc (Upload "Notes.DOCX" "binary")].
Proof.
  apply (parse_file_agrees_with_allow_list canned_pdf canned_doc canned_doc
           (Upload "Notes.DOCX" "binary") ".DOCX").
  apply (list_elem_of_lookup_2 _ 2%nat). reflexivity.
Defined.

(** X9. A file ends as a success exactly when its extension is on the
    allow-list, its temporary copy was written, its text was extracted,
    the stripped text has at least 50 characters, and [convert_to_json]
    returned; the data of the entry is the document [convert_to_json]
    returned. *)
Theorem process_file_succeeds_iff
    (str_format : string -> string -> string -> exc string)
    (json_loads : string -> exc json)
    (environ : gmap string string)
    (chat_completion : nat -> string -> string -> Z -> exc string)
    (_parse_pdf _parse_doc _parse_ppt : upload -> exc string)
    (save_upload : nat -> upload -> exc unit)
    (temp_name : nat -> string -> string)
    (i : nat) (file : upload) (name : string) (data : json) :
  results (process_file str_format json_loads environ chat_completion
             _parse_pdf _parse_doc _parse_ppt save_upload temp_name
             i file fresh).1
  = [ResultSuccess name data]
  <-> name = upload_filename file
      /\ lower (splitext (upload_filename file)).2 ∈ allowed_extensions
      /\ save_upload i file = Ok tt
      /\ exists text,
           parse_file _parse_pdf _parse_doc _parse_ppt file
             (lower (splitext (upload_filename file)).2) = Ok text
           /\ 50 <= len (strip text)
           /\ (convert_to_json str_format json_loads environ
                 (chat_completion i) text (upload_filename file)).1
              = Ok data.
Proof.
  destruct (process_file_cases save_upload i file)
    as [Hout|[[Hin Hs]|[Hin [err Hs]]]].
  - rewrite process_file_unsupported by done.
    split; [discriminate|]. by intros (_ & ? & _).
  - rewrite process_file_saved by done. cbn [fst].
    unfold extract_and_convert, on_exception, fresh.
    destruct (parse_file _ _ _ _ _) as [text|e]; simpl.
    2:{ split; [discriminate|]. by intros (_ & _ & _ & ? & ? & _). }
    rewrite insufficient_text_test.
    destruct (Z.ltb_spec (len (strip text)) 50) as [Hshort|Hlong]; simpl.
    { split; [discriminate|].
      intros (_ & _ & _ & ? & [= <-] & ? & _). lia. }
    destruct (convert_to_json str_format json_loads environ
                (chat_completion i) text (upload_filename file))
      as [[doc|e] l] eqn:Hc; simpl.
    + split.
      * intros [= <- <-]. split; [done|]. split; [done|]. split; [done|].
        exists text. rewrite Hc. split; [done|]. split; [lia|done].
      * intros (-> & _ & _ & ? & [= <-] & _ & Hd). rewrite Hc in Hd.
        by injection Hd as <-.
    + split; [discriminate|]. intros (_ & _ & _ & ? & [= <-] & _ & Hd).
      by rewrite Hc in Hd.
  - rewrite (process_file_not_saved _ _ _ _ _ _ _ _ _ _ _ _ err) by done.
    split; [discriminate|]. intros (_ & _ & Hok & _).
    rewrite Hs in Hok. discriminate.
Qed.

(** X10. The completion service is asked only about files with enough
    text. For a file that is turned away before that point (its extension
    is not allowed, its temporary copy cannot be written, its extraction
    raises, or the stripped text has fewer than 50 characters) the whole
    outcome of the loop body, entries, log, temporary files and the
    exception that leaves it, is the same whatever the service would have
    answered. *)
Theorem service_asked_only_with_enough_text
    (str_format : string -> string -> string -> exc string)
    (json_loads : string -> exc json)
    (environ : gmap string string)
    (chat_completion chat_completion' : nat -> string -> string -> Z -> exc string)
    (_parse_pdf _parse_doc _parse_ppt : upload -> exc string)
    (save_upload : nat -> upload -> exc unit)
    (temp_name : nat -> string -> string)
    (i : nat) (file : upload) (st : batch_state) :
  (forall text,
     lower (splitext (upload_filename file)).2 ∈ allowed_extensions ->
     save_upload i file = Ok tt ->
     parse_file _parse_pdf _parse_doc _parse_ppt file
       (lower (splitext (upload_filename file)).2) = Ok text ->
     len (strip text) < 50) ->
  process_file str_format json_loads environ chat_completion
    _parse_pdf _parse_doc _parse_ppt save_upload temp_name i file st
  = process_file str_format json_loads environ chat_completion'
      _parse_pdf _parse_doc _parse_ppt save_upload temp_name i file st.
Proof.
  intros Hshort.
  destruct (process_file_cases save_upload i file)
    as [Hout|[[Hin Hs]|[Hin [err Hs]]]].
  - by rewrite !process_file_unsupported.
  - rewrite !process_file_saved by done. f_equal.
    unfold extract_and_convert.
    destruct (parse_file _ _ _ _ _) as [text|e]; [|done].
    rewrite insufficient_text_test.
    specialize (Hshort text Hin Hs eq_refl).
    by destruct (Z.ltb_spec (len (strip text)) 50); [|lia].
  - by rewrite !(process_file_not_saved _ _ _ _ _ _ _ _ _ _ _ _ err).
Qed.

Lemma service_asked_only_with_enough_text_witness :
  process_file format_named canned_loads ∅ (fun _ => canned_reply)
    canned_pdf canned_doc canned_doc saved canned_temp 0
    (Upload "scan.pdf" "page 1") fresh
  = process_file format_named canned_loads ∅ (fun _ => canned_prose)
      canned_pdf canned_doc canned_doc saved canned_temp 0
      (Upload "scan.pdf" "page 1") fresh.
Proof.
  apply (service_asked_only_with_enough_text format_named canned_loads ∅
           (fun _ => canned_reply) (fun _ => canned_prose)
           canned_pdf canned_doc canned_doc saved canned_temp 0
           (Upload "scan.pdf" "page 1") fresh).
  intros text _ _ H. vm_compute in H. injection H as <-. vm_compute.
  reflexivity.
Defined.

(** X11. A request with exactly one named file is answered in the old
    single-file form, whatever the file-count limit is: with status 200
    and the bare document when the file succeeded, with status 400 and
    its error message when it got an error entry. The limit can never
    turn a single file away. Status 500 is the answer exactly when the
    file has an allowed extension and its temporary copy could not be
    written: the message is then that of the exception, under
    [Error processing files]. *)
Theorem single_file_response
    (str_format : string -> string -> string -> exc string)
    (json_loads : string -> exc json)
    (environ : gmap string string)
    (chat_completion : nat -> string -> string -> Z -> exc string)
    (_parse_pdf _parse_doc _parse_ppt : upload -> exc string)
    (save_upload : nat -> upload -> exc unit)
    (temp_name : nat -> string -> string)
    (MAX_FILES_PER_REQUEST : Z)
    (files : list upload) (file : upload) :
  filter (fun f => upload_filename f <> EmptyString) files = [file] ->
  ((lower (splitext (upload_filename file)).2 ∈ allowed_extensions ->
    save_upload 0%nat file = Ok tt) ->
   exists entry,
     results (process_file str_format json_loads environ chat_completion
                _parse_pdf _parse_doc _parse_ppt save_upload temp_name
                0 file fresh).1
     = [entry]
     /\ (upload_file str_format json_loads environ chat_completion
           _parse_pdf _parse_doc _parse_ppt save_upload temp_name
           MAX_FILES_PER_REQUEST (Some files)).1.1
        = match entry with
          | ResultSuccess _ data => Response 200 (DataBody data)
          | ResultError _ error => Response 400 (ErrorBody error)
          end)
  /\ (forall e,
        lower (splitext (upload_filename file)).2 ∈ allowed_extensions ->
        save_upload 0%nat file = Err e ->
        (upload_file str_format json_loads environ chat_completion
           _parse_pdf _parse_doc _parse_ppt save_upload temp_name
           MAX_FILES_PER_REQUEST (Some files)).1.1
        = Response 500
            (ErrorBody ("Error processing files: " +:+ exn_str e))).
Proof.
  intros Hone.
  assert (Hrun : upload_file str_format json_loads environ chat_completion
                   _parse_pdf _parse_doc _parse_ppt save_upload temp_name
                   MAX_FILES_PER_REQUEST (Some files)
                 = upload_file str_format json_loads environ chat_completion
                     _parse_pdf _parse_doc _parse_ppt save_upload temp_name
                     MAX_FILES_PER_REQUEST (Some [file])).
  { unfold upload_file. rewrite Hone.
    assert (Hnamed : upload_filename file <> EmptyString).
    { assert (Hin : file ∈ filter (fun f => upload_filename f <> EmptyString)
                             files)
        by (rewrite Hone; by apply list_elem_of_singleton).
      by apply list_elem_of_filter in Hin as [? _]. }
    by rewrite filter_cons, decide_True, filter_nil by done. }
  assert (Hfile : upload_filename file <> EmptyString).
  { assert (Hin : file ∈ filter (fun f => upload_filename f <> EmptyString)
                           files)
      by (rewrite Hone; by apply list_elem_of_singleton).
    by apply list_elem_of_filter in Hin as [? _]. }
  rewrite Hrun.
  rewrite upload_file_named;
    [|by repeat constructor|done|simpl; lia].
  rewrite process_files_cons. split.
  - intros Hsaved.
    destruct (process_file_results str_format json_loads environ
                chat_completion _parse_pdf _parse_doc _parse_ppt
                save_upload temp_name 0 file fresh Hsaved)
      as (entry & He & _ & _ & Hok).
    exists entry. split; [done|]. rewrite Hok. cbn [process_files fst snd].
    unfold prepare_response. rewrite bool_decide_true by done. rewrite He.
    by destruct entry.
  - intros e Hext He.
    by rewrite (process_file_not_saved _ _ _ _ _ _ _ _ _ _ _ _ e).
Qed.

Lemma single_file_response_witness :
  (upload_file format_named canned_loads ∅ (fun _ => canned_reply)
     canned_pdf canned_doc canned_doc saved canned_temp 1
     (Some [Upload "" ""; Upload "notes.docx" "binary"])).1.1
  = Response 400 (ErrorBody "Error processing file: Package not found").
Proof.
  destruct (single_file_response format_named canned_loads ∅
              (fun _ => canned_reply) canned_pdf canned_doc canned_doc
              saved canned_temp 1 [Upload "" ""; Upload "notes.docx" "binary"]
              (Upload "notes.docx" "binary") eq_refl)
    as [Hsaved _].
  destruct (Hsaved (fun _ => eq_refl)) as (entry & He & ->).
  vm_compute in He. by injection He as <-.
Defined.

Lemma process_files_temp_files
    (str_format : string -> string -> string -> exc string)
    (json_loads : string -> exc json)
    (environ : gmap string string)
    (chat_completion : nat -> string -> string -> Z -> exc string)
    (_parse_pdf _parse_doc _parse_ppt : upload -> exc string)
    (save_upload : nat -> upload -> exc unit)
    (temp_name : nat -> string -> string)
    (files : list upload) (i : nat) (st : batch_state) (path : string) :
  path ∈ temp_files (process_files str_format json_loads environ
                       chat_completion _parse_pdf _parse_doc _parse_ppt
                       save_upload temp_name i files st).1
  <-> path ∈ temp_files st
      \/ exists k file,
           files !! k = Some file
           /\ lower (splitext (upload_filename file)).2 ∈ allowed_extensions
           /\ path = temp_name (i + k)%nat
                       (lower (splitext (upload_filename file)).2)
           /\ forall j file',
                (j <= k)%nat -> files !! j = Some file' ->
                lower (splitext (upload_filename file')).2
                  ∈ allowed_extensions ->
                save_upload (i + j)%nat file' = Ok tt.
Proof.
  revert i st. induction files as [|file files IH]; intros i st.
  - simpl. split; [by left|]. intros [H|(k & f & H & _)]; [done|].
    by rewrite lookup_nil in H.
  - rewrite process_files_cons.
    destruct (process_file_cases save_upload i file)
      as [Hout|[[Hin Hs]|[Hin [err Hs]]]].
    + rewrite process_file_unsupported by done.
      cbn [fst snd]. rewrite IH. cbn [temp_files append_result].
      split.
      * intros [H|(k & f & Hk & Hext & -> & Hbefore)]; [by left|].
        right. exists (S k), f. split; [done|]. split; [done|].
        split; [f_equal; lia|].
        intros [|j] f' Hj Hf' Hx; simpl in Hf'.
        -- injection Hf' as <-. done.
        -- replace (i + S j)%nat with (S i + j)%nat by lia.
           apply Hbefore; [lia|done|done].
      * intros [H|(k & f & Hk & Hext & -> & Hbefore)]; [by left|].
        destruct k as [|k]; simpl in Hk.
        { injection Hk as <-. done. }
        right. exists k, f. split; [done|]. split; [done|].
        split; [f_equal; lia|].
        intros j f' Hj Hf' Hx.
        replace (S i + j)%nat with (i + S j)%nat by lia.
        apply Hbefore; [lia|done|done].
    + rewrite process_file_saved by done.
      cbn [fst snd]. rewrite IH, extract_and_convert_temp_files.
      cbn [temp_files append_temp append_log]. rewrite elem_of_app.
      rewrite list_elem_of_singleton. split.
      * intros [[H| ->]|(k & f & Hk & Hext & -> & Hbefore)]; [by left| |].
        -- right. exists 0%nat, file. split; [done|]. split; [done|].
           split; [by rewrite Nat.add_0_r|].
           intros j f' Hj Hf' Hx. assert (j = 0)%nat as -> by lia.
           simpl in Hf'. injection Hf' as <-. by rewrite Nat.add_0_r.
        -- right. exists (S k), f. split; [done|]. split; [done|].
           split; [f_equal; lia|].
           intros [|j] f' Hj Hf' Hx; simpl in Hf'.
           ++ injection Hf' as <-. by rewrite Nat.add_0_r.
           ++ replace (i + S j)%nat with (S i + j)%nat by lia.
              apply Hbefore; [lia|done|done].
      * intros [H|(k & f & Hk & Hext & -> & Hbefore)]; [by left; left|].
        destruct k as [|k]; simpl in Hk.
        { injection Hk as <-. left. right. by rewrite Nat.add_0_r. }
        right. exists k, f. split; [done|]. split; [done|].
        split; [f_equal; lia|].
        intros j f' Hj Hf' Hx.
        replace (S i + j)%nat with (i + S j)%nat by lia.
        apply Hbefore; [lia|done|done].
    + rewrite (process_file_not_saved _ _ _ _ _ _ _ _ _ _ _ _ err) by done.
      cbn [fst snd]. cbn [temp_files append_log]. split; [by left|].
      intros [H|(k & f & Hk & Hext & -> & Hbefore)]; [done|].
      specialize (Hbefore 0%nat file ltac:(lia) eq_refl Hin).
      rewrite Nat.add_0_r, Hs in Hbefore. discriminate.
Qed.

(** X12. The temporary files that the [finally] block removes are exactly
    the copies written for the uploads with an allowed extension, one for
    each, named by the position of the upload in the request, up to the
    first copy that could not be written: a file that is turned away for
    its extension leaves nothing behind, a file whose extraction or
    conversion fails is cleaned up like one that succeeds, and a file
    whose copy could not be written is not on the list, nor is any file
    after it. When every copy is written these are the copies of all
    uploads with an allowed extension. *)
Theorem temporary_files_of_request
    (str_format : string -> string -> string -> exc string)
    (json_loads : string -> exc json)
    (environ : gmap string string)
    (chat_completion : nat -> string -> string -> Z -> exc string)
    (_parse_pdf _parse_doc _parse_ppt : upload -> exc string)
    (save_upload : nat -> upload -> exc unit)
    (temp_name : nat -> string -> string)
    (MAX_FILES_PER_REQUEST : Z)
    (files : list upload) (path : string) :
  Forall (fun f => upload_filename f <> EmptyString) files ->
  files <> [] ->
  (0 < MAX_FILES_PER_REQUEST ->
   Z.of_nat (length files) <= MAX_FILES_PER_REQUEST) ->
  path ∈ (upload_file str_format json_loads environ chat_completion
            _parse_pdf _parse_doc _parse_ppt save_upload temp_name
            MAX_FILES_PER_REQUEST (Some files)).2
  <-> exists k file,
        files !! k = Some file
        /\ lower (splitext (upload_filename file)).2 ∈ allowed_extensions
        /\ path = temp_name k (lower (splitext (upload_filename file)).2)
        /\ forall j file',
             (j <= k)%nat -> files !! j = Some file' ->
             lower (splitext (upload_filename file')).2
               ∈ allowed_extensions ->
             save_upload j file' = Ok tt.
Proof.
  intros Hnamed Hne Hmax. rewrite upload_file_named by done.
  assert (Hsnd : forall (o : exc response) (l : list log_record)
                   (t : list string) (f : exn -> response * list log_record),
    (match o with
     | Ok resp => (resp, l, t)
     | Err e => ((f e).1, (f e).2, t)
     end).2 = t) by (by intros [resp|e] l t f).
  match goal with
  | |- path ∈ (match ?o with
               | Ok resp => (resp, ?l, ?t)
               | Err e => _
               end).2 <-> _ =>
      replace ((match o with
                | Ok resp => (resp, l, t)
                | Err e =>
                    (Response 500
                       (ErrorBody ("Error processing files: " +:+ exn_str e)),
                     l ++ [LogRecord ERROR
                             ("Error processing files: " +:+ exn_str e)],
                     t)
                end).2) with t by (by destruct o)
  end.
  rewrite process_files_temp_files. simpl. split.
  - intros [H|H]; [by apply elem_of_nil in H|done].
  - intros H. by right.
Qed.

Lemma temporary_files_of_request_witness :
  "/tmp/tmp2.docx"
  ∈ (upload_file format_named canned_loads ∅ (fun _ => canned_reply)
       canned_pdf canned_doc canned_doc saved canned_temp 0
       (Some three_files)).2.
Proof.
  apply (temporary_files_of_request format_named canned_loads ∅
           (fun _ => canned_reply) canned_pdf canned_doc canned_doc
           saved canned_temp 0 three_files "/tmp/tmp2.docx").
  - repeat constructor; discriminate.
  - discriminate.
  - lia.
  - exists 2%nat, (Upload "notes.docx" "binary").
    split; [reflexivity|]. split.
    { apply (list_elem_of_lookup_2 _ 2%nat). reflexivity. }
    split; [reflexivity|]. by intros.
Defined.

(** X13. What an ERROR record means in the loop. Handling a file
    writes a record at ERROR level exactly when an exception was caught
    for it, that is, when its temporary copy was written and then its
    extraction raised or [convert_to_json] raised on its text. The two
    input errors, an extension that is not allowed and a text that is too
    short, are answered without any ERROR record, and so is every
    success; a copy that cannot be written is not logged by the loop
    either, it is left to the handler of the request. *)
Theorem error_records_mark_exceptions
    (str_format : string -> string -> string -> exc string)
    (json_loads : string -> exc json)
    (environ : gmap string string)
    (chat_completion : nat -> string -> string -> Z -> exc string)
    (_parse_pdf _parse_doc _parse_ppt : upload -> exc string)
    (save_upload : nat -> upload -> exc unit)
    (temp_name : nat -> string -> string)
    (i : nat) (file : upload) :
  Exists (fun record => level record = ERROR)
    (log (process_file str_format json_loads environ chat_completion
            _parse_pdf _parse_doc _parse_ppt save_upload temp_name
            i file fresh).1)
  <-> lower (splitext (upload_filename file)).2 ∈ allowed_extensions
      /\ save_upload i file = Ok tt
      /\ ((exists e,
             parse_file _parse_pdf _parse_doc _parse_ppt file
               (lower (splitext (upload_filename file)).2) = Err e)
          \/ exists text e,
               parse_file _parse_pdf _parse_doc _parse_ppt file
                 (lower (splitext (upload_filename file)).2) = Ok text
               /\ 50 <= len (strip text)
               /\ (convert_to_json str_format json_loads environ
                     (chat_completion i) text (upload_filename file)).1
                  = Err e).
Proof.
  destruct (process_file_cases save_upload i file)
    as [Hout|[[Hin Hs]|[Hin [err Hs]]]].
  { rewrite process_file_unsupported by done. simpl.
    rewrite Exists_nil. tauto. }
  2:{ rewrite (process_file_not_saved _ _ _ _ _ _ _ _ _ _ _ _ err) by done.
      simpl. rewrite Exists_cons, Exists_nil. simpl. split.
      - intros [?|[]]. discriminate.
      - intros (_ & Hok & _). rewrite Hs in Hok. discriminate. }
  rewrite process_file_saved by done. cbn [fst].
  unfold extract_and_convert, on_exception, fresh.
  destruct (parse_file _ _ _ _ _) as [text|e]; simpl.
  2:{ split; [intros _|].
      - split; [done|]. split; [done|]. left. by exists e.
      - intros _. do 2 apply Exists_cons_tl. by apply Exists_cons_hd. }
  rewrite insufficient_text_test.
  destruct (Z.ltb_spec (len (strip text)) 50) as [Hshort|Hlong]; simpl.
  { rewrite !Exists_cons, Exists_nil. simpl. split.
    - intros [?|[?|[]]]; discriminate.
    - intros (_ & _ & [(e & ?)|(t & e & [= <-] & ? & _)]);
        [discriminate|lia]. }
  destruct (convert_to_json str_format json_loads environ (chat_completion i)
              text (upload_filename file)) as [[doc|e] l] eqn:Hc; simpl.
  - pose proof (convert_to_json_quiet str_format json_loads environ
                  (chat_completion i) text (upload_filename file) doc) as Hq.
    rewrite Hc in Hq. specialize (Hq eq_refl). simpl in Hq.
    rewrite !Exists_cons, Exists_app, Exists_cons, Exists_nil. simpl. split.
    + intros [?|[?|[?|[?|[Hl|[?|[]]]]]]]; try discriminate.
      apply Exists_exists in Hl as (record & Hrec & Hlevel).
      rewrite Forall_forall in Hq. by apply Hq in Hrec.
    + intros (_ & _ & [(e & ?)|(t & e & [= <-] & _ & He)]); [discriminate|].
      rewrite Hc in He. discriminate.
  - split; [intros _|].
    + split; [done|]. split; [done|]. right. exists text, e. rewrite Hc.
      split; [done|]. split; [lia|done].
    + intros _. do 4 apply Exists_cons_tl. apply Exists_app. right.
      by apply Exists_cons_hd.
Qed.

(** X22. Isolation when the copies are written. A request with at least
    two named files, within the file-count limit, in which the temporary
    copy of every file with an allowed extension is written, is answered
    with a batch body that has exactly one entry per file, in order; the
    successes and failures add up to the number of files; the entry of
    each file is the one that file gets when the loop body runs on it
    alone from a fresh state, so an extraction or a conversion that
    raises for one file changes nothing for the others; and a file whose
    extraction yields the empty string gets the input-error entry. *)
Theorem upload_batch_isolation_when_saved
    (str_format : string -> string -> string -> exc string)
    (json_loads : string -> exc json)
    (environ : gmap string string)
    (chat_completion : nat -> string -> string -> Z -> exc string)
    (_parse_pdf _parse_doc _parse_ppt : upload -> exc string)
    (save_upload : nat -> upload -> exc unit)
    (temp_name : nat -> string -> string)
    (MAX_FILES_PER_REQUEST : Z)
    (files : list upload) :
  Forall (fun f => upload_filename f <> EmptyString) files ->
  (2 <= length files)%nat ->
  (0 < MAX_FILES_PER_REQUEST -> Z.of_nat (length files) <= MAX_FILES_PER_REQUEST) ->
  (forall k file,
     files !! k = Some file ->
     lower (splitext (upload_filename file)).2 ∈ allowed_extensions ->
     save_upload k file = Ok tt) ->
  exists entries successful failed,
    (upload_file str_format json_loads environ chat_completion
       _parse_pdf _parse_doc _parse_ppt save_upload temp_name
       MAX_FILES_PER_REQUEST (Some files)).1.1
    = Response 200
        (BatchBody entries (Z.of_nat (length files)) successful failed)
    /\ length entries = length files
    /\ 0 <= successful /\ 0 <= failed
    /\ successful + failed = Z.of_nat (length files)
    /\ (forall k file, files !! k = Some file ->
        exists entry, entries !! k = Some entry
          /\ results (process_file str_format json_loads environ
                        chat_completion _parse_pdf _parse_doc _parse_ppt
                        save_upload temp_name k file fresh).1 = [entry]
          /\ entry_filename entry = upload_filename file)
    /\ (forall k file, files !! k = Some file ->
        lower (splitext (upload_filename file)).2 ∈ allowed_extensions ->
        parse_file _parse_pdf _parse_doc _parse_ppt file
          (lower (splitext (upload_filename file)).2) = Ok EmptyString ->
        entries !! k
        = Some (ResultError (upload_filename file) INSUFFICIENT_TEXT)).
Proof.
  intros Hnamed Hlen Hmax Hsaved.
  destruct (process_files_results str_format json_loads environ
              chat_completion _parse_pdf _parse_doc _parse_ppt save_upload
              temp_name 0 files fresh Hsaved)
    as (Hnone & entries & Hr & Hn & Hall).
  simpl in Hr.
  exists entries, (count_successful entries),
    (Z.of_nat (length entries) - count_successful entries).
  pose proof (count_successful_le entries) as Hc.
  split; [|split; [done|split; [lia|split; [lia|split; [lia|split]]]]].
  - rewrite upload_file_named; [|done| |done].
    2:{ intros ->. simpl in Hlen. lia. }
    rewrite Hnone. unfold prepare_response.
    rewrite bool_decide_false by lia. cbn [fst]. by rewrite Hr.
  - intros k file Hk. specialize (Hall k file Hk). by simpl in Hall.
  - intros k file Hk Hext Hparse.
    destruct (Hall k file Hk) as (entry & He & Hsolo & _). simpl in Hsolo.
    rewrite (empty_extraction_entry str_format json_loads environ
               chat_completion _parse_pdf _parse_doc _parse_ppt save_upload
               temp_name k file Hext (Hsaved k file Hk Hext) Hparse)
      in Hsolo.
    by injection Hsolo as <-.
Qed.

Lemma upload_batch_isolation_when_saved_witness :
  exists entries successful failed,
    (upload_file format_named canned_loads ∅ (fun _ => canned_reply)
       canned_pdf canned_doc canned_doc saved canned_temp 0
       (Some three_files)).1.1
    = Response 200 (BatchBody entries 3 successful failed)
    /\ length entries = 3%nat
    /\ entries !! 1%nat
       = Some (ResultError "scan.pdf" INSUFFICIENT_TEXT).
Proof.
  destruct (upload_batch_isolation_when_saved format_named canned_loads ∅
              (fun _ => canned_reply) canned_pdf canned_doc canned_doc
              saved canned_temp 0 three_files)
    as (entries & successful & failed & Hresp & Hn & _ & _ & _ & _ & Hempty).
  - repeat constructor; discriminate.
  - simpl. lia.
  - lia.
  - by intros.
  - exists entries, successful, failed. split; [exact Hresp|].
    split; [exact Hn|].
    apply (Hempty 1%nat (Upload "scan.pdf" EmptyString)).
    + reflexivity.
    + apply (list_elem_of_lookup_2 _ 0%nat). reflexivity.
    + vm_compute. reflexivity.
Defined.

(** ** The extraction back ends *)

Lemma filter_nil_iff {A} (P : A -> Prop) `{forall x, Decision (P x)}
    (l : list A) :
  filter P l = [] <-> Forall (fun x => ~ P x) l.
Proof.
  induction l as [|x l IH]; [by split; [constructor|]|].
  rewrite filter_cons, Forall_cons. destruct (decide (P x)) as [Hx|Hx].
  - split; [discriminate|]. by intros [? _].
  - rewrite IH. tauto.
Qed.

Lemma omap_nil_iff {A B} (f : A -> option B) (l : list A) :
  omap f l = [] <-> Forall (fun x => f x = None) l.
Proof.
  induction l as [|x l IH]; [by split; [constructor|]|].
  rewrite Forall_cons. simpl. destruct (f x) as [y|].
  - split; [discriminate|]. by intros [? _].
  - rewrite IH. tauto.
Qed.

(** Joining parts none of which is empty gives the empty string only for
    no parts at all. *)
Lemma str_join_empty (sep : string) (parts : list string) :
  Forall (fun t => t <> EmptyString) parts ->
  str_join sep parts = EmptyString <-> parts = [].
Proof.
  intros H. destruct H as [|x parts Hx _]; [done|].
  split; [|discriminate]. intros Hj. exfalso.
  destruct x as [|c x]; [done|]. unfold str_join in Hj.
  destruct parts; simpl in Hj; discriminate.
Qed.

Lemma pdf_pages_texts (texts acc : list string) :
  pdf_pages (Ok <$> texts) acc
  = Ok (acc ++ filter (fun t => t <> EmptyString) texts).
Proof.
  revert acc. induction texts as [|t texts IH]; intros acc; simpl.
  - by rewrite app_nil_r.
  - rewrite IH, filter_cons.
    destruct (bool_decide_reflect (t = EmptyString)) as [Ht|Ht].
    + by rewrite decide_False by tauto.
    + rewrite decide_True by done. by rewrite <- app_assoc.
Qed.

Lemma pdf_pages_raises (texts acc : list string) (e : exn)
    (rest : list (exc string)) :
  pdf_pages ((Ok <$> texts) ++ Err e :: rest) acc = Err e.
Proof.
  revert acc. induction texts as [|t texts IH]; intros acc; simpl; [done|].
  apply IH.
Qed.

(** X14. [_parse_pdf] on a readable document: the text is the texts of
    the pages that have any, in page order, with an empty line between
    them; the page count is logged; and the text is empty exactly when no
    page has text, as with a scan. *)
Theorem parse_pdf_joins_page_texts
    (PdfReader : upload -> exc (list (exc string)))
    (file : upload) (texts : list string) :
  PdfReader file = Ok (Ok <$> texts) ->
  _parse_pdf (Ok tt) PdfReader file
  = (Ok (str_join blank_line (filter (fun t => t <> EmptyString) texts)),
     [LogRecord INFO ("Processing PDF with " +:+
                      str_of_nat (length texts) +:+ " pages")])
  /\ ((_parse_pdf (Ok tt) PdfReader file).1 = Ok EmptyString
      <-> Forall (fun t => t = EmptyString) texts).
Proof.
  intros Hr.
  assert (Hrun : _parse_pdf (Ok tt) PdfReader file
    = (Ok (str_join blank_line (filter (fun t => t <> EmptyString) texts)),
       [LogRecord INFO ("Processing PDF with " +:+
                        str_of_nat (length texts) +:+ " pages")])).
  { unfold _parse_pdf. rewrite log_bind_lift_ok, Hr, log_bind_lift_ok.
    unfold log_emit. rewrite log_bind_written.
    rewrite pdf_pages_texts, log_bind_lift_ok.
    by rewrite length_fmap. }
  split; [done|]. rewrite Hrun. simpl. split.
  - intros [= Hj]. apply str_join_empty in Hj.
    + apply filter_nil_iff in Hj. eapply Forall_impl; [exact Hj|].
      intros t Ht. by destruct (decide (t = EmptyString)).
    + apply Forall_forall. intros t Ht. by apply list_elem_of_filter in Ht as [? _].
  - intros Hall. f_equal. apply str_join_empty.
    + apply Forall_forall. intros t Ht. by apply list_elem_of_filter in Ht as [? _].
    + apply filter_nil_iff. eapply Forall_impl; [exact Hall|]. by intros t -> ?.
Qed.

Lemma parse_pdf_joins_page_texts_witness :
  (_parse_pdf (Ok tt) scanned_reader (Upload "scan.pdf" "binary")).1
  = Ok EmptyString.
Proof.
  apply (parse_pdf_joins_page_texts scanned_reader
           (Upload "scan.pdf" "binary") [EmptyString; EmptyString] eq_refl).
  by repeat constructor.
Defined.

(** X15. One page that cannot be read loses the document: when
    [extract_text()] raises on a page, [_parse_pdf] raises that very
    exception, whatever the pages before it held and whatever follows,
    and logs it at ERROR level after the page count. *)
Theorem parse_pdf_unreadable_page
    (PdfReader : upload -> exc (list (exc string)))
    (file : upload) (texts : list string) (e : exn)
    (rest : list (exc string)) :
  PdfReader file = Ok ((Ok <$> texts) ++ Err e :: rest) ->
  is_ImportError e = false ->
  _parse_pdf (Ok tt) PdfReader file
  = (Err e,
     [LogRecord INFO ("Processing PDF with " +:+
                      str_of_nat (length texts + S (length rest)) +:+
                      " pages");
      LogRecord ERROR ("Error parsing PDF: " +:+ exn_str e)]).
Proof.
  intros Hr He. unfold _parse_pdf.
  rewrite log_bind_lift_ok, Hr, log_bind_lift_ok.
  unfold log_emit. rewrite log_bind_written.
  rewrite pdf_pages_raises. unfold except_clauses. simpl. rewrite He.
  by rewrite length_app, length_fmap.
Qed.

Lemma parse_pdf_unreadable_page_witness :
  _parse_pdf (Ok tt) damaged_reader (Upload "book.pdf" "binary")
  = (Err (Exn "PdfReadError" "Invalid Elementary Object"),
     [LogRecord INFO "Processing PDF with 3 pages";
      LogRecord ERROR "Error parsing PDF: Invalid Elementary Object"]).
Proof.
  apply (parse_pdf_unreadable_page damaged_reader
           (Upload "book.pdf" "binary") ["Chapter 1"]
           (Exn "PdfReadError" "Invalid Elementary Object")
           [Ok "Chapter 3"] eq_refl).
  reflexivity.
Defined.

(** X16. A missing package is reported the same way by the three back
    ends: when the [import] raises [ImportError] (or
    [ModuleNotFoundError]), the back end raises an [ImportError] that
    names the package to install, without reading the file and without
    logging anything. *)
Theorem missing_package_reported
    (PdfReader : upload -> exc (list (exc string)))
    (Document : upload -> exc docx)
    (Presentation : upload -> exc (list (list (option string))))
    (file : upload) (e : exn) :
  is_ImportError e = true ->
  _parse_pdf (Err e) PdfReader file
  = (Err (Exn "ImportError"
            "PyPDF2 is required for PDF parsing. Install it with: pip install PyPDF2"),
     [])
  /\ _parse_doc (Err e) Document file
     = (Err (Exn "ImportError"
               "python-docx is required for DOC/DOCX parsing. Install it with: pip install python-docx"),
        [])
  /\ _parse_ppt (Err e) Presentation file
     = (Err (Exn "ImportError"
               "python-pptx is required for PPT/PPTX parsing. Install it with: pip install python-pptx"),
        []).
Proof.
  intros He. unfold _parse_pdf, _parse_doc, _parse_ppt, except_clauses.
  rewrite !(log_bind_Err _ _ e) by done. simpl. by rewrite He.
Qed.

Lemma missing_package_reported_witness :
  _parse_pdf (Err (Exn "ModuleNotFoundError" "No module named 'PyPDF2'"))
    scanned_reader (Upload "scan.pdf" "binary")
  = (Err (Exn "ImportError"
            "PyPDF2 is required for PDF parsing. Install it with: pip install PyPDF2"),
     []).
Proof.
  apply (missing_package_reported scanned_reader sample_document sample_deck
           (Upload "scan.pdf" "binary")
           (Exn "ModuleNotFoundError" "No module named 'PyPDF2'")).
  reflexivity.
Defined.

Lemma doc_paragraphs_filter (ps acc : list string) :
  doc_paragraphs ps acc
  = acc ++ filter (fun t => strip t <> EmptyString) ps.
Proof.
  unfold doc_paragraphs. revert acc.
  induction ps as [|t ps IH]; intros acc; simpl.
  - by rewrite app_nil_r.
  - rewrite IH, filter_cons.
    destruct (bool_decide_reflect (strip t = EmptyString)) as [Ht|Ht].
    + by rewrite decide_False by tauto.
    + rewrite decide_True by done. by rewrite <- app_assoc.
Qed.

Lemma doc_row_from (cells acc : list string) :
  foldl (fun row_text text =>
           if bool_decide (strip text = EmptyString) then row_text
           else row_text ++ [strip text]) acc cells
  = acc ++ filter (fun t => t <> EmptyString) (strip <$> cells).
Proof.
  revert acc. induction cells as [|t cells IH]; intros acc; simpl.
  - by rewrite app_nil_r.
  - rewrite IH. rewrite filter_cons.
    destruct (bool_decide_reflect (strip t = EmptyString)) as [Ht|Ht].
    + by rewrite decide_False by tauto.
    + rewrite decide_True by done. by rewrite <- app_assoc.
Qed.

Lemma doc_row_filter (cells : list string) :
  doc_row cells = filter (fun t => t <> EmptyString) (strip <$> cells).
Proof. unfold doc_row. by rewrite doc_row_from. Qed.

Lemma doc_rows_lines (rows : list (list string)) (acc : list string) :
  foldl (fun text_content cells =>
           let row_text := doc_row cells in
           if bool_decide (row_text = []) then text_content
           else text_content ++ [str_join " | " row_text]) acc rows
  = acc ++ omap row_line rows.
Proof.
  revert acc. induction rows as [|cells rows IH]; intros acc; simpl.
  - by rewrite app_nil_r.
  - rewrite IH. unfold row_line at 2. rewrite doc_row_filter.
    destruct (bool_decide _); simpl; [done|]. by rewrite <- app_assoc.
Qed.

Lemma doc_tables_lines (ts : list (list (list string))) (acc : list string) :
  doc_tables ts acc = acc ++ omap row_line (concat ts).
Proof.
  unfold doc_tables. revert acc.
  induction ts as [|rows ts IH]; intros acc; simpl.
  - by rewrite app_nil_r.
  - rewrite IH, doc_rows_lines, omap_app. by rewrite <- app_assoc.
Qed.

Lemma strip_nonblank (t : string) :
  strip t <> EmptyString -> t <> EmptyString.
Proof. by intros H ->. Qed.

Lemma row_line_nonempty (cells : list string) (line : string) :
  row_line cells = Some line -> line <> EmptyString.
Proof.
  unfold row_line.
  destruct (bool_decide_reflect
              (filter (fun t => t <> EmptyString) (strip <$> cells) = []))
    as [|Hne]; [done|].
  intros [= <-] Hj. apply str_join_empty in Hj; [done|].
  apply Forall_forall. intros t Ht.
  by apply list_elem_of_filter in Ht as [? _].
Qed.

Lemma row_line_None (cells : list string) :
  row_line cells = None
  <-> Forall (fun t => strip t = EmptyString) cells.
Proof.
  unfold row_line.
  destruct (bool_decide_reflect
              (filter (fun t => t <> EmptyString) (strip <$> cells) = []))
    as [Hnil|Hne].
  - split; [intros _|done]. apply filter_nil_iff in Hnil.
    apply (Forall_fmap strip (fun x => ~ x <> EmptyString)) in Hnil.
    eapply Forall_impl; [exact Hnil|].
    intros t Ht. simpl in Ht. by destruct (decide (strip t = EmptyString)).
  - split; [done|]. intros Hall. exfalso. apply Hne.
    apply filter_nil_iff.
    apply (Forall_fmap strip (fun x => ~ x <> EmptyString)).
    eapply Forall_impl; [exact Hall|]. by intros t Ht ?.
Qed.

(** X17. [_parse_doc] on a document that opens: the text is the
    paragraphs that are not blank, unstripped, followed by one line for
    each table row that has a non-blank cell, its non-blank cells
    stripped and joined by [ | ], all separated by empty lines; tables
    come after every paragraph, wherever they stand in the document.
    Nothing is logged, and the text is empty exactly when every
    paragraph and every cell is blank. *)
Theorem parse_doc_joins_paragraphs_and_rows
    (Document : upload -> exc docx) (file : upload) (doc : docx) :
  Document file = Ok doc ->
  _parse_doc (Ok tt) Document file
  = (Ok (str_join blank_line
           (filter (fun t => strip t <> EmptyString) (paragraphs doc)
            ++ omap row_line (concat (tables doc)))), [])
  /\ ((_parse_doc (Ok tt) Document file).1 = Ok EmptyString
      <-> Forall (fun t => strip t = EmptyString) (paragraphs doc)
          /\ Forall (Forall (fun t => strip t = EmptyString))
               (concat (tables doc))).
Proof.
  intros Hd.
  assert (Hrun : _parse_doc (Ok tt) Document file
    = (Ok (str_join blank_line
             (filter (fun t => strip t <> EmptyString) (paragraphs doc)
              ++ omap row_line (concat (tables doc)))), [])).
  { unfold _parse_doc. rewrite log_bind_lift_ok, Hd, log_bind_lift_ok.
    cbv zeta. by rewrite doc_paragraphs_filter, doc_tables_lines. }
  split; [done|]. rewrite Hrun. simpl.
  assert (Hparts : Forall (fun t => t <> EmptyString)
            (filter (fun t => strip t <> EmptyString) (paragraphs doc)
             ++ omap row_line (concat (tables doc)))).
  { apply Forall_app. split; apply Forall_forall; intros t Ht.
    - apply list_elem_of_filter in Ht as [Ht _]. by apply strip_nonblank.
    - apply list_elem_of_omap in Ht as (cells & _ & Ht).
      by apply row_line_nonempty in Ht. }
  assert (Hnil : filter (fun t => strip t <> EmptyString) (paragraphs doc)
                 ++ omap row_line (concat (tables doc)) = []
    <-> Forall (fun t => strip t = EmptyString) (paragraphs doc)
        /\ Forall (Forall (fun t => strip t = EmptyString))
             (concat (tables doc))).
  { rewrite app_nil, filter_nil_iff, omap_nil_iff.
    split; intros [Hp Ht]; split.
    - eapply Forall_impl; [exact Hp|]. intros t Hb.
      by destruct (decide (strip t = EmptyString)).
    - eapply Forall_impl; [exact Ht|]. intros cells. apply row_line_None.
    - eapply Forall_impl; [exact Hp|]. by intros t Hb ?.
    - eapply Forall_impl; [exact Ht|]. intros cells. apply row_line_None. }
  rewrite <- Hnil. split.
  - intros [= Hj]. by apply str_join_empty in Hj.
  - intros Hj. f_equal. by apply str_join_empty.
Qed.

Lemma parse_doc_joins_paragraphs_and_rows_witness :
  _parse_doc (Ok tt) sample_document (Upload "units.docx" "binary")
  = (Ok ("Units" +:+ blank_line +:+ "metre | m"), []).
Proof.
  apply (parse_doc_joins_paragraphs_and_rows sample_document
           (Upload "units.docx" "binary")
           (Docx ["Units"; "  "] [[["metre"; " m "]; [""; " "]]]) eq_refl).
Defined.

Lemma ppt_shapes_texts (shapes : list (option string)) (acc : list string) :
  ppt_shapes shapes acc = acc ++ omap shape_text shapes.
Proof.
  unfold ppt_shapes. revert acc.
  induction shapes as [|shape shapes IH]; intros acc; simpl.
  - by rewrite app_nil_r.
  - rewrite IH. destruct shape as [text|]; simpl; [|done].
    destruct (bool_decide _); simpl; [done|]. by rewrite <- app_assoc.
Qed.

Lemma ppt_slides_blocks (slides : list (list (option string)))
    (slide_num : nat) (acc : list string) :
  ppt_slides slide_num slides acc
  = acc ++ omap id (imap (fun k => slide_block (slide_num + k)) slides).
Proof.
  revert slide_num acc.
  induction slides as [|slide slides IH]; intros slide_num acc.
  - simpl. by rewrite app_nil_r.
  - cbn [ppt_slides]. rewrite IH, imap_cons, ppt_shapes_texts.
    rewrite Nat.add_0_r.
    rewrite (imap_ext (_ ∘ S) (fun k => slide_block (S slide_num + k)))
      by (intros k x _; simpl; f_equal; lia).
    unfold slide_block at 2. cbn zeta.
    destruct (omap shape_text slide) as [|t ts]; simpl; [done|].
    by rewrite <- app_assoc.
Qed.

Lemma slide_block_nonempty (slide_num : nat)
    (shapes : list (option string)) (block : string) :
  slide_block slide_num shapes = Some block -> block <> EmptyString.
Proof.
  unfold slide_block. destruct (bool_decide _); [done|].
  intros [= <-]. unfold str_join, slide_header. simpl.
  by destruct (omap shape_text shapes).
Qed.

Lemma slide_block_None (slide_num : nat) (shapes : list (option string)) :
  slide_block slide_num shapes = None
  <-> Forall (fun shape => shape_text shape = None) shapes.
Proof.
  unfold slide_block. rewrite <- omap_nil_iff.
  by destruct (bool_decide_reflect (omap shape_text shapes = [])).
Qed.

Lemma slide_blocks_nil (slides : list (list (option string)))
    (slide_num : nat) :
  omap id (imap (fun k => slide_block (slide_num + k)) slides) = []
  <-> Forall (Forall (fun shape => shape_text shape = None)) slides.
Proof.
  revert slide_num. induction slides as [|slide slides IH]; intros slide_num.
  - by split; [constructor|].
  - rewrite imap_cons, Forall_cons, Nat.add_0_r.
    rewrite (imap_ext (_ ∘ S) (fun k => slide_block (S slide_num + k)))
      by (intros k x _; simpl; f_equal; lia).
    rewrite <- (IH (S slide_num)), <- (slide_block_None slide_num). simpl.
    destruct (slide_block slide_num slide) as [block|]; simpl.
    + split; [discriminate|]. by intros [? _].
    + tauto.
Qed.

(** X18. [_parse_ppt] on a presentation that opens: a slide contributes
    a block exactly when one of its shapes has text that is not blank,
    and the block is headed by the number the slide has in the deck,
    counted from 1, so the numbers in the text stay the real slide
    numbers when slides are left out; shapes without a [text] attribute
    are passed over. The blocks are separated by empty lines, the slide
    count is logged, and the text is empty exactly when no shape of any
    slide has text. *)
Theorem parse_ppt_numbers_slides
    (Presentation : upload -> exc (list (list (option string))))
    (file : upload) (slides : list (list (option string))) :
  Presentation file = Ok slides ->
  _parse_ppt (Ok tt) Presentation file
  = (Ok (str_join blank_line
           (omap id (imap (fun k => slide_block (S k)) slides))),
     [LogRecord INFO ("Processing PowerPoint with " +:+
                      str_of_nat (length slides) +:+ " slides")])
  /\ ((_parse_ppt (Ok tt) Presentation file).1 = Ok EmptyString
      <-> Forall (Forall (fun shape => shape_text shape = None)) slides).
Proof.
  intros Hp.
  assert (Hrun : _parse_ppt (Ok tt) Presentation file
    = (Ok (str_join blank_line
             (omap id (imap (fun k => slide_block (S k)) slides))),
       [LogRecord INFO ("Processing PowerPoint with " +:+
                        str_of_nat (length slides) +:+ " slides")])).
  { unfold _parse_ppt. rewrite log_bind_lift_ok, Hp, log_bind_lift_ok.
    unfold log_emit. rewrite log_bind_written.
    by rewrite (ppt_slides_blocks slides 1 []). }
  split; [done|]. rewrite Hrun. simpl.
  rewrite <- (slide_blocks_nil slides 1).
  assert (Hparts : Forall (fun t => t <> EmptyString)
            (omap id (imap (fun k => slide_block (S k)) slides))).
  { apply Forall_forall. intros t Ht.
    apply list_elem_of_omap in Ht as (block & Hin & Hb). simpl in Hb.
    subst block. apply list_elem_of_lookup_1 in Hin as (k & Hk).
    rewrite list_lookup_imap in Hk.
    destruct (slides !! k) as [slide|]; [|done]. simpl in Hk.
    injection Hk as Hk. by apply slide_block_nonempty in Hk. }
  split.
  - intros [= Hj]. by apply str_join_empty in Hj.
  - intros Hj. f_equal. by apply str_join_empty.
Qed.

Lemma parse_ppt_numbers_slides_witness :
  _parse_ppt (Ok tt) sample_deck (Upload "forces.pptx" "binary")
  = (Ok ("--- Slide 1 ---" +:+ newline +:+ "Forces"),
     [LogRecord INFO "Processing PowerPoint with 3 slides"]).
Proof.
  apply (parse_ppt_numbers_slides sample_deck
           (Upload "forces.pptx" "binary")
           [[Some " Forces "; None]; [None]; [Some "  "]] eq_refl).
Defined.

(** ** From the document to the response *)

Lemma scan_has_no_text
    (PdfReader : upload -> exc (list (exc string)))
    (file : upload) (texts : list string) :
  PdfReader file = Ok (Ok <$> texts) ->
  Forall (fun t => t = EmptyString) texts ->
  (_parse_pdf (Ok tt) PdfReader file).1 = Ok EmptyString.
Proof.
  intros Hr Hall. unfold _parse_pdf.
  rewrite log_bind_lift_ok, Hr, log_bind_lift_ok.
  unfold log_emit. rewrite log_bind_written.
  rewrite pdf_pages_texts, log_bind_lift_ok. simpl.
  replace (filter (fun t => t <> EmptyString) texts) with (@nil string);
    [done|].
  symmetry. apply filter_nil_iff.
  eapply Forall_impl; [exact Hall|]. by intros t -> ?.
Qed.

(** X19. A scan is answered as an input error. For an upload named
    [*.pdf], in any letter case, whose temporary copy is written and
    whose pages all come back without text, the entry is the error
    [Could not extract sufficient text ...]; on its own the file is
    answered with status 400 and that message, and the completion
    service plays no part in it. *)
Theorem scanned_pdf_is_insufficient_text
    (str_format : string -> string -> string -> exc string)
    (json_loads : string -> exc json)
    (environ : gmap string string)
    (chat_completion : nat -> string -> string -> Z -> exc string)
    (PdfReader : upload -> exc (list (exc string)))
    (_parse_doc _parse_ppt : upload -> exc string)
    (save_upload : nat -> upload -> exc unit)
    (temp_name : nat -> string -> string)
    (MAX_FILES_PER_REQUEST : Z)
    (file : upload) (texts : list string) :
  lower (splitext (upload_filename file)).2 = ".pdf" ->
  (forall i, save_upload i file = Ok tt) ->
  PdfReader file = Ok (Ok <$> texts) ->
  Forall (fun t => t = EmptyString) texts ->
  (forall i,
     results (process_file str_format json_loads environ chat_completion
                (fun f => (_parse_pdf (Ok tt) PdfReader f).1)
                _parse_doc _parse_ppt save_upload temp_name i file fresh).1
     = [ResultError (upload_filename file) INSUFFICIENT_TEXT])
  /\ (upload_file str_format json_loads environ chat_completion
        (fun f => (_parse_pdf (Ok tt) PdfReader f).1)
        _parse_doc _parse_ppt save_upload temp_name MAX_FILES_PER_REQUEST
        (Some [file])).1.1
     = Response 400 (ErrorBody INSUFFICIENT_TEXT).
Proof.
  intros Hext Hsaved Hr Hall.
  assert (Hin : lower (splitext (upload_filename file)).2
                ∈ allowed_extensions).
  { rewrite Hext. apply (list_elem_of_lookup_2 _ 0%nat). reflexivity. }
  assert (Hentry : forall i,
    results (process_file str_format json_loads environ chat_completion
               (fun f => (_parse_pdf (Ok tt) PdfReader f).1)
               _parse_doc _parse_ppt save_upload temp_name i file fresh).1
    = [ResultError (upload_filename file) INSUFFICIENT_TEXT]).
  { intros i. apply empty_extraction_entry; [done|done|].
    rewrite Hext. unfold parse_file. simpl.
    by apply (scan_has_no_text PdfReader file texts). }
  split; [done|].
  assert (Hname : upload_filename file <> EmptyString).
  { intros Hn. rewrite Hn in Hext. discriminate. }
  rewrite upload_file_named;
    [|by repeat constructor|done|simpl; lia].
  rewrite process_files_cons.
  rewrite (process_file_saved _ _ _ _ _ _ _ _ _ _ _ _ Hin (Hsaved 0%nat)).
  cbn [process_files fst snd]. unfold prepare_response.
  rewrite bool_decide_true by done.
  pose proof (Hentry 0%nat) as H0.
  rewrite (process_file_saved _ _ _ _ _ _ _ _ _ _ _ _ Hin (Hsaved 0%nat))
    in H0.
  cbn [fst] in H0. by rewrite H0.
Qed.

Lemma scanned_pdf_is_insufficient_text_witness :
  (upload_file format_named canned_loads ∅ (fun _ => canned_reply)
     (fun f => (_parse_pdf (Ok tt) scanned_reader f).1)
     canned_doc canned_doc saved canned_temp 0
     (Some [Upload "Scan.PDF" "binary"])).1.1
  = Response 400 (ErrorBody INSUFFICIENT_TEXT).
Proof.
  apply (scanned_pdf_is_insufficient_text format_named canned_loads ∅
           (fun _ => canned_reply) scanned_reader canned_doc canned_doc
           saved canned_temp 0 (Upload "Scan.PDF" "binary")
           [EmptyString; EmptyString]).
  - reflexivity.
  - reflexivity.
  - reflexivity.
  - by repeat constructor.
Defined.

(** ** Start-up *)

Lemma int_of_str_ValueError (s : string) (e : exn) :
  int_of_str s = Err e -> exn_class e = "ValueError".
Proof.
  unfold int_of_str.
  destruct (match int_lstrip s with
            | String "-" r => (true, r)
            | String "+" r => (false, r)
            | _ => (false, int_lstrip s)
            end) as [negative body].
  assert (Hscan :
    match scan_digits body false 0 0 with
    | Some (digits, n, rest) =>
        if MAX_STR_DIGITS <? digits
        then Err (Exn "ValueError"
                    ("Exceeds the limit (" +:+ str_of_Z MAX_STR_DIGITS +:+
                     " digits) for integer string conversion: value has " +:+
                     str_of_Z digits +:+
                     " digits; use sys.set_int_max_str_digits() to increase the limit"))
        else if digits =? 0
        then Err (Exn "ValueError"
                    ("invalid literal for int() with base 10: " +:+
                     slice_to (repr s) 200))
        else if bool_decide (int_lstrip rest = EmptyString)
        then Ok (if negative then - n else n)
        else Err (Exn "ValueError"
                    ("invalid literal for int() with base 10: " +:+
                     slice_to (repr s) 200))
    | None =>
        Err (Exn "ValueError"
               ("invalid literal for int() with base 10: " +:+
                slice_to (repr s) 200))
    end = Err e -> exn_class e = "ValueError").
  { destruct (scan_digits body false 0 0) as [[[digits n] rest]|];
      [|by intros [= <-]].
    destruct (MAX_STR_DIGITS <? digits); [by intros [= <-]|].
    destruct (digits =? 0); [by intros [= <-]|].
    destruct (bool_decide _); [discriminate|by intros [= <-]]. }
  destruct body as [|c body']; [exact Hscan|].
  destruct (Ascii.ascii_dec c "_"%char) as [->|Hc]; [by intros [= <-]|].
  destruct c as [[] [] [] [] [] [] [] []]; try exact Hscan.
  by intros [= <-].
Qed.

(** X20. Loading the module: with neither limit set and a non-empty API
    key the uploads are capped at 200 MB, that is 209715200 bytes, and
    the number of files is not capped; without a key, or with an empty
    one, loading fails; and every failure of loading is a [ValueError],
    whether it comes from a limit that is not an integer or from the
    missing key. *)
Theorem load_settings_outcomes (environ : gmap string string) :
  (forall key,
     environ !! "MAX_FILE_SIZE_MB" = None ->
     environ !! "MAX_FILES_PER_REQUEST" = None ->
     environ !! "OPENAI_API_KEY" = Some key -> key <> EmptyString ->
     load_settings environ = Ok (Settings 200 209715200 0 key))
  /\ (environ !! "OPENAI_API_KEY" = None
      \/ environ !! "OPENAI_API_KEY" = Some EmptyString ->
      exists e, load_settings environ = Err e)
  /\ (forall e, load_settings environ = Err e -> exn_class e = "ValueError").
Proof.
  split; [|split].
  - intros key Hsize Hfiles Hkey Hne. unfold load_settings, getenv.
    rewrite Hsize, Hfiles, Hkey. by destruct key.
  - intros Hkey. unfold load_settings.
    destruct (int_of_str (getenv environ "MAX_FILE_SIZE_MB" "200"))
      as [size|e]; [|by eexists].
    destruct (int_of_str (getenv environ "MAX_FILES_PER_REQUEST" "0"))
      as [files|e]; [|by eexists].
    cbn [mbind exc_bind]. destruct Hkey as [-> | ->]; by eexists.
  - intros e. unfold load_settings.
    destruct (int_of_str (getenv environ "MAX_FILE_SIZE_MB" "200"))
      as [size|e1] eqn:H1.
    2:{ intros [= <-]. by apply int_of_str_ValueError in H1. }
    destruct (int_of_str (getenv environ "MAX_FILES_PER_REQUEST" "0"))
      as [files|e2] eqn:H2.
    2:{ intros [= <-]. by apply int_of_str_ValueError in H2. }
    cbn [mbind exc_bind].
    destruct (environ !! "OPENAI_API_KEY") as [[|c key]|];
      [by intros [= <-]|discriminate|by intros [= <-]].
Qed.

Lemma load_settings_outcomes_witness :
  load_settings {[ "OPENAI_API_KEY" := "sk-test" ]}
  = Ok (Settings 200 209715200 0 "sk-test").
Proof.
  apply (load_settings_outcomes {[ "OPENAI_API_KEY" := "sk-test" ]}).
  - reflexivity.
  - reflexivity.
  - reflexivity.
  - discriminate.
Defined.

(** X21. With [MAX_FILES_PER_REQUEST] unset, zero or negative, no
    request is turned away for the number of its files: whatever the
    settings that loaded otherwise, a request of two or more named files
    goes through the loop. When the temporary copy of every file with an
    allowed extension is written it is answered with status 200 and one
    entry per file; when the copy of some file is the first that cannot
    be written it is answered with status 500 and the message of that
    exception. *)
Theorem no_file_limit_by_default
    (str_format : string -> string -> string -> exc string)
    (json_loads : string -> exc json)
    (environ : gmap string string)
    (chat_completion : nat -> string -> string -> Z -> exc string)
    (_parse_pdf _parse_doc _parse_ppt : upload -> exc string)
    (save_upload : nat -> upload -> exc unit)
    (temp_name : nat -> string -> string)
    (startup_environ : gmap string string) (loaded : settings)
    (files : list upload) :
  load_settings startup_environ = Ok loaded ->
  (startup_environ !! "MAX_FILES_PER_REQUEST" = None
   \/ exists setting n,
        startup_environ !! "MAX_FILES_PER_REQUEST" = Some setting
        /\ int_of_str setting = Ok n /\ n <= 0) ->
  Forall (fun f => upload_filename f <> EmptyString) files ->
  (2 <= length files)%nat ->
  ((forall k file,
      files !! k = Some file ->
      lower (splitext (upload_filename file)).2 ∈ allowed_extensions ->
      save_upload k file = Ok tt) ->
   exists entries successful failed,
     (upload_file str_format json_loads environ chat_completion
        _parse_pdf _parse_doc _parse_ppt save_upload temp_name
        (MAX_FILES_PER_REQUEST loaded) (Some files)).1.1
     = Response 200
         (BatchBody entries (Z.of_nat (length files)) successful failed)
     /\ length entries = length files)
  /\ (forall k file e,
        files !! k = Some file ->
        lower (splitext (upload_filename file)).2 ∈ allowed_extensions ->
        save_upload k file = Err e ->
        (forall j file',
           (j < k)%nat -> files !! j = Some file' ->
           lower (splitext (upload_filename file')).2 ∈ allowed_extensions ->
           save_upload j file' = Ok tt) ->
        (upload_file str_format json_loads environ chat_completion
           _parse_pdf _parse_doc _parse_ppt save_upload temp_name
           (MAX_FILES_PER_REQUEST loaded) (Some files)).1.1
        = Response 500
            (ErrorBody ("Error processing files: " +:+ exn_str e))).
Proof.
  intros Hload Hset Hnamed Hlen.
  assert (Hmax : MAX_FILES_PER_REQUEST loaded <= 0).
  { unfold load_settings, getenv in Hload.
    destruct (int_of_str (default "200" (startup_environ !! "MAX_FILE_SIZE_MB")))
      as [size|]; [|discriminate].
    cbn [mbind exc_bind] in Hload.
    destruct Hset as [Hn|(setting & n & Hs & Hi & Hn)].
    - rewrite Hn in Hload. cbn [default] in Hload.
      change (int_of_str "0") with (@Ok Z 0) in Hload.
      cbn [mbind exc_bind] in Hload.
      destruct (startup_environ !! "OPENAI_API_KEY") as [[|c key]|];
        try discriminate.
      by injection Hload as <-.
    - rewrite Hs in Hload.
      change (default "0" (Some setting)) with setting in Hload.
      rewrite Hi in Hload.
      cbn [mbind exc_bind] in Hload.
      destruct (startup_environ !! "OPENAI_API_KEY") as [[|c key]|];
        try discriminate.
      by injection Hload as <-. }
  assert (Hne : files <> []) by (intros ->; simpl in Hlen; lia).
  split.
  - intros Hsaved.
    destruct (process_files_results str_format json_loads environ
                chat_completion _parse_pdf _parse_doc _parse_ppt save_upload
                temp_name 0 files fresh Hsaved)
      as (Hnone & entries & Hr & Hn & _).
    simpl in Hr.
    exists entries, (count_successful entries),
      (Z.of_nat (length entries) - count_successful entries).
    split; [|done].
    rewrite upload_file_named by (done || lia).
    rewrite Hnone. unfold prepare_response.
    rewrite bool_decide_false by lia. cbn [fst]. by rewrite Hr.
  - intros k file e Hk Hext He Hbefore.
    rewrite upload_file_named by (done || lia).
    by rewrite (process_files_first_raise str_format json_loads environ
                  chat_completion _parse_pdf _parse_doc _parse_ppt
                  save_upload temp_name 0 files fresh k file e).
Qed.

Lemma no_file_limit_by_default_witness :
  (exists entries successful failed,
     (upload_file format_named canned_loads ∅ (fun _ => canned_reply)
        canned_pdf canned_doc canned_doc saved canned_temp
        (MAX_FILES_PER_REQUEST (Settings 200 209715200 0 "sk-test"))
        (Some three_files)).1.1
     = Response 200 (BatchBody entries 3 successful failed)
     /\ length entries = 3%nat)
  /\ (upload_file format_named canned_loads ∅ (fun _ => canned_reply)
        canned_pdf canned_doc canned_doc disk_full canned_temp
        (MAX_FILES_PER_REQUEST (Settings 200 209715200 0 "sk-test"))
        (Some three_files)).1.1
     = Response 500
         (ErrorBody
            "Error processing files: [Errno 28] No space left on device").
Proof.
  split.
  - apply (no_file_limit_by_default format_named canned_loads ∅
             (fun _ => canned_reply) canned_pdf canned_doc canned_doc
             saved canned_temp {[ "OPENAI_API_KEY" := "sk-test" ]}
             (Settings 200 209715200 0 "sk-test") three_files).
    + reflexivity.
    + left. reflexivity.
    + repeat constructor; discriminate.
    + simpl. lia.
    + by intros.
  - assert (Hload : load_settings {[ "OPENAI_API_KEY" := "sk-test" ]}
                    = Ok (Settings 200 209715200 0 "sk-test"))
      by reflexivity.
    assert (Hnamed : Forall (fun f => upload_filename f <> EmptyString)
                       three_files)
      by (repeat constructor; discriminate).
    assert (Hlen : (2 <= length three_files)%nat) by (simpl; lia).
    destruct (no_file_limit_by_default format_named canned_loads ∅
                (fun _ => canned_reply) canned_pdf canned_doc canned_doc
                disk_full canned_temp {[ "OPENAI_API_KEY" := "sk-test" ]}
                (Settings 200 209715200 0 "sk-test") three_files
                Hload (or_introl eq_refl) Hnamed Hlen) as [_ Hraise].
    apply (Hraise 2%nat (Upload "notes.docx" "binary")
             (Exn "OSError" "[Errno 28] No space left on device")).
    + reflexivity.
    + apply (list_elem_of_lookup_2 _ 2%nat). reflexivity.
    + reflexivity.
    + intros j f Hj _ _. unfold disk_full.
      rewrite bool_decide_false by lia. reflexivity.
Defined.
